(** * OverlayTextDisplay: state aggregation and texture composition

    A shallow embedding of [overlay_text_display.cpp]: the member variables
    of [OverlayTextDisplay] become a record, every slot and callback a
    function on that record, and the calls made on the collaborators
    (overlay object, painter, logger) are kept as data so that they can be
    inspected afterwards. *)

From Stdlib Require Import ZArith QArith Qround Qpower Bool List String Ascii Lia.
From Stdlib Require Import Floats.SpecFloat.
From Stdlib Require DecimalString.
Import ListNotations.

Local Open Scope Z_scope.

(** ** Floating-point colour channels

    Colour channels travel as single-precision numbers and are scaled with
    the double literal [255.0]: the channel is widened to double precision,
    multiplied, and the product is converted to [int] where it is handed to
    [QColor(int, int, int, int)] or [QColor::setAlpha(int)]. *)
Module Float.

(** IEEE 754 binary32 and binary64 over the Standard Library's
    [spec_float]. *)
Definition prec32 : Z := 24.
Definition emax32 : Z := 128.
Definition prec64 : Z := 53.
Definition emax64 : Z := 1024.

Definition valid32 (x : spec_float) : bool := valid_binary prec32 emax32 x.
Definition valid64 (x : spec_float) : bool := valid_binary prec64 emax64 x.

Definition is_finite (x : spec_float) : bool :=
  match x with
  | S754_zero _ | S754_finite _ _ _ => true
  | S754_infinity _ | S754_nan => false
  end.

(** The rational a finite number stands for (0 for the others). *)
Definition SF2Q (x : spec_float) : Q :=
  match x with
  | S754_finite s m e => (inject_Z (cond_Zopp s (Zpos m)) * Qpower 2 e)%Q
  | _ => 0%Q
  end.

(** [float] to [double]: exact, the mantissa is realigned to 53 bits. *)
Definition to_double (x : spec_float) : spec_float :=
  match x with
  | S754_finite s m e => binary_round prec64 emax64 s m e
  | _ => x
  end.

(** The literal [255.0]: 255 * 2^45 * 2^-45. *)
Definition d255 : spec_float := S754_finite false (255 * 2 ^ 45)%positive (-45).

Definition mul64 (x y : spec_float) : spec_float := SFmul prec64 emax64 x y.

Definition INT_MIN : Z := - 2 ^ 31.
Definition INT_MAX : Z := 2 ^ 31 - 1.

(** [double] to [int]: the fractional part is discarded; the conversion is
    undefined ([None]) when the truncated value does not fit an [int]. *)
Definition to_int (x : spec_float) : option Z :=
  match x with
  | S754_zero _ => Some 0
  | S754_finite s m e =>
      let v := cond_Zopp s (Z.shiftl (Zpos m) e) in
      if (INT_MIN <=? v) && (v <=? INT_MAX) then Some v else None
  | S754_infinity _ | S754_nan => None
  end.

(** [c * 255.0] passed where an [int] is expected. *)
Definition scale255 (c : spec_float) : option Z :=
  to_int (mul64 (to_double c) d255).

(** The floor of the real product [c * 255]. *)
Definition floor255 (c : spec_float) : Z := Qfloor (SF2Q c * 255).

(** A single-precision number between 0 and 1. *)
Definition in_unit_interval (c : spec_float) : Prop :=
  valid32 c = true /\ is_finite c = true
  /\ (0 <= SF2Q c)%Q /\ (SF2Q c <= 1)%Q.

(** A rounding record without round and sticky bit. *)
Definition exact_record (m : Z) : shr_record :=
  {| shr_m := m; shr_r := false; shr_s := false |}.

(** A single-precision mantissa realigned to 53 bits, and the
    significand of its product with 255. *)
Definition widen (m : positive) : positive :=
  Pos.iter xO m (Z.to_pos (53 - Zpos (digits2_pos m))).

Definition scaled (m : positive) : positive :=
  Pos.iter xO (m * 255)%positive
    (Z.to_pos (53 - Zpos (digits2_pos (m * 255)%positive))).

(** Some single-precision constants. *)
Definition zero : spec_float := S754_zero false.
Definition one : spec_float := S754_finite false 8388608 (-23).
Definition half : spec_float := S754_finite false 8388608 (-24).
(** 0.8f, the nearest binary32 to 4/5. *)
Definition point8 : spec_float := S754_finite false 13421773 (-24).

End Float.

(** ** Qt value types

    [QColor], [QPen], [QFont], [QStaticText] and the image a [QPainter]
    draws on, as far as the display uses them. *)
Module QColor.

Record t := rgba { red : Z; green : Z; blue : Z; alpha : Z; isValid : bool }.

Definition in_range (v : Z) : bool := (0 <=? v) && (v <=? 255).

(** The default-constructed, invalid colour. *)
Definition invalid : t := rgba 0 0 0 255 false.

(** [QColor(int r, int g, int b, int a)]: the colour is left invalid when
    one of the arguments is out of range, and its three colour channels
    read 0. What the alpha of such a colour reads differs between versions
    of the library; nothing below depends on it. *)
Definition make (r g b a : Z) : t :=
  if in_range r && in_range g && in_range b && in_range a
  then rgba r g b a true
  else invalid.

(** The setters clamp their argument into 0..255. Those of the three
    colour channels turn an invalid colour into an RGB one, [setAlpha]
    leaves the kind of colour alone. *)
Definition clamp (v : Z) : Z := Z.max 0 (Z.min v 255).

Definition setRed (v : Z) (c : t) : t :=
  rgba (clamp v) (green c) (blue c) (alpha c) true.
Definition setGreen (v : Z) (c : t) : t :=
  rgba (red c) (clamp v) (blue c) (alpha c) true.
Definition setBlue (v : Z) (c : t) : t :=
  rgba (red c) (green c) (clamp v) (alpha c) true.
Definition setAlpha (v : Z) (c : t) : t :=
  rgba (red c) (green c) (blue c) (clamp v) (isValid c).

(** [Qt::white] and [Qt::black]. *)
Definition white : t := rgba 255 255 255 255 true.
Definition black : t := rgba 0 0 0 255 true.

End QColor.

(** [QPen(color, width, Qt::SolidLine)] *)
Record QPen := { pen_color : QColor.t; pen_width : Z }.

(** A [QFont] built from a family name, with the point size and weight
    the display asks for. *)
Record QFont := { family : string; pointSize : Z; bold : bool }.

(** [QStaticText] with the width set by [setTextWidth]. *)
Record QStaticText := { static_content : string; textWidth : option Z }.

(** What [QPainter::drawStaticText] was asked to draw, with the pen and the
    font the painter held at that moment ([None]: the font of the surface). *)
Record Stroke := {
  stroke_x : Z;
  stroke_y : Z;
  stroke_text : QStaticText;
  stroke_pen : QPen;
  stroke_font : option QFont
}.

(** The image behind the pixel buffer: a background fill and the strokes
    drawn over it, oldest first. *)
Record QImage := {
  image_width : Z;
  image_height : Z;
  background : QColor.t;
  strokes : list Stroke
}.

(** ** Alignment of the overlay inside the render window *)
Module HorizontalAlignment.
Inductive t := LEFT | RIGHT | CENTER.
End HorizontalAlignment.

Module VerticalAlignment.
Inductive t := CENTER | TOP | BOTTOM.
End VerticalAlignment.

(** ** The message *)
Module ColorRGBA.
(** Modelled from the spec: a colour of the message schema of section 6,
    four floating-point channels, taken to be single-precision numbers. The
    declaration of the colour type is not among the sources. *)
Record t := { r : spec_float; g : spec_float; b : spec_float; a : spec_float }.
End ColorRGBA.

Module OverlayText.

(** The numeric tags the message type declares. Their values are not part
    of the display's source; the display only compares against them. *)
Record Constants := {
  ADD : Z; DELETE : Z;
  LEFT : Z; RIGHT : Z; CENTER : Z; TOP : Z; BOTTOM : Z
}.

(** Modelled from the spec: the message schema of section 6, an action
    tag, integer sizes and distances, two alignment tags, two colours with
    floating-point channels, a font name, a line width and the text. The
    declaration of the message type is not among the sources. *)
Record t := {
  action : Z;
  width : Z;
  height : Z;
  horizontal_distance : Z;
  vertical_distance : Z;
  horizontal_alignment : Z;
  vertical_alignment : Z;
  bg_color : ColorRGBA.t;
  line_width : Z;
  text_size : Z;
  font : string;
  fg_color : ColorRGBA.t;
  text : string
}.

Definition with_action (v : Z) (m : t) : t :=
  {| action := v; width := width m; height := height m;
     horizontal_distance := horizontal_distance m;
     vertical_distance := vertical_distance m;
     horizontal_alignment := horizontal_alignment m;
     vertical_alignment := vertical_alignment m;
     bg_color := bg_color m; line_width := line_width m;
     text_size := text_size m; font := font m;
     fg_color := fg_color m; text := text m |}.

End OverlayText.

(** ** The overlay object *)
Module OverlayObject.

Inductive call :=
| Show
| Hide
| UpdateTextureSize (w h : Z)
| GetBuffer
| SetDimensions (w h : Z)
| SetPosition (hdist vdist : Z)
    (ha : HorizontalAlignment.t) (va : VerticalAlignment.t).

(** Modelled from the spec: the overlay resource of sections 3 and 6, an
    object that can be shown and hidden, owns a pixel buffer of a size it
    grants on request, and takes dimensions and a position. Its class is
    not among the sources. [calls] keeps every call made on the object,
    newest first. *)
Record t := {
  name : string;
  visible : bool;
  textureWidth : Z;
  textureHeight : Z;
  dimensions : option (Z * Z);
  position : option (Z * Z * HorizontalAlignment.t * VerticalAlignment.t);
  buffer : option QImage;
  calls : list call
}.

Definition create (n : string) : t :=
  {| name := n; visible := false; textureWidth := 0; textureHeight := 0;
     dimensions := None; position := None; buffer := None; calls := [] |}.

Definition show (o : t) : t :=
  {| name := name o; visible := true;
     textureWidth := textureWidth o; textureHeight := textureHeight o;
     dimensions := dimensions o; position := position o;
     buffer := buffer o; calls := Show :: calls o |}.

Definition hide (o : t) : t :=
  {| name := name o; visible := false;
     textureWidth := textureWidth o; textureHeight := textureHeight o;
     dimensions := dimensions o; position := position o;
     buffer := buffer o; calls := Hide :: calls o |}.

Definition setPosition (hd vd : Z)
    (ha : HorizontalAlignment.t) (va : VerticalAlignment.t) (o : t) : t :=
  {| name := name o; visible := visible o;
     textureWidth := textureWidth o; textureHeight := textureHeight o;
     dimensions := dimensions o; position := Some (hd, vd, ha, va);
     buffer := buffer o; calls := SetPosition hd vd ha va :: calls o |}.

Definition setDimensions (w h : Z) (o : t) : t :=
  {| name := name o; visible := visible o;
     textureWidth := textureWidth o; textureHeight := textureHeight o;
     dimensions := Some (w, h); position := position o;
     buffer := buffer o; calls := SetDimensions w h :: calls o |}.

(** [granted] is the size the resource really allocates for a request. *)
Definition updateTextureSize (granted : Z -> Z -> Z * Z) (w h : Z) (o : t) : t :=
  {| name := name o; visible := visible o;
     textureWidth := fst (granted w h); textureHeight := snd (granted w h);
     dimensions := dimensions o; position := position o;
     buffer := buffer o; calls := UpdateTextureSize w h :: calls o |}.

(** Modelled from the spec: the scoped buffer acquisition of section 6,
    which hands out a drawable surface of the size of the texture, filled
    with the background colour. *)
Definition getQImage (o : t) (bg : QColor.t) : QImage :=
  {| image_width := textureWidth o; image_height := textureHeight o;
     background := bg; strokes := [] |}.

(** The buffer is committed when the scope that acquired it is left. *)
Definition commitBuffer (img : QImage) (o : t) : t :=
  {| name := name o; visible := visible o;
     textureWidth := textureWidth o; textureHeight := textureHeight o;
     dimensions := dimensions o; position := position o;
     buffer := Some img; calls := GetBuffer :: calls o |}.

End OverlayObject.

(** ** The rendering configuration

    The member variables of [OverlayTextDisplay] that decide what is drawn,
    with the flag that asks for the texture to be drawn again. *)
Record RenderConfig := {
  texture_width_ : Z;
  texture_height_ : Z;
  align_bottom_ : bool;
  invert_shadow_ : bool;
  bg_color_ : QColor.t;
  fg_color_ : QColor.t;
  text_size_ : Z;
  line_width_ : Z;
  text_ : string;
  font_ : string;
  horizontal_dist_ : Z;
  vertical_dist_ : Z;
  horizontal_alignment_ : HorizontalAlignment.t;
  vertical_alignment_ : VerticalAlignment.t;
  require_update_texture_ : bool
}.

(** One assignment to a member variable. *)
Definition set_texture_width_ (v : Z) (c : RenderConfig) : RenderConfig :=
  {| texture_width_ := v; texture_height_ := texture_height_ c;
     align_bottom_ := align_bottom_ c; invert_shadow_ := invert_shadow_ c;
     bg_color_ := bg_color_ c; fg_color_ := fg_color_ c; text_size_ :=
     text_size_ c; line_width_ := line_width_ c; text_ := text_ c; font_
     := font_ c; horizontal_dist_ := horizontal_dist_ c; vertical_dist_ :=
     vertical_dist_ c; horizontal_alignment_ := horizontal_alignment_ c;
     vertical_alignment_ := vertical_alignment_ c; require_update_texture_
     := require_update_texture_ c |}.

Definition set_texture_height_ (v : Z) (c : RenderConfig) : RenderConfig :=
  {| texture_width_ := texture_width_ c; texture_height_ := v;
     align_bottom_ := align_bottom_ c; invert_shadow_ := invert_shadow_ c;
     bg_color_ := bg_color_ c; fg_color_ := fg_color_ c; text_size_ :=
     text_size_ c; line_width_ := line_width_ c; text_ := text_ c; font_
     := font_ c; horizontal_dist_ := horizontal_dist_ c; vertical_dist_ :=
     vertical_dist_ c; horizontal_alignment_ := horizontal_alignment_ c;
     vertical_alignment_ := vertical_alignment_ c; require_update_texture_
     := require_update_texture_ c |}.

Definition set_align_bottom_ (v : bool) (c : RenderConfig) : RenderConfig :=
  {| texture_width_ := texture_width_ c; texture_height_ :=
     texture_height_ c; align_bottom_ := v; invert_shadow_ :=
     invert_shadow_ c; bg_color_ := bg_color_ c; fg_color_ := fg_color_ c;
     text_size_ := text_size_ c; line_width_ := line_width_ c; text_ :=
     text_ c; font_ := font_ c; horizontal_dist_ := horizontal_dist_ c;
     vertical_dist_ := vertical_dist_ c; horizontal_alignment_ :=
     horizontal_alignment_ c; vertical_alignment_ := vertical_alignment_
     c; require_update_texture_ := require_update_texture_ c |}.

Definition set_invert_shadow_ (v : bool) (c : RenderConfig) : RenderConfig :=
  {| texture_width_ := texture_width_ c; texture_height_ :=
     texture_height_ c; align_bottom_ := align_bottom_ c; invert_shadow_
     := v; bg_color_ := bg_color_ c; fg_color_ := fg_color_ c; text_size_
     := text_size_ c; line_width_ := line_width_ c; text_ := text_ c;
     font_ := font_ c; horizontal_dist_ := horizontal_dist_ c;
     vertical_dist_ := vertical_dist_ c; horizontal_alignment_ :=
     horizontal_alignment_ c; vertical_alignment_ := vertical_alignment_
     c; require_update_texture_ := require_update_texture_ c |}.

Definition set_bg_color_ (v : QColor.t) (c : RenderConfig) : RenderConfig :=
  {| texture_width_ := texture_width_ c; texture_height_ :=
     texture_height_ c; align_bottom_ := align_bottom_ c; invert_shadow_
     := invert_shadow_ c; bg_color_ := v; fg_color_ := fg_color_ c;
     text_size_ := text_size_ c; line_width_ := line_width_ c; text_ :=
     text_ c; font_ := font_ c; horizontal_dist_ := horizontal_dist_ c;
     vertical_dist_ := vertical_dist_ c; horizontal_alignment_ :=
     horizontal_alignment_ c; vertical_alignment_ := vertical_alignment_
     c; require_update_texture_ := require_update_texture_ c |}.

Definition set_fg_color_ (v : QColor.t) (c : RenderConfig) : RenderConfig :=
  {| texture_width_ := texture_width_ c; texture_height_ :=
     texture_height_ c; align_bottom_ := align_bottom_ c; invert_shadow_
     := invert_shadow_ c; bg_color_ := bg_color_ c; fg_color_ := v;
     text_size_ := text_size_ c; line_width_ := line_width_ c; text_ :=
     text_ c; font_ := font_ c; horizontal_dist_ := horizontal_dist_ c;
     vertical_dist_ := vertical_dist_ c; horizontal_alignment_ :=
     horizontal_alignment_ c; vertical_alignment_ := vertical_alignment_
     c; require_update_texture_ := require_update_texture_ c |}.

Definition set_text_size_ (v : Z) (c : RenderConfig) : RenderConfig :=
  {| texture_width_ := texture_width_ c; texture_height_ :=
     texture_height_ c; align_bottom_ := align_bottom_ c; invert_shadow_
     := invert_shadow_ c; bg_color_ := bg_color_ c; fg_color_ := fg_color_
     c; text_size_ := v; line_width_ := line_width_ c; text_ := text_ c;
     font_ := font_ c; horizontal_dist_ := horizontal_dist_ c;
     vertical_dist_ := vertical_dist_ c; horizontal_alignment_ :=
     horizontal_alignment_ c; vertical_alignment_ := vertical_alignment_
     c; require_update_texture_ := require_update_texture_ c |}.

Definition set_line_width_ (v : Z) (c : RenderConfig) : RenderConfig :=
  {| texture_width_ := texture_width_ c; texture_height_ :=
     texture_height_ c; align_bottom_ := align_bottom_ c; invert_shadow_
     := invert_shadow_ c; bg_color_ := bg_color_ c; fg_color_ := fg_color_
     c; text_size_ := text_size_ c; line_width_ := v; text_ := text_ c;
     font_ := font_ c; horizontal_dist_ := horizontal_dist_ c;
     vertical_dist_ := vertical_dist_ c; horizontal_alignment_ :=
     horizontal_alignment_ c; vertical_alignment_ := vertical_alignment_
     c; require_update_texture_ := require_update_texture_ c |}.

Definition set_text_ (v : string) (c : RenderConfig) : RenderConfig :=
  {| texture_width_ := texture_width_ c; texture_height_ :=
     texture_height_ c; align_bottom_ := align_bottom_ c; invert_shadow_
     := invert_shadow_ c; bg_color_ := bg_color_ c; fg_color_ := fg_color_
     c; text_size_ := text_size_ c; line_width_ := line_width_ c; text_ :=
     v; font_ := font_ c; horizontal_dist_ := horizontal_dist_ c;
     vertical_dist_ := vertical_dist_ c; horizontal_alignment_ :=
     horizontal_alignment_ c; vertical_alignment_ := vertical_alignment_
     c; require_update_texture_ := require_update_texture_ c |}.

Definition set_font_ (v : string) (c : RenderConfig) : RenderConfig :=
  {| texture_width_ := texture_width_ c; texture_height_ :=
     texture_height_ c; align_bottom_ := align_bottom_ c; invert_shadow_
     := invert_shadow_ c; bg_color_ := bg_color_ c; fg_color_ := fg_color_
     c; text_size_ := text_size_ c; line_width_ := line_width_ c; text_ :=
     text_ c; font_ := v; horizontal_dist_ := horizontal_dist_ c;
     vertical_dist_ := vertical_dist_ c; horizontal_alignment_ :=
     horizontal_alignment_ c; vertical_alignment_ := vertical_alignment_
     c; require_update_texture_ := require_update_texture_ c |}.

Definition set_horizontal_dist_ (v : Z) (c : RenderConfig) : RenderConfig :=
  {| texture_width_ := texture_width_ c; texture_height_ :=
     texture_height_ c; align_bottom_ := align_bottom_ c; invert_shadow_
     := invert_shadow_ c; bg_color_ := bg_color_ c; fg_color_ := fg_color_
     c; text_size_ := text_size_ c; line_width_ := line_width_ c; text_ :=
     text_ c; font_ := font_ c; horizontal_dist_ := v; vertical_dist_ :=
     vertical_dist_ c; horizontal_alignment_ := horizontal_alignment_ c;
     vertical_alignment_ := vertical_alignment_ c; require_update_texture_
     := require_update_texture_ c |}.

Definition set_vertical_dist_ (v : Z) (c : RenderConfig) : RenderConfig :=
  {| texture_width_ := texture_width_ c; texture_height_ :=
     texture_height_ c; align_bottom_ := align_bottom_ c; invert_shadow_
     := invert_shadow_ c; bg_color_ := bg_color_ c; fg_color_ := fg_color_
     c; text_size_ := text_size_ c; line_width_ := line_width_ c; text_ :=
     text_ c; font_ := font_ c; horizontal_dist_ := horizontal_dist_ c;
     vertical_dist_ := v; horizontal_alignment_ := horizontal_alignment_
     c; vertical_alignment_ := vertical_alignment_ c;
     require_update_texture_ := require_update_texture_ c |}.

Definition set_horizontal_alignment_ (v : HorizontalAlignment.t) (c : RenderConfig) : RenderConfig :=
  {| texture_width_ := texture_width_ c; texture_height_ :=
     texture_height_ c; align_bottom_ := align_bottom_ c; invert_shadow_
     := invert_shadow_ c; bg_color_ := bg_color_ c; fg_color_ := fg_color_
     c; text_size_ := text_size_ c; line_width_ := line_width_ c; text_ :=
     text_ c; font_ := font_ c; horizontal_dist_ := horizontal_dist_ c;
     vertical_dist_ := vertical_dist_ c; horizontal_alignment_ := v;
     vertical_alignment_ := vertical_alignment_ c; require_update_texture_
     := require_update_texture_ c |}.

Definition set_vertical_alignment_ (v : VerticalAlignment.t) (c : RenderConfig) : RenderConfig :=
  {| texture_width_ := texture_width_ c; texture_height_ :=
     texture_height_ c; align_bottom_ := align_bottom_ c; invert_shadow_
     := invert_shadow_ c; bg_color_ := bg_color_ c; fg_color_ := fg_color_
     c; text_size_ := text_size_ c; line_width_ := line_width_ c; text_ :=
     text_ c; font_ := font_ c; horizontal_dist_ := horizontal_dist_ c;
     vertical_dist_ := vertical_dist_ c; horizontal_alignment_ :=
     horizontal_alignment_ c; vertical_alignment_ := v;
     require_update_texture_ := require_update_texture_ c |}.

Definition set_require_update_texture_ (v : bool) (c : RenderConfig) : RenderConfig :=
  {| texture_width_ := texture_width_ c; texture_height_ :=
     texture_height_ c; align_bottom_ := align_bottom_ c; invert_shadow_
     := invert_shadow_ c; bg_color_ := bg_color_ c; fg_color_ := fg_color_
     c; text_size_ := text_size_ c; line_width_ := line_width_ c; text_ :=
     text_ c; font_ := font_ c; horizontal_dist_ := horizontal_dist_ c;
     vertical_dist_ := vertical_dist_ c; horizontal_alignment_ :=
     horizontal_alignment_ c; vertical_alignment_ := vertical_alignment_
     c; require_update_texture_ := v |}.

(** ** The property tree

    What each property object returns from [getBool], [getInt], [getColor],
    [getFloat] and, for the font, [getOptionInt]. *)
Record Properties := {
  overtake_position_properties_property_ : bool;
  overtake_fg_color_properties_property_ : bool;
  overtake_bg_color_properties_property_ : bool;
  align_bottom_property_ : bool;
  invert_shadow_property_ : bool;
  top_property_ : Z;
  left_property_ : Z;
  width_property_ : Z;
  height_property_ : Z;
  text_size_property_ : Z;
  line_width_property_ : Z;
  fg_color_property_ : QColor.t;
  fg_alpha_property_ : spec_float;
  bg_color_property_ : QColor.t;
  bg_alpha_property_ : spec_float;
  font_property_ : Z
}.

(** The value an edit leaves in a property object. *)
Definition put_align_bottom_property_ (v : bool) (p : Properties) : Properties :=
  {| overtake_position_properties_property_ :=
     overtake_position_properties_property_ p;
     overtake_fg_color_properties_property_ :=
     overtake_fg_color_properties_property_ p;
     overtake_bg_color_properties_property_ :=
     overtake_bg_color_properties_property_ p; align_bottom_property_ :=
     v; invert_shadow_property_ := invert_shadow_property_ p;
     top_property_ := top_property_ p; left_property_ := left_property_ p;
     width_property_ := width_property_ p; height_property_ :=
     height_property_ p; text_size_property_ := text_size_property_ p;
     line_width_property_ := line_width_property_ p; fg_color_property_ :=
     fg_color_property_ p; fg_alpha_property_ := fg_alpha_property_ p;
     bg_color_property_ := bg_color_property_ p; bg_alpha_property_ :=
     bg_alpha_property_ p; font_property_ := font_property_ p |}.

Definition put_invert_shadow_property_ (v : bool) (p : Properties) : Properties :=
  {| overtake_position_properties_property_ :=
     overtake_position_properties_property_ p;
     overtake_fg_color_properties_property_ :=
     overtake_fg_color_properties_property_ p;
     overtake_bg_color_properties_property_ :=
     overtake_bg_color_properties_property_ p; align_bottom_property_ :=
     align_bottom_property_ p; invert_shadow_property_ := v; top_property_
     := top_property_ p; left_property_ := left_property_ p;
     width_property_ := width_property_ p; height_property_ :=
     height_property_ p; text_size_property_ := text_size_property_ p;
     line_width_property_ := line_width_property_ p; fg_color_property_ :=
     fg_color_property_ p; fg_alpha_property_ := fg_alpha_property_ p;
     bg_color_property_ := bg_color_property_ p; bg_alpha_property_ :=
     bg_alpha_property_ p; font_property_ := font_property_ p |}.

Definition put_top_property_ (v : Z) (p : Properties) : Properties :=
  {| overtake_position_properties_property_ :=
     overtake_position_properties_property_ p;
     overtake_fg_color_properties_property_ :=
     overtake_fg_color_properties_property_ p;
     overtake_bg_color_properties_property_ :=
     overtake_bg_color_properties_property_ p; align_bottom_property_ :=
     align_bottom_property_ p; invert_shadow_property_ :=
     invert_shadow_property_ p; top_property_ := v; left_property_ :=
     left_property_ p; width_property_ := width_property_ p;
     height_property_ := height_property_ p; text_size_property_ :=
     text_size_property_ p; line_width_property_ := line_width_property_
     p; fg_color_property_ := fg_color_property_ p; fg_alpha_property_ :=
     fg_alpha_property_ p; bg_color_property_ := bg_color_property_ p;
     bg_alpha_property_ := bg_alpha_property_ p; font_property_ :=
     font_property_ p |}.

Definition put_left_property_ (v : Z) (p : Properties) : Properties :=
  {| overtake_position_properties_property_ :=
     overtake_position_properties_property_ p;
     overtake_fg_color_properties_property_ :=
     overtake_fg_color_properties_property_ p;
     overtake_bg_color_properties_property_ :=
     overtake_bg_color_properties_property_ p; align_bottom_property_ :=
     align_bottom_property_ p; invert_shadow_property_ :=
     invert_shadow_property_ p; top_property_ := top_property_ p;
     left_property_ := v; width_property_ := width_property_ p;
     height_property_ := height_property_ p; text_size_property_ :=
     text_size_property_ p; line_width_property_ := line_width_property_
     p; fg_color_property_ := fg_color_property_ p; fg_alpha_property_ :=
     fg_alpha_property_ p; bg_color_property_ := bg_color_property_ p;
     bg_alpha_property_ := bg_alpha_property_ p; font_property_ :=
     font_property_ p |}.

Definition put_width_property_ (v : Z) (p : Properties) : Properties :=
  {| overtake_position_properties_property_ :=
     overtake_position_properties_property_ p;
     overtake_fg_color_properties_property_ :=
     overtake_fg_color_properties_property_ p;
     overtake_bg_color_properties_property_ :=
     overtake_bg_color_properties_property_ p; align_bottom_property_ :=
     align_bottom_property_ p; invert_shadow_property_ :=
     invert_shadow_property_ p; top_property_ := top_property_ p;
     left_property_ := left_property_ p; width_property_ := v;
     height_property_ := height_property_ p; text_size_property_ :=
     text_size_property_ p; line_width_property_ := line_width_property_
     p; fg_color_property_ := fg_color_property_ p; fg_alpha_property_ :=
     fg_alpha_property_ p; bg_color_property_ := bg_color_property_ p;
     bg_alpha_property_ := bg_alpha_property_ p; font_property_ :=
     font_property_ p |}.

Definition put_height_property_ (v : Z) (p : Properties) : Properties :=
  {| overtake_position_properties_property_ :=
     overtake_position_properties_property_ p;
     overtake_fg_color_properties_property_ :=
     overtake_fg_color_properties_property_ p;
     overtake_bg_color_properties_property_ :=
     overtake_bg_color_properties_property_ p; align_bottom_property_ :=
     align_bottom_property_ p; invert_shadow_property_ :=
     invert_shadow_property_ p; top_property_ := top_property_ p;
     left_property_ := left_property_ p; width_property_ :=
     width_property_ p; height_property_ := v; text_size_property_ :=
     text_size_property_ p; line_width_property_ := line_width_property_
     p; fg_color_property_ := fg_color_property_ p; fg_alpha_property_ :=
     fg_alpha_property_ p; bg_color_property_ := bg_color_property_ p;
     bg_alpha_property_ := bg_alpha_property_ p; font_property_ :=
     font_property_ p |}.

Definition put_text_size_property_ (v : Z) (p : Properties) : Properties :=
  {| overtake_position_properties_property_ :=
     overtake_position_properties_property_ p;
     overtake_fg_color_properties_property_ :=
     overtake_fg_color_properties_property_ p;
     overtake_bg_color_properties_property_ :=
     overtake_bg_color_properties_property_ p; align_bottom_property_ :=
     align_bottom_property_ p; invert_shadow_property_ :=
     invert_shadow_property_ p; top_property_ := top_property_ p;
     left_property_ := left_property_ p; width_property_ :=
     width_property_ p; height_property_ := height_property_ p;
     text_size_property_ := v; line_width_property_ :=
     line_width_property_ p; fg_color_property_ := fg_color_property_ p;
     fg_alpha_property_ := fg_alpha_property_ p; bg_color_property_ :=
     bg_color_property_ p; bg_alpha_property_ := bg_alpha_property_ p;
     font_property_ := font_property_ p |}.

Definition put_line_width_property_ (v : Z) (p : Properties) : Properties :=
  {| overtake_position_properties_property_ :=
     overtake_position_properties_property_ p;
     overtake_fg_color_properties_property_ :=
     overtake_fg_color_properties_property_ p;
     overtake_bg_color_properties_property_ :=
     overtake_bg_color_properties_property_ p; align_bottom_property_ :=
     align_bottom_property_ p; invert_shadow_property_ :=
     invert_shadow_property_ p; top_property_ := top_property_ p;
     left_property_ := left_property_ p; width_property_ :=
     width_property_ p; height_property_ := height_property_ p;
     text_size_property_ := text_size_property_ p; line_width_property_ :=
     v; fg_color_property_ := fg_color_property_ p; fg_alpha_property_ :=
     fg_alpha_property_ p; bg_color_property_ := bg_color_property_ p;
     bg_alpha_property_ := bg_alpha_property_ p; font_property_ :=
     font_property_ p |}.

Definition put_fg_color_property_ (v : QColor.t) (p : Properties) : Properties :=
  {| overtake_position_properties_property_ :=
     overtake_position_properties_property_ p;
     overtake_fg_color_properties_property_ :=
     overtake_fg_color_properties_property_ p;
     overtake_bg_color_properties_property_ :=
     overtake_bg_color_properties_property_ p; align_bottom_property_ :=
     align_bottom_property_ p; invert_shadow_property_ :=
     invert_shadow_property_ p; top_property_ := top_property_ p;
     left_property_ := left_property_ p; width_property_ :=
     width_property_ p; height_property_ := height_property_ p;
     text_size_property_ := text_size_property_ p; line_width_property_ :=
     line_width_property_ p; fg_color_property_ := v; fg_alpha_property_
     := fg_alpha_property_ p; bg_color_property_ := bg_color_property_ p;
     bg_alpha_property_ := bg_alpha_property_ p; font_property_ :=
     font_property_ p |}.

Definition put_fg_alpha_property_ (v : spec_float) (p : Properties) : Properties :=
  {| overtake_position_properties_property_ :=
     overtake_position_properties_property_ p;
     overtake_fg_color_properties_property_ :=
     overtake_fg_color_properties_property_ p;
     overtake_bg_color_properties_property_ :=
     overtake_bg_color_properties_property_ p; align_bottom_property_ :=
     align_bottom_property_ p; invert_shadow_property_ :=
     invert_shadow_property_ p; top_property_ := top_property_ p;
     left_property_ := left_property_ p; width_property_ :=
     width_property_ p; height_property_ := height_property_ p;
     text_size_property_ := text_size_property_ p; line_width_property_ :=
     line_width_property_ p; fg_color_property_ := fg_color_property_ p;
     fg_alpha_property_ := v; bg_color_property_ := bg_color_property_ p;
     bg_alpha_property_ := bg_alpha_property_ p; font_property_ :=
     font_property_ p |}.

Definition put_bg_color_property_ (v : QColor.t) (p : Properties) : Properties :=
  {| overtake_position_properties_property_ :=
     overtake_position_properties_property_ p;
     overtake_fg_color_properties_property_ :=
     overtake_fg_color_properties_property_ p;
     overtake_bg_color_properties_property_ :=
     overtake_bg_color_properties_property_ p; align_bottom_property_ :=
     align_bottom_property_ p; invert_shadow_property_ :=
     invert_shadow_property_ p; top_property_ := top_property_ p;
     left_property_ := left_property_ p; width_property_ :=
     width_property_ p; height_property_ := height_property_ p;
     text_size_property_ := text_size_property_ p; line_width_property_ :=
     line_width_property_ p; fg_color_property_ := fg_color_property_ p;
     fg_alpha_property_ := fg_alpha_property_ p; bg_color_property_ := v;
     bg_alpha_property_ := bg_alpha_property_ p; font_property_ :=
     font_property_ p |}.

Definition put_bg_alpha_property_ (v : spec_float) (p : Properties) : Properties :=
  {| overtake_position_properties_property_ :=
     overtake_position_properties_property_ p;
     overtake_fg_color_properties_property_ :=
     overtake_fg_color_properties_property_ p;
     overtake_bg_color_properties_property_ :=
     overtake_bg_color_properties_property_ p; align_bottom_property_ :=
     align_bottom_property_ p; invert_shadow_property_ :=
     invert_shadow_property_ p; top_property_ := top_property_ p;
     left_property_ := left_property_ p; width_property_ :=
     width_property_ p; height_property_ := height_property_ p;
     text_size_property_ := text_size_property_ p; line_width_property_ :=
     line_width_property_ p; fg_color_property_ := fg_color_property_ p;
     fg_alpha_property_ := fg_alpha_property_ p; bg_color_property_ :=
     bg_color_property_ p; bg_alpha_property_ := v; font_property_ :=
     font_property_ p |}.

Definition put_font_property_ (v : Z) (p : Properties) : Properties :=
  {| overtake_position_properties_property_ :=
     overtake_position_properties_property_ p;
     overtake_fg_color_properties_property_ :=
     overtake_fg_color_properties_property_ p;
     overtake_bg_color_properties_property_ :=
     overtake_bg_color_properties_property_ p; align_bottom_property_ :=
     align_bottom_property_ p; invert_shadow_property_ :=
     invert_shadow_property_ p; top_property_ := top_property_ p;
     left_property_ := left_property_ p; width_property_ :=
     width_property_ p; height_property_ := height_property_ p;
     text_size_property_ := text_size_property_ p; line_width_property_ :=
     line_width_property_ p; fg_color_property_ := fg_color_property_ p;
     fg_alpha_property_ := fg_alpha_property_ p; bg_color_property_ :=
     bg_color_property_ p; bg_alpha_property_ := bg_alpha_property_ p;
     font_property_ := v |}.

(** ** The display

    [count] is the function-local static counter of [processMessage];
    [error_log] collects the font indexes reported through the error
    stream, newest first. *)
Record Display := {
  config : RenderConfig;
  overtake_position_properties_ : bool;
  overtake_fg_color_properties_ : bool;
  overtake_bg_color_properties_ : bool;
  font_families_ : list string;
  properties : Properties;
  isEnabled : bool;
  overlay_ : option OverlayObject.t;
  count : Z;
  error_log : list Z
}.

Definition with_config (v : RenderConfig) (d : Display) : Display :=
  {| config := v; overtake_position_properties_ :=
     overtake_position_properties_ d; overtake_fg_color_properties_ :=
     overtake_fg_color_properties_ d; overtake_bg_color_properties_ :=
     overtake_bg_color_properties_ d; font_families_ := font_families_ d;
     properties := properties d; isEnabled := isEnabled d; overlay_ :=
     overlay_ d; count := count d; error_log := error_log d |}.

Definition with_properties (v : Properties) (d : Display) : Display :=
  {| config := config d; overtake_position_properties_ :=
     overtake_position_properties_ d; overtake_fg_color_properties_ :=
     overtake_fg_color_properties_ d; overtake_bg_color_properties_ :=
     overtake_bg_color_properties_ d; font_families_ := font_families_ d;
     properties := v; isEnabled := isEnabled d; overlay_ := overlay_ d;
     count := count d; error_log := error_log d |}.

Definition with_overlay_ (v : option OverlayObject.t) (d : Display) : Display :=
  {| config := config d; overtake_position_properties_ :=
     overtake_position_properties_ d; overtake_fg_color_properties_ :=
     overtake_fg_color_properties_ d; overtake_bg_color_properties_ :=
     overtake_bg_color_properties_ d; font_families_ := font_families_ d;
     properties := properties d; isEnabled := isEnabled d; overlay_ := v;
     count := count d; error_log := error_log d |}.

Definition with_count (v : Z) (d : Display) : Display :=
  {| config := config d; overtake_position_properties_ :=
     overtake_position_properties_ d; overtake_fg_color_properties_ :=
     overtake_fg_color_properties_ d; overtake_bg_color_properties_ :=
     overtake_bg_color_properties_ d; font_families_ := font_families_ d;
     properties := properties d; isEnabled := isEnabled d; overlay_ :=
     overlay_ d; count := v; error_log := error_log d |}.

Definition with_error_log (v : list Z) (d : Display) : Display :=
  {| config := config d; overtake_position_properties_ :=
     overtake_position_properties_ d; overtake_fg_color_properties_ :=
     overtake_fg_color_properties_ d; overtake_bg_color_properties_ :=
     overtake_bg_color_properties_ d; font_families_ := font_families_ d;
     properties := properties d; isEnabled := isEnabled d; overlay_ :=
     overlay_ d; count := count d; error_log := v |}.

Definition modify (f : RenderConfig -> RenderConfig) (d : Display) : Display :=
  with_config (f (config d)) d.

Definition mark_dirty (d : Display) : Display :=
  modify (set_require_update_texture_ true) d.

Definition dirty (d : Display) : bool := require_update_texture_ (config d).

(** ** Text helpers *)

(** An [int] streamed into a [std::stringstream] or a [boost::format]. *)
Definition decimal (z : Z) : string :=
  DecimalString.NilZero.string_of_int (Z.to_int z).

Definition newline : ascii := "010"%char.
Definition quote : string := String "034"%char EmptyString.

(** [std::string::c_str()] handed to a constructor that takes a C string:
    the characters before the first zero byte. *)
Fixpoint c_str (s : string) : string :=
  match s with
  | EmptyString => EmptyString
  | String c rest =>
      if Ascii.eqb c "000"%char then EmptyString else String c (c_str rest)
  end.

(** [boost::algorithm::replace_all_copy(s, "\n", "<br >")] *)
Fixpoint replace_newlines (s : string) : string :=
  match s with
  | EmptyString => EmptyString
  | String c rest =>
      if Ascii.eqb c newline
      then ("<br >" ++ replace_newlines rest)%string
      else String c (replace_newlines rest)
  end.

(** [std::regex_replace] with the pattern [color:.+?;] and an empty
    replacement: every match of the pattern is dropped, the search going on
    behind each match. A match
    is the word [color:], at least one further character, and everything up
    to the first semicolon behind that character; the dot does not match a
    line terminator. *)
Definition is_line_terminator (c : ascii) : bool :=
  Ascii.eqb c "010"%char || Ascii.eqb c "013"%char.

Fixpoint strip_prefix (p s : string) : option string :=
  match p, s with
  | EmptyString, _ => Some s
  | String a p', String b s' => if Ascii.eqb a b then strip_prefix p' s' else None
  | String _ _, EmptyString => None
  end.

(** The length of the match when [n] characters are matched already and
    the lazy repetition goes on through [s]. *)
Fixpoint lazy_until_semicolon (s : string) (n : nat) : option nat :=
  match s with
  | EmptyString => None
  | String c rest =>
      if Ascii.eqb c ";"%char then Some (S n)
      else if is_line_terminator c then None
      else lazy_until_semicolon rest (S n)
  end.

(** The length of the match that starts at the head of [s], if any. *)
Definition color_tag_length (s : string) : option nat :=
  match strip_prefix "color:" s with
  | Some (String c rest) =>
      if is_line_terminator c then None else lazy_until_semicolon rest 7
  | _ => None
  end.

(** [skip] characters of a match are still to be dropped. *)
Fixpoint remove_color_tags_from (s : string) (skip : nat) : string :=
  match s with
  | EmptyString => EmptyString
  | String c rest =>
      match skip with
      | S k => remove_color_tags_from rest k
      | O =>
          match color_tag_length s with
          | Some n => remove_color_tags_from rest (Nat.pred n)
          | None => String c (remove_color_tags_from rest O)
          end
      end
  end.

Definition remove_color_tags (s : string) : string :=
  remove_color_tags_from s 0.

(** [QString::remove(QRegExp("<[^>]*>"))]: every stretch from a [<] to the
    next [>] is dropped. [held] keeps what was read since an open [<], to
    be given back when no [>] follows. *)
Fixpoint remove_markup_from (s : string) (held : option string) : string :=
  match s with
  | EmptyString =>
      match held with
      | Some h => h
      | None => EmptyString
      end
  | String c rest =>
      match held with
      | None =>
          if Ascii.eqb c "<"%char
          then remove_markup_from rest (Some (String c EmptyString))
          else String c (remove_markup_from rest None)
      | Some h =>
          if Ascii.eqb c ">"%char
          then remove_markup_from rest None
          else remove_markup_from rest (Some (h ++ String c EmptyString)%string)
      end
  end.

Definition remove_markup (s : string) : string := remove_markup_from s None.

(** The format string of [update]: argument 1 is the text, arguments 2 to 5
    are the colour channels. *)
Definition color_wrap (t : string) (c : QColor.t) : string :=
  ("<span style=" ++ quote ++ "color: rgba("
     ++ decimal (QColor.red c) ++ ", " ++ decimal (QColor.green c) ++ ", "
     ++ decimal (QColor.blue c) ++ ", " ++ decimal (QColor.alpha c)
     ++ ")" ++ quote ++ ">" ++ t ++ "</span>")%string.

(** ** Message callback *)
Section ProcessMessage.

Variable K : OverlayText.Constants.

(** [QColor(c.r * 255.0, c.g * 255.0, c.b * 255.0, c.a * 255.0)] *)
Definition color_of_msg (c : ColorRGBA.t) : option QColor.t :=
  match Float.scale255 (ColorRGBA.r c), Float.scale255 (ColorRGBA.g c),
        Float.scale255 (ColorRGBA.b c), Float.scale255 (ColorRGBA.a c) with
  | Some r, Some g, Some b, Some a => Some (QColor.make r g b a)
  | _, _, _, _ => None
  end.




(** The first block: the overlay object is created on the first message
    and shown. *)
Definition ensure_overlay (d : Display) : Display :=
  match overlay_ d with
  | Some _ => d
  | None =>
      let n := ("OverlayTextDisplayObject" ++ decimal (count d))%string in
      with_overlay_ (Some (OverlayObject.show (OverlayObject.create n)))
        (with_count (count d + 1) d)
  end.

Definition apply_action (msg : OverlayText.t) (o : OverlayObject.t)
  : OverlayObject.t :=
  if OverlayText.action msg =? OverlayText.DELETE K then OverlayObject.hide o
  else if OverlayText.action msg =? OverlayText.ADD K then OverlayObject.show o
  else o.

(** The two [switch] statements have no [default]: an unknown tag leaves
    the alignment as it was. *)
Definition store_horizontal_alignment (msg : OverlayText.t) (c : RenderConfig)
  : RenderConfig :=
  let v := OverlayText.horizontal_alignment msg in
  if v =? OverlayText.LEFT K
  then set_horizontal_alignment_ HorizontalAlignment.LEFT c
  else if v =? OverlayText.CENTER K
  then set_horizontal_alignment_ HorizontalAlignment.CENTER c
  else if v =? OverlayText.RIGHT K
  then set_horizontal_alignment_ HorizontalAlignment.RIGHT c
  else c.

Definition store_vertical_alignment (msg : OverlayText.t) (c : RenderConfig)
  : RenderConfig :=
  let v := OverlayText.vertical_alignment msg in
  if v =? OverlayText.BOTTOM K
  then set_vertical_alignment_ VerticalAlignment.BOTTOM c
  else if v =? OverlayText.CENTER K
  then set_vertical_alignment_ VerticalAlignment.CENTER c
  else if v =? OverlayText.TOP K
  then set_vertical_alignment_ VerticalAlignment.TOP c
  else c.

Definition store_position (msg : OverlayText.t) (c : RenderConfig)
  : RenderConfig :=
  set_vertical_dist_ (OverlayText.vertical_distance msg)
    (set_horizontal_dist_ (OverlayText.horizontal_distance msg)
      (set_text_size_ (OverlayText.text_size msg)
        (set_texture_height_ (OverlayText.height msg)
          (set_texture_width_ (OverlayText.width msg) c)))).

Definition store_foreground (fg : QColor.t) (msg : OverlayText.t)
    (c : RenderConfig) : RenderConfig :=
  set_line_width_ (OverlayText.line_width msg)
    (set_font_ (OverlayText.font msg) (set_fg_color_ fg c)).

Definition reposition (d : Display) : Display :=
  match overlay_ d with
  | Some o =>
      with_overlay_
        (Some (OverlayObject.setPosition
                 (horizontal_dist_ (config d)) (vertical_dist_ (config d))
                 (horizontal_alignment_ (config d))
                 (vertical_alignment_ (config d)) o)) d
  | None => d
  end.

(** The block that follows the creation: DELETE hides, ADD shows, any
    other tag leaves the visibility alone. *)
Definition act (msg : OverlayText.t) (d : Display) : Display :=
  match overlay_ d with
  | Some o => with_overlay_ (Some (apply_action msg o)) d
  | None => d
  end.

Definition take_position (msg : OverlayText.t) (d : Display) : Display :=
  if negb (overtake_position_properties_ d)
  then modify (store_position msg) d else d.

(** [None] stands for an execution without defined behaviour: a colour
    channel whose scaled value does not convert to [int]. *)
Definition take_background (msg : OverlayText.t) (d : Display)
  : option Display :=
  if negb (overtake_bg_color_properties_ d)
  then option_map (fun c => modify (set_bg_color_ c) d)
         (color_of_msg (OverlayText.bg_color msg))
  else Some d.

Definition take_foreground (msg : OverlayText.t) (d : Display)
  : option Display :=
  if negb (overtake_fg_color_properties_ d)
  then option_map (fun c => modify (store_foreground c msg) d)
         (color_of_msg (OverlayText.fg_color msg))
  else Some d.

Definition processMessage (msg : OverlayText.t) (d : Display)
  : option Display :=
  if negb (isEnabled d) then Some d
  else
    let d := act msg (ensure_overlay d) in
    let d := modify (set_text_ (OverlayText.text msg)) d in
    let d := modify (store_horizontal_alignment msg) d in
    let d := modify (store_vertical_alignment msg) d in
    let d := take_position msg d in
    match take_background msg d with
    | None => None
    | Some d =>
        match take_foreground msg d with
        | None => None
        | Some d => Some (mark_dirty (reposition d))
        end
    end.

(** *** Notions used to state what the callback does *)

(** Whether every colour the callback converts has channels whose scaled
    value fits an [int]: the colours of overtaken groups are not looked
    at. *)
Definition conversions_defined (msg : OverlayText.t) (d : Display) : bool :=
  (overtake_bg_color_properties_ d
   || match color_of_msg (OverlayText.bg_color msg) with
      | Some _ => true | None => false end)
  && (overtake_fg_color_properties_ d
      || match color_of_msg (OverlayText.fg_color msg) with
         | Some _ => true | None => false end).

(** Everything of a display but its rendering configuration and its
    overlay object. *)
Definition surroundings (d : Display) :=
  (overtake_position_properties_ d, overtake_fg_color_properties_ d,
   overtake_bg_color_properties_ d, font_families_ d, properties d,
   isEnabled d, error_log d).

(** The overlay object the message is applied to: the existing one, or a
    new one that was shown. *)
Definition ensured (d : Display) : OverlayObject.t :=
  match overlay_ d with
  | Some o => o
  | None => OverlayObject.show
              (OverlayObject.create
                 ("OverlayTextDisplayObject" ++ decimal (count d)))
  end.

(** The configuration the callback leaves behind when the converted
    colours are [bg] and [fg]. *)
Definition stored (msg : OverlayText.t) (bg fg : QColor.t) (d : Display)
  : RenderConfig :=
  let c := store_vertical_alignment msg
             (store_horizontal_alignment msg
                (set_text_ (OverlayText.text msg) (config d))) in
  let c := if overtake_position_properties_ d then c
           else store_position msg c in
  let c := if overtake_bg_color_properties_ d then c
           else set_bg_color_ bg c in
  let c := if overtake_fg_color_properties_ d then c
           else store_foreground fg msg c in
  set_require_update_texture_ true c.

End ProcessMessage.

(** ** Render tick *)
Section Update.

(** What the drawing code only asks for: the height of
    [QFontMetrics::boundingRect(0, 0, w, h, TextWordWrap | AlignLeft |
    AlignTop, text)] under a font, and the texture size the overlay object
    grants for a requested one. *)
Variable boundingRect_height : option QFont -> Z -> Z -> string -> Z.
Variable granted : Z -> Z -> Z * Z.

Definition uint16 (z : Z) : Z := z mod 2 ^ 16.

(** [QPen(color, std::max(line_width_, 1), Qt::SolidLine)] *)
Definition pen_for (color : QColor.t) (c : RenderConfig) : QPen :=
  {| pen_color := color; pen_width := Z.max (line_width_ c) 1 |}.

(** The font block: skipped when the text size is zero. The family is
    [font_.c_str()] when [font_.length() > 0]. *)
Definition font_for (c : RenderConfig) : option QFont :=
  if text_size_ c =? 0 then None
  else Some {| family := if (0 <? Z.of_nat (String.length (font_ c)))
                         then c_str (font_ c) else "Liberation Sans"%string;
               pointSize := text_size_ c;
               bold := true |}.

Definition shadow_color_for (c : RenderConfig) : QColor.t :=
  QColor.setAlpha (QColor.alpha (fg_color_ c))
    (if invert_shadow_ c then QColor.white else QColor.black).

Definition color_wrapped_text (c : RenderConfig) : string :=
  color_wrap (text_ c) (fg_color_ c).

Definition color_wrapped_shadow (c : RenderConfig) : string :=
  color_wrap (remove_color_tags (text_ c)) (shadow_color_for c).

(** [QStaticText(replace_all_copy(..., "\n", "<br >").c_str())] *)
Definition static_text (c : RenderConfig) (w : Z) : QStaticText :=
  {| static_content := c_str (replace_newlines (color_wrapped_text c));
     textWidth := Some w |}.

Definition static_shadow (c : RenderConfig) (w : Z) : QStaticText :=
  {| static_content := c_str (replace_newlines (color_wrapped_shadow c));
     textWidth := Some w |}.

(** [QStaticText only_wrapped_text(color_wrapped_text.c_str())] *)
Definition only_wrapped_text (c : RenderConfig) : string :=
  c_str (color_wrapped_text c).

(** The measured text of the bottom-aligned branch: [only_wrapped_text]
    with every tag removed. *)
Definition text_rect_height (c : RenderConfig) (w h : Z) : Z :=
  boundingRect_height (font_for c) w h
    (remove_markup (only_wrapped_text c)).

(** Both texts are drawn after the pen was switched to the shadow colour. *)
Definition draw (x y : Z) (t : QStaticText) (c : RenderConfig) : Stroke :=
  {| stroke_x := x; stroke_y := y; stroke_text := t;
     stroke_pen := pen_for (shadow_color_for c) c;
     stroke_font := font_for c |}.

(** What the painter draws on the image of width [w] and height [h]. *)
Definition paint (c : RenderConfig) (w h : Z) : list Stroke :=
  if 0 <? Z.of_nat (String.length (text_ c)) then
    if negb (align_bottom_ c) then
      [ draw 1 1 (static_shadow c w) c; draw 0 0 (static_text c w) c ]
    else
      let H := text_rect_height c w h in
      [ draw 1 (h - H + 1) (static_shadow c w) c;
        draw 0 (h - H) (static_text c w) c ]
  else [].

(** [QPainter] adds its strokes to the image it was opened on. *)
Definition drawn (ss : list Stroke) (img : QImage) : QImage :=
  {| image_width := image_width img; image_height := image_height img;
     background := background img; strokes := strokes img ++ ss |}.

(** The block between acquiring the buffer and [painter.end()]. *)
Definition compose (c : RenderConfig) (o : OverlayObject.t) : QImage :=
  let Hud := OverlayObject.getQImage o (bg_color_ c) in
  let w := uint16 (OverlayObject.textureWidth o) in
  let h := uint16 (OverlayObject.textureHeight o) in
  drawn (paint c w h) Hud.

Definition render (c : RenderConfig) (o : OverlayObject.t) : OverlayObject.t :=
  let o := OverlayObject.updateTextureSize granted
             (texture_width_ c) (texture_height_ c) o in
  let o := OverlayObject.commitBuffer (compose c o) o in
  OverlayObject.setDimensions
    (OverlayObject.textureWidth o) (OverlayObject.textureHeight o) o.

Definition update (d : Display) : Display :=
  if negb (dirty d) then d
  else if negb (isEnabled d) then d
  else match overlay_ d with
       | None => d
       | Some o =>
           modify (set_require_update_texture_ false)
             (with_overlay_ (Some (render (config d) o)) d)
       end.

End Update.

(** ** Property slots *)

Definition dirty_if (flag : bool) (d : Display) : Display :=
  if flag then mark_dirty d else d.

Definition updateAlignBottom (d : Display) : Display :=
  let v := align_bottom_property_ (properties d) in
  let d := if Bool.eqb (align_bottom_ (config d)) v then d else mark_dirty d in
  modify (set_align_bottom_ v) d.

Definition updateInvertShadow (d : Display) : Display :=
  let v := invert_shadow_property_ (properties d) in
  let d := if Bool.eqb (invert_shadow_ (config d)) v then d else mark_dirty d in
  modify (set_invert_shadow_ v) d.

Definition updateTop (d : Display) : Display :=
  dirty_if (overtake_position_properties_ d)
    (modify (set_vertical_dist_ (top_property_ (properties d))) d).

Definition updateLeft (d : Display) : Display :=
  dirty_if (overtake_position_properties_ d)
    (modify (set_horizontal_dist_ (left_property_ (properties d))) d).

Definition updateWidth (d : Display) : Display :=
  dirty_if (overtake_position_properties_ d)
    (modify (set_texture_width_ (width_property_ (properties d))) d).

Definition updateHeight (d : Display) : Display :=
  dirty_if (overtake_position_properties_ d)
    (modify (set_texture_height_ (height_property_ (properties d))) d).

Definition updateTextSize (d : Display) : Display :=
  dirty_if (overtake_position_properties_ d)
    (modify (set_text_size_ (text_size_property_ (properties d))) d).

(** The three colour channels are copied one by one; the alpha channel of
    the stored colour stays. *)
Definition copy_rgb (from to : QColor.t) : QColor.t :=
  QColor.setBlue (QColor.blue from)
    (QColor.setGreen (QColor.green from)
      (QColor.setRed (QColor.red from) to)).

Definition updateBGColor (d : Display) : Display :=
  dirty_if (overtake_bg_color_properties_ d)
    (modify (fun c => set_bg_color_
                        (copy_rgb (bg_color_property_ (properties d)) (bg_color_ c)) c) d).

(** [setAlpha(getFloat() * 255.0)]: undefined when the product does not
    convert to [int]. *)
Definition updateBGAlpha (d : Display) : option Display :=
  match Float.scale255 (bg_alpha_property_ (properties d)) with
  | Some a =>
      Some (dirty_if (overtake_bg_color_properties_ d)
              (modify (fun c => set_bg_color_ (QColor.setAlpha a (bg_color_ c)) c) d))
  | None => None
  end.

Definition updateFGColor (d : Display) : Display :=
  dirty_if (overtake_fg_color_properties_ d)
    (modify (fun c => set_fg_color_
                        (copy_rgb (fg_color_property_ (properties d)) (fg_color_ c)) c) d).

Definition updateFGAlpha (d : Display) : option Display :=
  match Float.scale255 (fg_alpha_property_ (properties d)) with
  | Some a =>
      Some (dirty_if (overtake_fg_color_properties_ d)
              (modify (fun c => set_fg_color_ (QColor.setAlpha a (fg_color_ c)) c) d))
  | None => None
  end.

(** The index is only compared against the size of the list: an index at
    or above it is reported and the slot returns; a negative one passes the
    comparison and indexes the list out of bounds, which has no defined
    behaviour ([None]). *)
Definition updateFont (d : Display) : option Display :=
  let font_index := font_property_ (properties d) in
  if font_index <? Z.of_nat (List.length (font_families_ d)) then
    if font_index <? 0 then None
    else
      match nth_error (font_families_ d) (Z.to_nat font_index) with
      | Some f =>
          Some (dirty_if (overtake_fg_color_properties_ d)
                  (modify (set_font_ f) d))
      | None => None
      end
  else Some (with_error_log (font_index :: error_log d) d).

(** The options the constructor gives the font property: every installed
    family under its position in the list, counted from 0. *)
Fixpoint addOptions (families : list string) (i : Z) : list (string * Z) :=
  match families with
  | [] => []
  | f :: rest => (f, i) :: addOptions rest (i + 1)
  end.

Definition font_options (families : list string) : list (string * Z) :=
  addOptions families 0.

Definition updateLineWidth (d : Display) : Display :=
  dirty_if (overtake_fg_color_properties_ d)
    (modify (set_line_width_ (line_width_property_ (properties d))) d).

(** ** Property edits

    An edit leaves its value in the property object, and the slot that the
    constructor connected to the property runs. *)
Inductive PropertyEdit :=
| EditAlignBottom (v : bool)
| EditInvertShadow (v : bool)
| EditTop (v : Z)
| EditLeft (v : Z)
| EditWidth (v : Z)
| EditHeight (v : Z)
| EditTextSize (v : Z)
| EditLineWidth (v : Z)
| EditFGColor (v : QColor.t)
| EditFGAlpha (v : spec_float)
| EditBGColor (v : QColor.t)
| EditBGAlpha (v : spec_float)
| EditFont (index : Z).

Definition store_edit (e : PropertyEdit) (p : Properties) : Properties :=
  match e with
  | EditAlignBottom v => put_align_bottom_property_ v p
  | EditInvertShadow v => put_invert_shadow_property_ v p
  | EditTop v => put_top_property_ v p
  | EditLeft v => put_left_property_ v p
  | EditWidth v => put_width_property_ v p
  | EditHeight v => put_height_property_ v p
  | EditTextSize v => put_text_size_property_ v p
  | EditLineWidth v => put_line_width_property_ v p
  | EditFGColor v => put_fg_color_property_ v p
  | EditFGAlpha v => put_fg_alpha_property_ v p
  | EditBGColor v => put_bg_color_property_ v p
  | EditBGAlpha v => put_bg_alpha_property_ v p
  | EditFont i => put_font_property_ i p
  end.

Definition slot (e : PropertyEdit) : Display -> option Display :=
  match e with
  | EditAlignBottom _ => fun d => Some (updateAlignBottom d)
  | EditInvertShadow _ => fun d => Some (updateInvertShadow d)
  | EditTop _ => fun d => Some (updateTop d)
  | EditLeft _ => fun d => Some (updateLeft d)
  | EditWidth _ => fun d => Some (updateWidth d)
  | EditHeight _ => fun d => Some (updateHeight d)
  | EditTextSize _ => fun d => Some (updateTextSize d)
  | EditLineWidth _ => fun d => Some (updateLineWidth d)
  | EditFGColor _ => fun d => Some (updateFGColor d)
  | EditFGAlpha _ => updateFGAlpha
  | EditBGColor _ => fun d => Some (updateBGColor d)
  | EditBGAlpha _ => updateBGAlpha
  | EditFont _ => updateFont
  end.

Definition apply_edit (e : PropertyEdit) (d : Display) : option Display :=
  slot e (with_properties (store_edit e (properties d)) d).

(** Whether the slot behind an edit executes its assignment to the flag:
    the slots only ever raise the flag, so this shows when it starts
    lowered. *)
Definition raises_dirty (e : PropertyEdit) (d : Display) : bool :=
  match apply_edit e (modify (set_require_update_texture_ false) d) with
  | Some d' => dirty d'
  | None => false
  end.

(** The overtake flag an edited property answers to; the two global
    switches have none. *)
Definition group_overtaken (e : PropertyEdit) (d : Display) : option bool :=
  match e with
  | EditAlignBottom _ | EditInvertShadow _ => None
  | EditTop _ | EditLeft _ | EditWidth _ | EditHeight _ | EditTextSize _ =>
      Some (overtake_position_properties_ d)
  | EditLineWidth _ | EditFGColor _ | EditFGAlpha _ | EditFont _ =>
      Some (overtake_fg_color_properties_ d)
  | EditBGColor _ | EditBGAlpha _ =>
      Some (overtake_bg_color_properties_ d)
  end.

(** Whether the slot behind an edit gets as far as its test of the
    overtake flag: the font slot returns before it when the index is at
    or above the size of the list. *)
Definition reaches_flag (e : PropertyEdit) (d : Display) : bool :=
  match e with
  | EditFont index => index <? Z.of_nat (List.length (font_families_ d))
  | _ => true
  end.

(** ** Sample values *)
Module Sample.

Definition tags : OverlayText.Constants :=
  {| OverlayText.ADD := 0; OverlayText.DELETE := 1;
     OverlayText.LEFT := 0; OverlayText.RIGHT := 1; OverlayText.CENTER := 2;
     OverlayText.TOP := 3; OverlayText.BOTTOM := 4 |}.

Definition opaque_white : ColorRGBA.t :=
  {| ColorRGBA.r := Float.one; ColorRGBA.g := Float.one;
     ColorRGBA.b := Float.one; ColorRGBA.a := Float.one |}.

Definition half_black : ColorRGBA.t :=
  {| ColorRGBA.r := Float.zero; ColorRGBA.g := Float.zero;
     ColorRGBA.b := Float.zero; ColorRGBA.a := Float.half |}.

Definition hello_world : string :=
  ("hello" ++ String newline "world")%string.

(** The ADD message of the scenario in section 8 of the spec. *)
Definition hello : OverlayText.t :=
  {| OverlayText.action := 0;
     OverlayText.width := 200; OverlayText.height := 100;
     OverlayText.horizontal_distance := 10;
     OverlayText.vertical_distance := 20;
     OverlayText.horizontal_alignment := 0;
     OverlayText.vertical_alignment := 3;
     OverlayText.bg_color := half_black;
     OverlayText.line_width := 3;
     OverlayText.text_size := 14;
     OverlayText.font := "DejaVu Sans"%string;
     OverlayText.fg_color := opaque_white;
     OverlayText.text := hello_world |}.

Definition goodbye : OverlayText.t := OverlayText.with_action 1 hello.
Definition unknown_action : OverlayText.t := OverlayText.with_action 7 hello.

(** The property values the constructor installs. *)
Definition defaults : Properties :=
  {| overtake_position_properties_property_ := false;
     overtake_fg_color_properties_property_ := false;
     overtake_bg_color_properties_property_ := false;
     align_bottom_property_ := false;
     invert_shadow_property_ := false;
     top_property_ := 0; left_property_ := 0;
     width_property_ := 128; height_property_ := 128;
     text_size_property_ := 12; line_width_property_ := 2;
     fg_color_property_ := QColor.make 25 255 240 255;
     fg_alpha_property_ := Float.point8;
     bg_color_property_ := QColor.make 0 0 0 255;
     bg_alpha_property_ := Float.point8;
     font_property_ := 0 |}.

Definition blank : RenderConfig :=
  {| texture_width_ := 0; texture_height_ := 0;
     align_bottom_ := false; invert_shadow_ := false;
     bg_color_ := QColor.make 0 0 0 0;
     fg_color_ := QColor.make 255 255 255 255;
     text_size_ := 14; line_width_ := 2;
     text_ := EmptyString; font_ := EmptyString;
     horizontal_dist_ := 0; vertical_dist_ := 0;
     horizontal_alignment_ := HorizontalAlignment.LEFT;
     vertical_alignment_ := VerticalAlignment.TOP;
     require_update_texture_ := false |}.

Definition fonts : list string :=
  ["DejaVu Sans"; "DejaVu Sans Mono"; "Liberation Sans"]%string.

(** An enabled display that has not seen a message yet, with the three
    overtake flags as given. *)
Definition fresh (position fg bg : bool) : Display :=
  {| config := blank;
     overtake_position_properties_ := position;
     overtake_fg_color_properties_ := fg;
     overtake_bg_color_properties_ := bg;
     font_families_ := fonts;
     properties := defaults;
     isEnabled := true;
     overlay_ := None;
     count := 0;
     error_log := [] |}.

Definition disabled : Display :=
  {| config := blank;
     overtake_position_properties_ := false;
     overtake_fg_color_properties_ := false;
     overtake_bg_color_properties_ := false;
     font_families_ := fonts;
     properties := defaults;
     isEnabled := false;
     overlay_ := None;
     count := 0;
     error_log := [] |}.

(** Stand-ins for the font metrics and the texture: every text ten pixels
    high, textures at least one pixel wide and high. *)
Definition ten (_ : option QFont) (_ _ : Z) (_ : string) : Z := 10.
Definition at_least_one (w h : Z) : Z * Z := (Z.max w 1, Z.max h 1).

Definition tick : Display -> Display := update ten at_least_one.

Definition overlay_of (d : Display) : OverlayObject.t :=
  match overlay_ d with
  | Some o => o
  | None => OverlayObject.create EmptyString
  end.

(** A display that took [hello] with the position group overtaken and
    was drawn since: the overlay object exists and the update flag is
    down. *)
Definition settled : Display :=
  Eval vm_compute in
    match processMessage tags hello (fresh true false false) with
    | Some d => tick d
    | None => fresh true false false
    end.

(** The same with no group overtaken, and its configuration with the
    text anchored at the bottom. *)
Definition shown : Display :=
  Eval vm_compute in
    match processMessage tags hello (fresh false false false) with
    | Some d => tick d
    | None => fresh false false false
    end.

Definition bottom_aligned : RenderConfig :=
  Eval vm_compute in set_align_bottom_ true (config shown).

(** A DELETE message as a publisher sends it: the action tag and nothing
    else. *)
Definition transparent : ColorRGBA.t :=
  {| ColorRGBA.r := Float.zero; ColorRGBA.g := Float.zero;
     ColorRGBA.b := Float.zero; ColorRGBA.a := Float.zero |}.

Definition remove : OverlayText.t :=
  {| OverlayText.action := 1;
     OverlayText.width := 0; OverlayText.height := 0;
     OverlayText.horizontal_distance := 0;
     OverlayText.vertical_distance := 0;
     OverlayText.horizontal_alignment := 0;
     OverlayText.vertical_alignment := 0;
     OverlayText.bg_color := transparent;
     OverlayText.line_width := 0;
     OverlayText.text_size := 0;
     OverlayText.font := EmptyString;
     OverlayText.fg_color := transparent;
     OverlayText.text := EmptyString |}.

(** A display that took a message without text and waits to be drawn. *)
Definition silent : Display :=
  Eval vm_compute in
    match processMessage tags remove (fresh false false false) with
    | Some d => d
    | None => fresh false false false
    end.

(** [settled] after the top property was set to 5, and after the tick
    that follows. *)
Definition edited : Display :=
  Eval vm_compute in
    match apply_edit (EditTop 5) settled with
    | Some d => d
    | None => settled
    end.

Definition redrawn : Display := Eval vm_compute in tick edited.

End Sample.

(** ** The callbacks of the host and the overtake switches

    The host calls [onInitialize], [onEnable], [onDisable] and [reset], and
    the three overtake properties call their slots. These reach beyond the
    display: they subscribe and unsubscribe, call into the base class and
    show or hide entries of the property tree. Those calls are kept in a
    list next to the display, newest first. *)
Module Entry.

(** The property objects an overtake switch shows or hides. *)
Inductive t :=
| top | left | width | height | text_size
| fg_color | fg_alpha | line_width | font
| bg_color | bg_alpha.

Definition eq_dec (a b : t) : {a = b} + {a <> b}.
Proof. decide equality. Defined.

End Entry.

Module Host.

Inductive call :=
| BaseOnInitialize
| PrepareOverlays
| UpdateTopic
| BaseReset
| Subscribe
| Unsubscribe
| ShowProperty (e : Entry.t)
| HideProperty (e : Entry.t).

(** Whether the newest call on an entry showed it; [None] when the entry
    was never shown nor hidden. *)
Fixpoint shown (calls : list call) (e : Entry.t) : option bool :=
  match calls with
  | [] => None
  | ShowProperty x :: rest =>
      if Entry.eq_dec x e then Some true else shown rest e
  | HideProperty x :: rest =>
      if Entry.eq_dec x e then Some false else shown rest e
  | _ :: rest => shown rest e
  end.

End Host.

Record Plugin := {
  display : Display;
  host_calls : list Host.call
}.

Definition on_display (f : Display -> Display) (p : Plugin) : Plugin :=
  {| display := f (display p); host_calls := host_calls p |}.

Definition called (c : Host.call) (p : Plugin) : Plugin :=
  {| display := display p; host_calls := c :: host_calls p |}.

(** [if (overlay_) { overlay_->f(); }] *)
Definition on_overlay (f : OverlayObject.t -> OverlayObject.t) (d : Display)
  : Display :=
  match overlay_ d with
  | Some o => with_overlay_ (Some (f o)) d
  | None => d
  end.

Definition onEnable (p : Plugin) : Plugin :=
  called Host.Subscribe (on_display (on_overlay OverlayObject.show) p).

Definition onDisable (p : Plugin) : Plugin :=
  called Host.Unsubscribe (on_display (on_overlay OverlayObject.hide) p).

Definition reset (p : Plugin) : Plugin :=
  on_display (on_overlay OverlayObject.hide) (called Host.BaseReset p).

(** Assignments to the three overtake flags and to what [isEnabled]
    returns. *)
Definition with_overtake_position_properties_ (v : bool) (d : Display)
  : Display :=
  {| config := config d; overtake_position_properties_ := v;
     overtake_fg_color_properties_ := overtake_fg_color_properties_ d;
     overtake_bg_color_properties_ := overtake_bg_color_properties_ d;
     font_families_ := font_families_ d; properties := properties d;
     isEnabled := isEnabled d; overlay_ := overlay_ d; count := count d;
     error_log := error_log d |}.

Definition with_overtake_fg_color_properties_ (v : bool) (d : Display)
  : Display :=
  {| config := config d;
     overtake_position_properties_ := overtake_position_properties_ d;
     overtake_fg_color_properties_ := v;
     overtake_bg_color_properties_ := overtake_bg_color_properties_ d;
     font_families_ := font_families_ d; properties := properties d;
     isEnabled := isEnabled d; overlay_ := overlay_ d; count := count d;
     error_log := error_log d |}.

Definition with_overtake_bg_color_properties_ (v : bool) (d : Display)
  : Display :=
  {| config := config d;
     overtake_position_properties_ := overtake_position_properties_ d;
     overtake_fg_color_properties_ := overtake_fg_color_properties_ d;
     overtake_bg_color_properties_ := v;
     font_families_ := font_families_ d; properties := properties d;
     isEnabled := isEnabled d; overlay_ := overlay_ d; count := count d;
     error_log := error_log d |}.

Definition with_isEnabled (v : bool) (d : Display) : Display :=
  {| config := config d;
     overtake_position_properties_ := overtake_position_properties_ d;
     overtake_fg_color_properties_ := overtake_fg_color_properties_ d;
     overtake_bg_color_properties_ := overtake_bg_color_properties_ d;
     font_families_ := font_families_ d; properties := properties d;
     isEnabled := v; overlay_ := overlay_ d; count := count d;
     error_log := error_log d |}.

(** The values the three overtake properties hold. *)
Definition put_overtake_position_properties_property_ (v : bool)
    (p : Properties) : Properties :=
  {| overtake_position_properties_property_ := v;
     overtake_fg_color_properties_property_ :=
       overtake_fg_color_properties_property_ p;
     overtake_bg_color_properties_property_ :=
       overtake_bg_color_properties_property_ p;
     align_bottom_property_ := align_bottom_property_ p;
     invert_shadow_property_ := invert_shadow_property_ p;
     top_property_ := top_property_ p; left_property_ := left_property_ p;
     width_property_ := width_property_ p;
     height_property_ := height_property_ p;
     text_size_property_ := text_size_property_ p;
     line_width_property_ := line_width_property_ p;
     fg_color_property_ := fg_color_property_ p;
     fg_alpha_property_ := fg_alpha_property_ p;
     bg_color_property_ := bg_color_property_ p;
     bg_alpha_property_ := bg_alpha_property_ p;
     font_property_ := font_property_ p |}.

Definition put_overtake_fg_color_properties_property_ (v : bool)
    (p : Properties) : Properties :=
  {| overtake_position_properties_property_ :=
       overtake_position_properties_property_ p;
     overtake_fg_color_properties_property_ := v;
     overtake_bg_color_properties_property_ :=
       overtake_bg_color_properties_property_ p;
     align_bottom_property_ := align_bottom_property_ p;
     invert_shadow_property_ := invert_shadow_property_ p;
     top_property_ := top_property_ p; left_property_ := left_property_ p;
     width_property_ := width_property_ p;
     height_property_ := height_property_ p;
     text_size_property_ := text_size_property_ p;
     line_width_property_ := line_width_property_ p;
     fg_color_property_ := fg_color_property_ p;
     fg_alpha_property_ := fg_alpha_property_ p;
     bg_color_property_ := bg_color_property_ p;
     bg_alpha_property_ := bg_alpha_property_ p;
     font_property_ := font_property_ p |}.

Definition put_overtake_bg_color_properties_property_ (v : bool)
    (p : Properties) : Properties :=
  {| overtake_position_properties_property_ :=
       overtake_position_properties_property_ p;
     overtake_fg_color_properties_property_ :=
       overtake_fg_color_properties_property_ p;
     overtake_bg_color_properties_property_ := v;
     align_bottom_property_ := align_bottom_property_ p;
     invert_shadow_property_ := invert_shadow_property_ p;
     top_property_ := top_property_ p; left_property_ := left_property_ p;
     width_property_ := width_property_ p;
     height_property_ := height_property_ p;
     text_size_property_ := text_size_property_ p;
     line_width_property_ := line_width_property_ p;
     fg_color_property_ := fg_color_property_ p;
     fg_alpha_property_ := fg_alpha_property_ p;
     bg_color_property_ := bg_color_property_ p;
     bg_alpha_property_ := bg_alpha_property_ p;
     font_property_ := font_property_ p |}.

(** [show()] or [hide()] on a row of property objects, in the order of the
    source. *)
Fixpoint set_visible (want : bool) (entries : list Entry.t)
    (calls : list Host.call) : list Host.call :=
  match entries with
  | [] => calls
  | e :: rest =>
      set_visible want rest
        ((if want then Host.ShowProperty e else Host.HideProperty e) :: calls)
  end.

Definition position_entries : list Entry.t :=
  [Entry.top; Entry.left; Entry.width; Entry.height; Entry.text_size].

Definition fg_entries : list Entry.t :=
  [Entry.fg_color; Entry.fg_alpha; Entry.line_width; Entry.font].

Definition bg_entries : list Entry.t := [Entry.bg_color; Entry.bg_alpha].

(** The block of a switch that goes from off to on: the slots of the group
    run while the flag is still off, then the update flag is raised. *)
Definition pull_position (d : Display) : Display :=
  mark_dirty
    (updateTextSize (updateHeight (updateWidth (updateLeft (updateTop d))))).

Definition pull_foreground (d : Display) : option Display :=
  match updateFGAlpha (updateFGColor d) with
  | None => None
  | Some d =>
      match updateFont d with
      | None => None
      | Some d => Some (mark_dirty (updateLineWidth d))
      end
  end.

Definition pull_background (d : Display) : option Display :=
  match updateBGAlpha (updateBGColor d) with
  | None => None
  | Some d => Some (mark_dirty d)
  end.

Definition updateOvertakePositionProperties (p : Plugin) : Plugin :=
  let d := display p in
  let want := overtake_position_properties_property_ (properties d) in
  let d :=
    if negb (overtake_position_properties_ d) && want
    then pull_position d else d in
  {| display := with_overtake_position_properties_ want d;
     host_calls := set_visible want position_entries (host_calls p) |}.

Definition updateOvertakeFGColorProperties (p : Plugin) : option Plugin :=
  let d := display p in
  let want := overtake_fg_color_properties_property_ (properties d) in
  match (if negb (overtake_fg_color_properties_ d) && want
         then pull_foreground d else Some d) with
  | None => None
  | Some d =>
      Some {| display := with_overtake_fg_color_properties_ want d;
              host_calls := set_visible want fg_entries (host_calls p) |}
  end.

Definition updateOvertakeBGColorProperties (p : Plugin) : option Plugin :=
  let d := display p in
  let want := overtake_bg_color_properties_property_ (properties d) in
  match (if negb (overtake_bg_color_properties_ d) && want
         then pull_background d else Some d) with
  | None => None
  | Some d =>
      Some {| display := with_overtake_bg_color_properties_ want d;
              host_calls := set_visible want bg_entries (host_calls p) |}
  end.

(** The slots [onInitialize] runs after the three switches, in its order. *)
Definition initial_slots (d : Display) : option Display :=
  let d := updateAlignBottom d in
  let d := updateInvertShadow d in
  let d := updateTop d in
  let d := updateLeft d in
  let d := updateWidth d in
  let d := updateHeight d in
  let d := updateTextSize d in
  let d := updateFGColor d in
  match updateFGAlpha d with
  | None => None
  | Some d =>
      let d := updateBGColor d in
      match updateBGAlpha d with
      | None => None
      | Some d =>
          match updateFont d with
          | None => None
          | Some d => Some (mark_dirty (updateLineWidth d))
          end
      end
  end.

(** [onInitialize]: the three calls into the host are recorded, not
    interpreted; what the base class does inside [updateTopic] is its own
    business. *)
Definition onInitialize (p : Plugin) : option Plugin :=
  let p := called Host.BaseOnInitialize p in
  let p := called Host.PrepareOverlays p in
  let p := onEnable p in
  let p := called Host.UpdateTopic p in
  let p := updateOvertakePositionProperties p in
  match updateOvertakeFGColorProperties p with
  | None => None
  | Some p =>
      match updateOvertakeBGColorProperties p with
      | None => None
      | Some p =>
          match initial_slots (display p) with
          | None => None
          | Some d => Some {| display := d; host_calls := host_calls p |}
          end
      end
  end.

(** [isInRegion] is not implemented and answers no; [movePosition] stores
    the two distances and nothing else. *)
Definition isInRegion (x y : Z) (d : Display) : bool := false.

Definition movePosition (x y : Z) (d : Display) : Display :=
  modify (set_horizontal_dist_ x) (modify (set_vertical_dist_ y) d).

(** ** Everything that can happen to the plugin

    A message, a render tick, an edit of a property, a flip of an overtake
    property, the callbacks of the host, a move, and the host changing what
    [isEnabled] returns. An edit and a flip stand for the property taking
    the value and its slot running. The host changes what [isEnabled]
    returns around [onEnable] and [onDisable]; the class does not see when,
    so the change is an event of its own. *)
Inductive Event :=
| Message (msg : OverlayText.t)
| Tick
| Edit (e : PropertyEdit)
| OvertakePosition (v : bool)
| OvertakeFG (v : bool)
| OvertakeBG (v : bool)
| Enable
| Disable
| Reset
| Move (x y : Z)
| HostEnabled (v : bool).

Definition lift (r : option Display) (p : Plugin) : option Plugin :=
  match r with
  | Some d => Some {| display := d; host_calls := host_calls p |}
  | None => None
  end.

Section Handle.

Variable K : OverlayText.Constants.
Variable boundingRect_height : option QFont -> Z -> Z -> string -> Z.
Variable granted : Z -> Z -> Z * Z.

Definition handle (ev : Event) (p : Plugin) : option Plugin :=
  match ev with
  | Message msg => lift (processMessage K msg (display p)) p
  | Tick => Some (on_display (update boundingRect_height granted) p)
  | Edit e => lift (apply_edit e (display p)) p
  | OvertakePosition v =>
      Some (updateOvertakePositionProperties
              (on_display
                 (fun d => with_properties
                             (put_overtake_position_properties_property_ v
                                (properties d)) d) p))
  | OvertakeFG v =>
      updateOvertakeFGColorProperties
        (on_display
           (fun d => with_properties
                       (put_overtake_fg_color_properties_property_ v
                          (properties d)) d) p)
  | OvertakeBG v =>
      updateOvertakeBGColorProperties
        (on_display
           (fun d => with_properties
                       (put_overtake_bg_color_properties_property_ v
                          (properties d)) d) p)
  | Enable => Some (onEnable p)
  | Disable => Some (onDisable p)
  | Reset => Some (reset p)
  | Move x y => Some (on_display (movePosition x y) p)
  | HostEnabled v => Some (on_display (with_isEnabled v) p)
  end.

Fixpoint run (events : list Event) (p : Plugin) : option Plugin :=
  match events with
  | [] => Some p
  | ev :: rest =>
      match handle ev p with
      | Some p' => run rest p'
      | None => None
      end
  end.

End Handle.

(** ** Notions used to state the further results *)

(** Whether a character occurs in a string. *)
Fixpoint occurs (c : ascii) (s : string) : bool :=
  match s with
  | EmptyString => false
  | String x rest => Ascii.eqb x c || occurs c rest
  end.

(** Whether the message carries alignment tags the callback knows. *)
Definition known_horizontal (K : OverlayText.Constants) (tag : Z) : bool :=
  (tag =? OverlayText.LEFT K) || (tag =? OverlayText.CENTER K)
  || (tag =? OverlayText.RIGHT K).

Definition known_vertical (K : OverlayText.Constants) (tag : Z) : bool :=
  (tag =? OverlayText.BOTTOM K) || (tag =? OverlayText.CENTER K)
  || (tag =? OverlayText.TOP K).

(** The five position values are the ones the properties hold. *)
Definition position_from_properties (d : Display) : Prop :=
  vertical_dist_ (config d) = top_property_ (properties d)
  /\ horizontal_dist_ (config d) = left_property_ (properties d)
  /\ texture_width_ (config d) = width_property_ (properties d)
  /\ texture_height_ (config d) = height_property_ (properties d)
  /\ text_size_ (config d) = text_size_property_ (properties d).

(** The overtake property that decides whether an entry is shown. *)
Definition entry_wanted (p : Properties) (e : Entry.t) : bool :=
  match e with
  | Entry.top | Entry.left | Entry.width | Entry.height | Entry.text_size =>
      overtake_position_properties_property_ p
  | Entry.fg_color | Entry.fg_alpha | Entry.line_width | Entry.font =>
      overtake_fg_color_properties_property_ p
  | Entry.bg_color | Entry.bg_alpha =>
      overtake_bg_color_properties_property_ p
  end.

(** The colour a property colour and a property alpha give from scratch. *)
Definition property_color (rgb : QColor.t) (alpha : spec_float) : QColor.t :=
  QColor.rgba (QColor.clamp (QColor.red rgb)) (QColor.clamp (QColor.green rgb))
    (QColor.clamp (QColor.blue rgb)) (Float.floor255 alpha) true.

(** Whether a list of events holds a move. *)
Definition is_move (ev : Event) : bool :=
  match ev with
  | Move _ _ => true
  | _ => false
  end.

(** One display never holds a second overlay object: an object that exists
    stays, under its name, and the counter stands; an object that appears
    is named after the counter, which it moves on by one. *)
Definition same_object (d d' : Display) : Prop :=
  match overlay_ d, overlay_ d' with
  | Some o, Some o' =>
      OverlayObject.name o' = OverlayObject.name o /\ count d' = count d
  | None, Some o' =>
      OverlayObject.name o'
      = ("OverlayTextDisplayObject" ++ decimal (count d))%string
      /\ count d' = count d + 1
  | None, None => count d' = count d
  | Some _, None => False
  end.

(** While the position is overtaken the stored position is the one of the
    properties. *)
Definition position_follows (d : Display) : Prop :=
  overtake_position_properties_ d = true -> position_from_properties d.

(** What a callback other than the render tick may do to the overlay
    object and to the update flag. *)
Definition kept (d d' : Display) : Prop :=
  same_object d d' /\ (dirty d = true -> dirty d' = true).

(** What the switches and the slots of [onInitialize] never touch: the
    property values, the font list, the text, the two alignments, and the
    stored font when the index names no family. *)
Definition untouched (d d' : Display) : Prop :=
  properties d' = properties d
  /\ font_families_ d' = font_families_ d
  /\ text_ (config d') = text_ (config d)
  /\ horizontal_alignment_ (config d') = horizontal_alignment_ (config d)
  /\ vertical_alignment_ (config d') = vertical_alignment_ (config d)
  /\ (nth_error (font_families_ d) (Z.to_nat (font_property_ (properties d)))
      = None -> font_ (config d') = font_ (config d)).

(** The events by what they may do to the overlay object. *)
Definition is_message (ev : Event) : bool :=
  match ev with
  | Message _ => true
  | _ => false
  end.

Definition is_tick (ev : Event) : bool :=
  match ev with
  | Tick => true
  | _ => false
  end.

Definition sets_visibility (ev : Event) : bool :=
  match ev with
  | Message _ | Enable | Disable | Reset => true
  | _ => false
  end.

Definition reaches_overlay (ev : Event) : bool :=
  is_tick ev || sets_visibility ev.

(** ** Further sample values *)
Module Scenario.

Import Sample.

(** A plugin around a display, with no call made on the host yet. *)
Definition plugin (d : Display) : Plugin :=
  {| display := d; host_calls := [] |}.

(** Property values with the position and the foreground group switched
    on, the top property at 30 and the second font selected. *)
Definition switched : Properties :=
  Eval vm_compute in
    put_font_property_ 1
      (put_top_property_ 30
         (put_overtake_position_properties_property_ true
            (put_overtake_fg_color_properties_property_ true defaults))).

(** The plugin as [onInitialize] finds it, and as it leaves it. *)
Definition created : Plugin :=
  Eval vm_compute in plugin (with_properties switched (fresh false false false)).

Definition initialized : Plugin :=
  Eval vm_compute in
    match onInitialize created with
    | Some p => p
    | None => created
    end.

(** A drawn display whose properties ask for the position group, the
    foreground group or the background group, before the switch ran. *)
Definition position_asked : Plugin :=
  Eval vm_compute in
    plugin (with_properties
              (put_overtake_position_properties_property_ true defaults) shown).

Definition foreground_asked : Plugin :=
  Eval vm_compute in
    plugin (with_properties
              (put_font_property_ 5
                 (put_overtake_fg_color_properties_property_ true defaults))
              shown).

Definition background_asked : Plugin :=
  Eval vm_compute in
    plugin (with_properties
              (put_overtake_bg_color_properties_property_ true defaults) shown).

(** The display after [hello], and after [goodbye] on top of it. *)
Definition after_hello : Display :=
  Eval vm_compute in
    match processMessage tags hello (fresh false false false) with
    | Some d => d
    | None => fresh false false false
    end.

Definition after_goodbye : Display :=
  Eval vm_compute in
    match processMessage tags goodbye after_hello with
    | Some d => d
    | None => after_hello
    end.

(** The main text as it is painted for [shown] anchored at the bottom. *)
Definition main_stroke : Stroke :=
  Eval vm_compute in
    draw 0 90 (static_text bottom_aligned 200) bottom_aligned.

(** A day of the plugin: messages, ticks, edits, switches and the
    callbacks of the host, without a move. *)
Definition day : list Event :=
  [Message hello; Tick; Edit (EditTop 5); OvertakeFG false;
   Message goodbye; Tick; Reset; HostEnabled false; Message hello;
   Disable; Enable; HostEnabled true; OvertakePosition true;
   Edit (EditWidth 64); Message unknown_action; Tick].

Definition evening : Plugin :=
  Eval vm_compute in
    match run tags ten at_least_one day initialized with
    | Some p => p
    | None => initialized
    end.

(** [silent] after its tick. *)
Definition silent_drawn : Plugin :=
  Eval vm_compute in plugin (tick silent).

(** [settled] moved to (7, 9), then given [hello]. *)
Definition moved : Display :=
  Eval vm_compute in
    match processMessage tags hello (movePosition 7 9 settled) with
    | Some d => d
    | None => settled
    end.

(** [shown] after a reset, a tick and a message that neither adds nor
    deletes. *)
Definition after_reset : Display :=
  Eval vm_compute in
    match processMessage tags unknown_action
            (tick (display (reset (plugin shown)))) with
    | Some d => d
    | None => shown
    end.



(** A text with a zero byte in it, and [bottom_aligned] holding it. *)
Definition ab_cd : string := ("ab" ++ String "000"%char "cd")%string.



End Scenario.

(** * The colour conversion on constants *)

Example scale255_one : Float.scale255 Float.one = Some 255.
Proof. reflexivity. Qed.

Example scale255_half : Float.scale255 Float.half = Some 127.
Proof. reflexivity. Qed.

Example scale255_point8 : Float.scale255 Float.point8 = Some 204.
Proof. reflexivity. Qed.

Example scale255_nan : Float.scale255 S754_nan = None.
Proof. reflexivity. Qed.

(** * Exactness of the colour conversion *)
Section FloatFacts.
Import Float.

Lemma iter_pos_iter {A} (f : A -> A) (p : positive) (x : A) :
  iter_pos f p x = Pos.iter f x p.
Proof.
  revert x. induction p as [p IH | p IH |]; intros x; cbn.
  - rewrite !IH. rewrite <- !Pos.iter_swap. reflexivity.
  - rewrite !IH. reflexivity.
  - reflexivity.
Qed.

Lemma shr_exact_iter (p q : positive) :
  iter_pos shr_1 p (exact_record (Zpos (Pos.iter xO q p))) = exact_record (Zpos q).
Proof.
  rewrite iter_pos_iter.
  induction p as [|p IH] using Pos.peano_ind.
  - reflexivity.
  - rewrite (Pos.iter_succ_r p _ shr_1), (Pos.iter_succ p _ xO). exact IH.
Qed.

Lemma digits_iter_xO (q p : positive) :
  digits2_pos (Pos.iter xO q p) = (digits2_pos q + p)%positive.
Proof.
  induction p as [|p IH] using Pos.peano_ind.
  - cbn. lia.
  - rewrite Pos.iter_succ. cbn [digits2_pos]. rewrite IH. lia.
Qed.


(** Rounding a mantissa that carries [n] trailing zero bits above a
    53-bit significand is exact. *)
Lemma binary_round_aux_exact (s : bool) (q : positive) (n : N) (e : Z) :
  Zpos (digits2_pos q) = prec64 ->
  emin prec64 emax64 <= e + Z.of_N n ->
  e + Z.of_N n <= emax64 - prec64 ->
  binary_round_aux prec64 emax64 s
    (Zpos (match n with N0 => q | Npos p => Pos.iter xO q p end)) e loc_Exact
  = S754_finite s q (e + Z.of_N n).
Proof.
  intros Hd Hlo Hhi.
  assert (F : fexp prec64 emax64 (prec64 + (e + Z.of_N n)) = e + Z.of_N n).
  { unfold fexp. lia. }
  unfold binary_round_aux, shr_fexp.
  destruct n as [|p].
  - cbn [Zdigits2]. rewrite Hd. rewrite Z.add_0_r in *. rewrite F.
    rewrite Z.sub_diag. cbn [shr shr_record_of_loc shr_m loc_of_shr_record round_nearest_even Zdigits2].
    rewrite Hd, F, Z.sub_diag. cbn [shr shr_record_of_loc shr_m].
    apply Z.leb_le in Hhi. rewrite Hhi. reflexivity.
  - cbn [Zdigits2]. rewrite digits_iter_xO.
    replace (Zpos (digits2_pos q + p) + e) with (prec64 + (e + Z.of_N (Npos p))) by lia.
    rewrite F.
    replace (e + Z.of_N (Npos p) - e) with (Zpos p) by lia.
    cbn [shr shr_record_of_loc]. fold (exact_record (Zpos (Pos.iter xO q p))).
    rewrite shr_exact_iter.
    cbn [exact_record shr_m loc_of_shr_record round_nearest_even Zdigits2].
    rewrite Hd.
    replace (e + Zpos p) with (e + Z.of_N (Npos p)) by lia.
    rewrite F, Z.sub_diag. cbn [shr shr_record_of_loc shr_m].
    apply Z.leb_le in Hhi. rewrite Hhi. reflexivity.
Qed.


Lemma iter_xO_Z (x p : positive) :
  Zpos (Pos.iter xO x p) = Zpos x * 2 ^ Zpos p.
Proof.
  induction p as [|p IH] using Pos.peano_ind.
  - cbn. lia.
  - rewrite Pos.iter_succ, Pos2Z.inj_xO, IH, Pos2Z.inj_succ, Z.pow_succ_r by lia.
    ring.
Qed.

Lemma digits_log2 (p : positive) :
  Zpos (digits2_pos p) = Z.succ (Z.log2 (Zpos p)).
Proof.
  assert (S : forall q, digits2_pos q = Pos.size q).
  { induction q as [q IH | q IH |]; cbn; rewrite ?IH; reflexivity. }
  destruct p as [p | p |]; cbn [digits2_pos Z.log2]; rewrite ?S; lia.
Qed.

(** A valid single-precision mantissa has at most 24 bits and an
    exponent between -149 and 104. *)
Lemma valid32_bounds (s : bool) (m : positive) (e : Z) :
  valid32 (S754_finite s m e) = true ->
  Zpos (digits2_pos m) <= 24 /\ -149 <= e <= 104.
Proof.
  unfold valid32, valid_binary, bounded, canonical_mantissa, fexp, emin,
    prec32, emax32.
  intros H. apply andb_prop in H. destruct H as [H1 H2].
  apply Z.eqb_eq in H1. apply Z.leb_le in H2. lia.
Qed.

Lemma to_double_finite (s : bool) (m : positive) (e : Z) :
  valid32 (S754_finite s m e) = true ->
  to_double (S754_finite s m e)
  = S754_finite s (widen m) (e - (53 - Zpos (digits2_pos m))).
Proof.
  intros V. destruct (valid32_bounds s m e V) as [Hd He].
  unfold to_double, binary_round.
  set (d := Zpos (digits2_pos m)) in *.
  assert (F : fexp prec64 emax64 (d + e) = d + e - 53).
  { unfold fexp, emin, prec64, emax64. lia. }
  rewrite F. unfold shl_align.
  destruct (d + e - 53 - e) as [|k|k] eqn:E; try lia.
  assert (Hk : Zpos k = 53 - d) by lia.
  assert (W : Pos.iter xO m k = widen m).
  { unfold widen. fold d. rewrite <- Hk. reflexivity. }
  rewrite W.
  pose proof (binary_round_aux_exact s (widen m) N0 (d + e - 53)) as R.
  cbn [Z.of_N] in R. rewrite Z.add_0_r in R.
  replace (e - (53 - d)) with (d + e - 53) by lia.
  apply R.
  - unfold widen. rewrite digits_iter_xO. fold d. unfold prec64.
    rewrite Pos2Z.inj_add, Z2Pos.id by lia. fold d. lia.
  - unfold emin, prec64, emax64. lia.
  - unfold prec64, emax64. lia.
Qed.


(** Multiplying a mantissa by 255 adds at most eight bits. *)
Lemma digits_times_255 (m : positive) :
  Zpos (digits2_pos m) <= Zpos (digits2_pos (m * 255)%positive)
  /\ Zpos (digits2_pos (m * 255)%positive) <= Zpos (digits2_pos m) + 8.
Proof.
  rewrite !digits_log2, Pos2Z.inj_mul. split.
  - assert (M : Z.log2 (Zpos m) <= Z.log2 (Zpos m * 255)).
    { apply Z.log2_le_mono. lia. }
    lia.
  - assert (L : Z.log2 (Zpos m * 2 ^ 8) = 8 + Z.log2 (Zpos m)).
    { apply Z.log2_mul_pow2; lia. }
    assert (M : Z.log2 (Zpos m * 255) <= Z.log2 (Zpos m * 2 ^ 8)).
    { apply Z.log2_le_mono. change (2 ^ 8) with 256. lia. }
    lia.
Qed.

Lemma mul64_255 (s : bool) (m : positive) (e : Z) :
  valid32 (S754_finite s m e) = true ->
  mul64 (to_double (S754_finite s m e)) d255
  = S754_finite s (scaled m) (e - (53 - Zpos (digits2_pos (m * 255)%positive))).
Proof.
  intros V. rewrite (to_double_finite s m e V).
  destruct (valid32_bounds s m e V) as [Hd He].
  destruct (digits_times_255 m) as [D1 D2].
  set (d := Zpos (digits2_pos m)) in *.
  set (d' := Zpos (digits2_pos (m * 255)%positive)) in *.
  assert (Hd0 : 0 < d) by (subst d; lia).
  unfold mul64, d255, SFmul. rewrite xorb_false_r.
  set (p := Z.to_pos (45 - d + d')).
  assert (Hp : Zpos p = 45 - d + d') by (subst p; rewrite Z2Pos.id; lia).
  assert (P : (widen m * (255 * 2 ^ 45))%positive = Pos.iter xO (scaled m) p).
  { apply Pos2Z.inj. rewrite Pos2Z.inj_mul. unfold widen, scaled.
    rewrite !iter_xO_Z, Hp. fold d d'.
    rewrite !Z2Pos.id by lia. rewrite Pos2Z.inj_mul.
    change (Zpos (255 * 2 ^ 45)) with (255 * 2 ^ 45).
    replace (45 - d + d') with ((53 - d) + 45 - (53 - d')) by lia.
    set (a := 53 - d). set (b := 53 - d').
    assert (0 <= a) by (subst a; lia). assert (0 <= b) by (subst b; lia).
    assert (0 <= a + 45 - b) by (subst a b; lia).
    assert (E : 2 ^ b * 2 ^ (a + 45 - b) = 2 ^ a * 2 ^ 45).
    { rewrite <- !Z.pow_add_r by lia. f_equal. lia. }
    rewrite Pos2Z.inj_mul.
    change (Zpos (2 ^ 45)) with (2 ^ 45). change (Zpos 255) with 255.
    replace (Zpos m * 255 * 2 ^ b * 2 ^ (a + 45 - b))
      with (Zpos m * 255 * (2 ^ b * 2 ^ (a + 45 - b))) by ring.
    rewrite E. ring. }
  rewrite P.
  pose proof (binary_round_aux_exact s (scaled m) (Npos p)
                (e - (53 - d) + -45)) as R.
  cbn [Z.of_N] in R. rewrite Hp in R.
  replace (e - (53 - d')) with (e - (53 - d) + -45 + (45 - d + d')) by lia.
  apply R.
  - unfold scaled. rewrite digits_iter_xO. fold d'. unfold prec64.
    rewrite Pos2Z.inj_add, Z2Pos.id by lia. fold d'. lia.
  - unfold emin, prec64, emax64. lia.
  - unfold prec64, emax64. lia.
Qed.


Lemma Qfloor_shift (a e : Z) :
  Qfloor (inject_Z a * Qpower 2 e) = Z.shiftl a e.
Proof.
  destruct (Z.le_gt_cases 0 e) as [He | He].
  - rewrite Z.shiftl_mul_pow2 by exact He.
    rewrite <- (Qfloor_Z (a * 2 ^ e)). apply Qfloor_comp.
    rewrite inject_Z_mult, (Zpower_Qpower 2 e He). reflexivity.
  - rewrite Z.shiftl_div_pow2 by lia.
    rewrite Zdiv_Qdiv. apply Qfloor_comp.
    rewrite (Zpower_Qpower 2 (- e)) by lia.
    destruct e as [|p|p]; try lia.
    unfold Qdiv. reflexivity.
Qed.

Lemma scaled_shift (m : positive) (e : Z) :
  Zpos (digits2_pos m) <= 24 ->
  Z.shiftl (Zpos (scaled m)) (e - (53 - Zpos (digits2_pos (m * 255)%positive)))
  = Z.shiftl (Zpos m * 255) e.
Proof.
  intros Hd. destruct (digits_times_255 m) as [_ D2].
  unfold scaled. rewrite iter_xO_Z, Z2Pos.id by lia.
  rewrite <- Z.shiftl_mul_pow2 by lia.
  rewrite Z.shiftl_shiftl by lia. rewrite Pos2Z.inj_mul. f_equal. lia.
Qed.

(** The conversion of a colour channel between 0 and 1: the product with
    255 is exact in double precision, so its truncation is the floor of
    the real product, a number between 0 and 255. *)
Lemma scale255_unit (c : spec_float) :
  valid32 c = true -> is_finite c = true ->
  (0 <= SF2Q c)%Q -> (SF2Q c <= 1)%Q ->
  scale255 c = Some (floor255 c) /\ 0 <= floor255 c <= 255.
Proof.
  intros V F L U. unfold floor255.
  assert (R : 0 <= Qfloor (SF2Q c * 255) <= 255).
  { split.
    - change 0 with (Qfloor 0). apply Qfloor_resp_le.
      rewrite <- (Qmult_0_l 255). apply Qmult_le_compat_r; [exact L | discriminate].
    - change 255 with (Qfloor 255). apply Qfloor_resp_le.
      rewrite <- (Qmult_1_l 255) at 2. apply Qmult_le_compat_r; [exact U | discriminate]. }
  split; [|exact R].
  destruct c as [s | s | | s m e]; try discriminate.
  - reflexivity.
  - destruct s.
    + exfalso. cbn [SF2Q cond_Zopp] in L.
      assert (P : (0 < Qpower 2 e)%Q) by (apply Qpower_0_lt; reflexivity).
      assert (N : (inject_Z (Z.opp (Zpos m)) * Qpower 2 e < 0)%Q).
      { rewrite <- (Qmult_0_l (Qpower 2 e)).
        apply Qmult_lt_compat_r; [exact P | reflexivity]. }
      apply (Qlt_not_le _ _ N). exact L.
    + assert (E : Qfloor (SF2Q (S754_finite false m e) * 255)
                  = Z.shiftl (Zpos m * 255) e).
      { rewrite <- Qfloor_shift. apply Qfloor_comp.
        cbn [SF2Q cond_Zopp]. rewrite inject_Z_mult. ring. }
      rewrite E in *.
      unfold scale255. rewrite (mul64_255 false m e V).
      destruct (valid32_bounds false m e V) as [Hd _].
      unfold to_int. cbn [cond_Zopp]. rewrite (scaled_shift m e Hd).
      assert (I : (INT_MIN <=? Z.shiftl (Zpos m * 255) e)
                  && (Z.shiftl (Zpos m * 255) e <=? INT_MAX) = true).
      { apply andb_true_intro. unfold INT_MIN, INT_MAX.
        split; apply Z.leb_le; lia. }
      rewrite I. reflexivity.
Qed.

End FloatFacts.

(** * Properties of the message callback *)
Section ProcessMessageFacts.

Variable K : OverlayText.Constants.

Lemma modify_config (f : RenderConfig -> RenderConfig) (d : Display) :
  config (modify f d) = f (config d).
Proof. reflexivity. Qed.

Lemma modify_overlay (f : RenderConfig -> RenderConfig) (d : Display) :
  overlay_ (modify f d) = overlay_ d.
Proof. reflexivity. Qed.

Lemma modify_surroundings (f : RenderConfig -> RenderConfig) (d : Display) :
  surroundings (modify f d) = surroundings d.
Proof. reflexivity. Qed.

Lemma ensure_overlay_config (d : Display) :
  config (ensure_overlay d) = config d.
Proof. unfold ensure_overlay. destruct (overlay_ d); reflexivity. Qed.

Lemma ensure_overlay_surroundings (d : Display) :
  surroundings (ensure_overlay d) = surroundings d.
Proof. unfold ensure_overlay. destruct (overlay_ d); reflexivity. Qed.

Lemma ensure_overlay_overlay (d : Display) :
  overlay_ (ensure_overlay d) = Some (ensured d).
Proof.
  unfold ensure_overlay, ensured.
  destruct (overlay_ d) eqn:E; [exact E | reflexivity].
Qed.

Lemma act_config (msg : OverlayText.t) (d : Display) :
  config (act K msg d) = config d.
Proof. unfold act. destruct (overlay_ d); reflexivity. Qed.

Lemma act_surroundings (msg : OverlayText.t) (d : Display) :
  surroundings (act K msg d) = surroundings d.
Proof. unfold act. destruct (overlay_ d); reflexivity. Qed.

Lemma act_overlay (msg : OverlayText.t) (d : Display) :
  overlay_ (act K msg d) = option_map (apply_action K msg) (overlay_ d).
Proof. unfold act. destruct (overlay_ d) eqn:E; [reflexivity | exact E]. Qed.

Lemma reposition_config (d : Display) : config (reposition d) = config d.
Proof. unfold reposition. destruct (overlay_ d); reflexivity. Qed.

Lemma reposition_surroundings (d : Display) :
  surroundings (reposition d) = surroundings d.
Proof. unfold reposition. destruct (overlay_ d); reflexivity. Qed.

Lemma reposition_overlay (d : Display) :
  overlay_ (reposition d)
  = option_map
      (OverlayObject.setPosition
         (horizontal_dist_ (config d)) (vertical_dist_ (config d))
         (horizontal_alignment_ (config d)) (vertical_alignment_ (config d)))
      (overlay_ d).
Proof. unfold reposition. destruct (overlay_ d) eqn:E; [reflexivity | exact E]. Qed.

Lemma take_position_config (msg : OverlayText.t) (d : Display) :
  config (take_position msg d)
  = if overtake_position_properties_ d then config d
    else store_position msg (config d).
Proof. unfold take_position. destruct (overtake_position_properties_ d); reflexivity. Qed.

Lemma take_position_rest (msg : OverlayText.t) (d : Display) :
  surroundings (take_position msg d) = surroundings d
  /\ overlay_ (take_position msg d) = overlay_ d.
Proof. unfold take_position. destruct (overtake_position_properties_ d); split; reflexivity. Qed.

Lemma take_background_inv (msg : OverlayText.t) (d d' : Display) :
  take_background msg d = Some d' ->
  surroundings d' = surroundings d
  /\ overlay_ d' = overlay_ d
  /\ ((overtake_bg_color_properties_ d = true /\ config d' = config d)
      \/ (overtake_bg_color_properties_ d = false
          /\ exists bg, color_of_msg (OverlayText.bg_color msg) = Some bg
                        /\ config d' = set_bg_color_ bg (config d))).
Proof.
  unfold take_background.
  destruct (overtake_bg_color_properties_ d) eqn:E; cbn [negb].
  - intros [= <-]. auto.
  - destruct (color_of_msg (OverlayText.bg_color msg)) as [bg|]; cbn [option_map];
      [|discriminate].
    intros [= <-]. split; [reflexivity|]. split; [reflexivity|].
    right. split; [reflexivity|]. exists bg. split; reflexivity.
Qed.

Lemma take_foreground_inv (msg : OverlayText.t) (d d' : Display) :
  take_foreground msg d = Some d' ->
  surroundings d' = surroundings d
  /\ overlay_ d' = overlay_ d
  /\ ((overtake_fg_color_properties_ d = true /\ config d' = config d)
      \/ (overtake_fg_color_properties_ d = false
          /\ exists fg, color_of_msg (OverlayText.fg_color msg) = Some fg
                        /\ config d' = store_foreground fg msg (config d))).
Proof.
  unfold take_foreground.
  destruct (overtake_fg_color_properties_ d) eqn:E; cbn [negb].
  - intros [= <-]. auto.
  - destruct (color_of_msg (OverlayText.fg_color msg)) as [fg|]; cbn [option_map];
      [|discriminate].
    intros [= <-]. split; [reflexivity|]. split; [reflexivity|].
    right. split; [reflexivity|]. exists fg. split; reflexivity.
Qed.


Lemma processMessage_inv (msg : OverlayText.t) (d d' : Display) :
  isEnabled d = true ->
  processMessage K msg d = Some d' ->
  surroundings d' = surroundings d
  /\ (exists bg fg,
        (overtake_bg_color_properties_ d = false ->
         color_of_msg (OverlayText.bg_color msg) = Some bg)
        /\ (overtake_fg_color_properties_ d = false ->
            color_of_msg (OverlayText.fg_color msg) = Some fg)
        /\ config d' = stored K msg bg fg d)
  /\ overlay_ d'
     = Some (OverlayObject.setPosition
               (horizontal_dist_ (config d')) (vertical_dist_ (config d'))
               (horizontal_alignment_ (config d'))
               (vertical_alignment_ (config d'))
               (apply_action K msg (ensured d))).
Proof.
  intros Hen H. unfold processMessage in H. rewrite Hen in H. cbn [negb] in H.
  set (d0 := act K msg (ensure_overlay d)) in H.
  set (d1 := modify (set_text_ (OverlayText.text msg)) d0) in H.
  set (d2 := modify (store_horizontal_alignment K msg) d1) in H.
  set (d3 := modify (store_vertical_alignment K msg) d2) in H.
  set (d4 := take_position msg d3) in H.
  assert (S3 : surroundings d3 = surroundings d).
  { subst d3 d2 d1 d0. rewrite !modify_surroundings, act_surroundings.
    apply ensure_overlay_surroundings. }
  assert (O3 : overlay_ d3 = Some (apply_action K msg (ensured d))).
  { subst d3 d2 d1 d0. rewrite !modify_overlay, act_overlay, ensure_overlay_overlay.
    reflexivity. }
  assert (C3 : config d3
               = store_vertical_alignment K msg
                   (store_horizontal_alignment K msg
                      (set_text_ (OverlayText.text msg) (config d)))).
  { subst d3 d2 d1 d0. rewrite !modify_config, act_config, ensure_overlay_config.
    reflexivity. }
  clearbody d3. clear d0 d1 d2.
  destruct (take_position_rest msg d3) as [S4 O4]. fold d4 in S4, O4.
  pose proof (take_position_config msg d3) as C4. fold d4 in C4.
  clearbody d4.
  destruct (take_background msg d4) as [d5|] eqn:E5; [|discriminate].
  destruct (take_foreground msg d5) as [d6|] eqn:E6; [|discriminate].
  injection H as <-.
  apply take_background_inv in E5. destruct E5 as (S5 & O5 & C5).
  apply take_foreground_inv in E6. destruct E6 as (S6 & O6 & C6).
  assert (F : overtake_position_properties_ d3 = overtake_position_properties_ d
              /\ overtake_bg_color_properties_ d4 = overtake_bg_color_properties_ d
              /\ overtake_fg_color_properties_ d5 = overtake_fg_color_properties_ d).
  { unfold surroundings in *.
    repeat split; congruence. }
  destruct F as (F3 & F4 & F5).
  split; [|split].
  - unfold mark_dirty. rewrite modify_surroundings, reposition_surroundings.
    congruence.
  - unfold mark_dirty. rewrite modify_config, reposition_config.
    unfold stored. rewrite F3 in C4. rewrite F4 in C5. rewrite F5 in C6.
    rewrite <- C3, <- C4.
    destruct C5 as [[B C5] | [B (bg & Hbg & C5)]];
      destruct C6 as [[G C6] | [G (fg & Hfg & C6)]];
      rewrite B, G, C6, C5.
    + exists QColor.invalid, QColor.invalid.
      repeat split; intros; congruence.
    + exists QColor.invalid, fg. repeat split; intros; congruence.
    + exists bg, QColor.invalid. repeat split; intros; congruence.
    + exists bg, fg. repeat split; intros; congruence.
  - unfold mark_dirty. rewrite modify_overlay, modify_config, reposition_overlay,
      reposition_config.
    rewrite O6, O5, O4, O3. reflexivity.
Qed.

Lemma processMessage_defined (msg : OverlayText.t) (d : Display) :
  isEnabled d = true ->
  conversions_defined msg d = true ->
  exists d', processMessage K msg d = Some d'.
Proof.
  intros Hen Hdef. unfold processMessage. rewrite Hen. cbn [negb].
  set (d3 := modify _ (modify _ (modify _ (act K msg (ensure_overlay d))))).
  assert (S3 : surroundings d3 = surroundings d).
  { subst d3. rewrite !modify_surroundings, act_surroundings.
    apply ensure_overlay_surroundings. }
  clearbody d3.
  destruct (take_position_rest msg d3) as [S4 _].
  set (d4 := take_position msg d3) in *. clearbody d4.
  apply andb_prop in Hdef. destruct Hdef as [Hb Hf].
  assert (F : overtake_bg_color_properties_ d4 = overtake_bg_color_properties_ d
              /\ overtake_fg_color_properties_ d4 = overtake_fg_color_properties_ d).
  { unfold surroundings in *. split; congruence. }
  destruct F as [F4 G4].
  destruct (take_background msg d4) as [d5|] eqn:E5.
  - pose proof (take_background_inv _ _ _ E5) as (S5 & _ & _).
    assert (G5 : overtake_fg_color_properties_ d5 = overtake_fg_color_properties_ d).
    { unfold surroundings in *. congruence. }
    unfold take_foreground. rewrite G5.
    destruct (overtake_fg_color_properties_ d); cbn [negb].
    + eexists; reflexivity.
    + cbn [orb] in Hf.
      destruct (color_of_msg (OverlayText.fg_color msg)); [|discriminate].
      eexists; reflexivity.
  - exfalso. unfold take_background in E5. rewrite F4 in E5.
    destruct (overtake_bg_color_properties_ d); cbn [negb] in E5; [discriminate|].
    cbn [orb] in Hb.
    destruct (color_of_msg (OverlayText.bg_color msg)); discriminate.
Qed.


Ltac project_stored :=
  unfold stored, store_position, store_foreground,
    store_horizontal_alignment, store_vertical_alignment;
  repeat match goal with
         | |- context [if ?b then _ else _] => destruct b
         end;
  reflexivity.

Lemma stored_text msg bg fg d :
  text_ (stored K msg bg fg d) = OverlayText.text msg.
Proof. project_stored. Qed.


Lemma stored_switches msg bg fg d :
  align_bottom_ (stored K msg bg fg d) = align_bottom_ (config d)
  /\ invert_shadow_ (stored K msg bg fg d) = invert_shadow_ (config d).
Proof. split; project_stored. Qed.

Lemma stored_alignment msg bg fg d :
  horizontal_alignment_ (stored K msg bg fg d)
  = horizontal_alignment_ (store_horizontal_alignment K msg (config d))
  /\ vertical_alignment_ (stored K msg bg fg d)
     = vertical_alignment_ (store_vertical_alignment K msg (config d)).
Proof. split; project_stored. Qed.

Lemma stored_position_kept msg bg fg d :
  overtake_position_properties_ d = true ->
  texture_width_ (stored K msg bg fg d) = texture_width_ (config d)
  /\ texture_height_ (stored K msg bg fg d) = texture_height_ (config d)
  /\ text_size_ (stored K msg bg fg d) = text_size_ (config d)
  /\ horizontal_dist_ (stored K msg bg fg d) = horizontal_dist_ (config d)
  /\ vertical_dist_ (stored K msg bg fg d) = vertical_dist_ (config d).
Proof. intros E. unfold stored. rewrite E. repeat split; project_stored. Qed.

Lemma stored_position_taken msg bg fg d :
  overtake_position_properties_ d = false ->
  texture_width_ (stored K msg bg fg d) = OverlayText.width msg
  /\ texture_height_ (stored K msg bg fg d) = OverlayText.height msg
  /\ text_size_ (stored K msg bg fg d) = OverlayText.text_size msg
  /\ horizontal_dist_ (stored K msg bg fg d) = OverlayText.horizontal_distance msg
  /\ vertical_dist_ (stored K msg bg fg d) = OverlayText.vertical_distance msg.
Proof. intros E. unfold stored. rewrite E. repeat split; project_stored. Qed.

Lemma stored_foreground_kept msg bg fg d :
  overtake_fg_color_properties_ d = true ->
  fg_color_ (stored K msg bg fg d) = fg_color_ (config d)
  /\ font_ (stored K msg bg fg d) = font_ (config d)
  /\ line_width_ (stored K msg bg fg d) = line_width_ (config d).
Proof. intros E. unfold stored. rewrite E. repeat split; project_stored. Qed.

Lemma stored_foreground_taken msg bg fg d :
  overtake_fg_color_properties_ d = false ->
  fg_color_ (stored K msg bg fg d) = fg
  /\ font_ (stored K msg bg fg d) = OverlayText.font msg
  /\ line_width_ (stored K msg bg fg d) = OverlayText.line_width msg.
Proof. intros E. unfold stored. rewrite E. repeat split; project_stored. Qed.

Lemma stored_background_kept msg bg fg d :
  overtake_bg_color_properties_ d = true ->
  bg_color_ (stored K msg bg fg d) = bg_color_ (config d).
Proof. intros E. unfold stored. rewrite E. project_stored. Qed.

Lemma stored_background_taken msg bg fg d :
  overtake_bg_color_properties_ d = false ->
  bg_color_ (stored K msg bg fg d) = bg.
Proof. intros E. unfold stored. rewrite E. project_stored. Qed.

(** C4. A message delivered while the display is disabled is ignored:
    the callback returns the display as it found it, rendering
    configuration, update flag and overlay object included. *)
Theorem processMessage_disabled (msg : OverlayText.t) (d : Display) :
  isEnabled d = false ->
  processMessage K msg d = Some d.
Proof.
  intros Hen. unfold processMessage. rewrite Hen. reflexivity.
Qed.

(** C3. While the display is enabled, a message leaves the fields of every
    group whose overtake flag is on exactly as they were: the position
    group (texture width and height, text size, horizontal and vertical
    distance), the foreground group (foreground colour, font, line width)
    and the background group (background colour). *)
Theorem processMessage_overtaken_groups (msg : OverlayText.t) (d : Display) :
  isEnabled d = true ->
  conversions_defined msg d = true ->
  exists d',
    processMessage K msg d = Some d'
    /\ (overtake_position_properties_ d = true ->
        texture_width_ (config d') = texture_width_ (config d)
        /\ texture_height_ (config d') = texture_height_ (config d)
        /\ text_size_ (config d') = text_size_ (config d)
        /\ horizontal_dist_ (config d') = horizontal_dist_ (config d)
        /\ vertical_dist_ (config d') = vertical_dist_ (config d))
    /\ (overtake_fg_color_properties_ d = true ->
        fg_color_ (config d') = fg_color_ (config d)
        /\ font_ (config d') = font_ (config d)
        /\ line_width_ (config d') = line_width_ (config d))
    /\ (overtake_bg_color_properties_ d = true ->
        bg_color_ (config d') = bg_color_ (config d)).
Proof.
  intros Hen Hdef.
  destruct (processMessage_defined msg d Hen Hdef) as [d' Hd'].
  exists d'. split; [exact Hd'|].
  destruct (processMessage_inv msg d d' Hen Hd') as (_ & (bg & fg & _ & _ & C) & _).
  rewrite C. split; [|split].
  - apply stored_position_kept.
  - apply stored_foreground_kept.
  - apply stored_background_kept.
Qed.


Lemma stored_ext msg bg fg bg' fg' d :
  (overtake_bg_color_properties_ d = false -> bg = bg') ->
  (overtake_fg_color_properties_ d = false -> fg = fg') ->
  stored K msg bg fg d = stored K msg bg' fg' d.
Proof.
  intros Hb Hf. unfold stored.
  destruct (overtake_bg_color_properties_ d), (overtake_fg_color_properties_ d);
    try rewrite (Hb eq_refl); try rewrite (Hf eq_refl); reflexivity.
Qed.






Lemma unit_channel_scaled (c : spec_float) :
  Float.in_unit_interval c ->
  Float.scale255 c = Some (Float.floor255 c)
  /\ QColor.in_range (Float.floor255 c) = true.
Proof.
  intros (V & F & L & U).
  destruct (scale255_unit c V F L U) as [E [R1 R2]].
  split; [exact E|]. unfold QColor.in_range.
  apply andb_true_intro. split; apply Z.leb_le; assumption.
Qed.



End ProcessMessageFacts.

(** * Properties of the text helpers *)
Section TextHelpers.

Local Open Scope string_scope.

Lemma append_assoc (a b c : string) : (a ++ b) ++ c = a ++ (b ++ c).
Proof. induction a as [|x a IH]; cbn; [reflexivity | rewrite IH; reflexivity]. Qed.

Lemma append_empty (a : string) : a ++ EmptyString = a.
Proof. induction a as [|x a IH]; cbn; [reflexivity | rewrite IH; reflexivity]. Qed.

Lemma occurs_append (c : ascii) (a b : string) :
  occurs c (a ++ b) = occurs c a || occurs c b.
Proof.
  induction a as [|x a IH]; cbn; [reflexivity|].
  rewrite IH, orb_assoc. reflexivity.
Qed.

Lemma replace_newlines_clean (s : string) :
  occurs newline (replace_newlines s) = false.
Proof.
  induction s as [|c s IH]; cbn [replace_newlines]; [reflexivity|].
  destruct (Ascii.eqb c newline) eqn:E.
  - rewrite occurs_append, IH. reflexivity.
  - cbn [occurs]. rewrite E, IH. reflexivity.
Qed.

Lemma replace_newlines_same (s : string) :
  occurs newline s = false -> replace_newlines s = s.
Proof.
  induction s as [|c s IH]; cbn [replace_newlines occurs]; [reflexivity|].
  intros H. apply orb_false_elim in H. destruct H as [E H].
  rewrite E, (IH H). reflexivity.
Qed.

(** No decimal numeral contains a closing angle bracket. *)
Lemma uint_digits_clean (d : Decimal.uint) :
  occurs ">"%char (DecimalString.NilEmpty.string_of_uint d) = false.
Proof. induction d; cbn; try rewrite IHd; reflexivity. Qed.

Lemma decimal_clean (z : Z) : occurs ">"%char (decimal z) = false.
Proof.
  unfold decimal, DecimalString.NilZero.string_of_int,
    DecimalString.NilZero.string_of_uint.
  destruct (Z.to_int z) as [d | d]; destruct d;
    try reflexivity; cbn [occurs]; cbn [Ascii.eqb Bool.eqb orb];
    apply uint_digits_clean.
Qed.

(** Inside an open tag everything up to the next [>] is dropped. *)
Lemma remove_markup_tag (p rest h : string) :
  occurs ">"%char p = false ->
  remove_markup_from (p ++ String ">"%char rest) (Some h)
  = remove_markup_from rest None.
Proof.
  revert h. induction p as [|c p IH]; intros h H.
  - cbn. reflexivity.
  - cbn [occurs] in H. apply orb_false_elim in H. destruct H as [E H].
    cbn [append remove_markup_from]. rewrite E. apply IH, H.
Qed.

(** Outside a tag a text without [<] is copied. *)
Lemma remove_markup_plain (t rest : string) :
  occurs "<"%char t = false ->
  remove_markup_from (t ++ rest) None = t ++ remove_markup_from rest None.
Proof.
  induction t as [|c t IH]; intros H; [reflexivity|].
  cbn [occurs] in H. apply orb_false_elim in H. destruct H as [E H].
  cbn [append remove_markup_from]. rewrite E, (IH H). reflexivity.
Qed.

Lemma uint_digits_no_zero (d : Decimal.uint) :
  occurs "000"%char (DecimalString.NilEmpty.string_of_uint d) = false.
Proof. induction d; cbn; try rewrite IHd; reflexivity. Qed.

Lemma decimal_no_zero (z : Z) : occurs "000"%char (decimal z) = false.
Proof.
  unfold decimal, DecimalString.NilZero.string_of_int,
    DecimalString.NilZero.string_of_uint.
  destruct (Z.to_int z) as [d | d]; destruct d;
    try reflexivity; cbn [occurs]; cbn [Ascii.eqb Bool.eqb orb];
    apply uint_digits_no_zero.
Qed.

(** A C string is a prefix: what does not occur in the string does not
    occur in it, and it holds no zero byte. *)
Lemma c_str_occurs (ch : ascii) (s : string) :
  occurs ch s = false -> occurs ch (c_str s) = false.
Proof.
  induction s as [|x s IH]; intros H; [reflexivity|].
  cbn [occurs] in H. apply orb_false_elim in H. destruct H as [E H].
  cbn [c_str]. destruct (Ascii.eqb x "000"); [reflexivity|].
  cbn [occurs]. rewrite E, (IH H). reflexivity.
Qed.

Lemma c_str_same (s : string) :
  occurs "000"%char s = false -> c_str s = s.
Proof.
  induction s as [|x s IH]; intros H; [reflexivity|].
  cbn [occurs] in H. apply orb_false_elim in H. destruct H as [E H].
  cbn [c_str]. rewrite E, (IH H). reflexivity.
Qed.

Lemma c_str_append_clean (a b : string) :
  occurs "000"%char a = false -> c_str (a ++ b) = a ++ c_str b.
Proof.
  induction a as [|x a IH]; intros H; [reflexivity|].
  cbn [occurs] in H. apply orb_false_elim in H. destruct H as [E H].
  cbn [append c_str]. rewrite E, (IH H). reflexivity.
Qed.

Lemma c_str_append_cut (a b : string) :
  occurs "000"%char a = true -> c_str (a ++ b) = c_str a.
Proof.
  induction a as [|x a IH]; intros H; [discriminate|].
  cbn [occurs] in H. cbn [append c_str].
  destruct (Ascii.eqb x "000"); [reflexivity|].
  cbn [orb] in H. rewrite (IH H). reflexivity.
Qed.

(** The text that is measured for the bottom alignment: when the text of
    the message up to its first zero byte holds no opening angle bracket,
    it is that part of the text. *)
Lemma measured_plain (t : string) (c : QColor.t) :
  occurs "<"%char (c_str t) = false ->
  remove_markup (c_str (color_wrap t c)) = c_str t.
Proof.
  intros H. unfold remove_markup, color_wrap.
  set (p := "span style=" ++ quote ++ "color: rgba("
            ++ decimal (QColor.red c) ++ ", " ++ decimal (QColor.green c)
            ++ ", " ++ decimal (QColor.blue c) ++ ", "
            ++ decimal (QColor.alpha c) ++ ")" ++ quote).
  assert (E : "<span style=" ++ quote ++ "color: rgba("
              ++ decimal (QColor.red c) ++ ", " ++ decimal (QColor.green c)
              ++ ", " ++ decimal (QColor.blue c) ++ ", "
              ++ decimal (QColor.alpha c) ++ ")" ++ quote ++ ">" ++ t
              ++ "</span>"
              = String "<"%char (p ++ String ">"%char (t ++ "</span>"))).
  { subst p. rewrite !append_assoc. reflexivity. }
  rewrite E.
  assert (Z0 : occurs "000"%char p = false).
  { subst p. repeat rewrite occurs_append. rewrite !decimal_no_zero.
    reflexivity. }
  cbn [c_str Ascii.eqb Bool.eqb].
  rewrite (c_str_append_clean _ _ Z0).
  cbn [c_str Ascii.eqb Bool.eqb].
  cbn [remove_markup_from Ascii.eqb Bool.eqb].
  rewrite remove_markup_tag.
  - destruct (occurs "000"%char t) eqn:Zt.
    + rewrite (c_str_append_cut _ _ Zt).
      rewrite <- (append_empty (c_str t)) at 1.
      rewrite (remove_markup_plain (c_str t) _ H). cbn. apply append_empty.
    + rewrite (c_str_append_clean _ _ Zt).
      rewrite (c_str_same t Zt) in H |- *.
      rewrite (remove_markup_plain t _ H). cbn. apply append_empty.
  - subst p. repeat rewrite occurs_append. rewrite !decimal_clean. reflexivity.
Qed.

End TextHelpers.

(** * Properties of the render tick *)
Section UpdateFacts.

Variable boundingRect_height : option QFont -> Z -> Z -> string -> Z.
Variable granted : Z -> Z -> Z * Z.

Local Abbreviation tick := (update boundingRect_height granted).
Local Abbreviation rendered := (render boundingRect_height granted).
Local Abbreviation composed := (compose boundingRect_height).

Lemma update_render (d : Display) (o : OverlayObject.t) :
  dirty d = true -> isEnabled d = true -> overlay_ d = Some o ->
  tick d = modify (set_require_update_texture_ false)
               (with_overlay_ (Some (rendered (config d) o)) d).
Proof.
  intros Hd He Ho. unfold update. rewrite Hd, He, Ho. reflexivity.
Qed.

Lemma update_skip (d : Display) :
  dirty d = false \/ isEnabled d = false \/ overlay_ d = None ->
  tick d = d.
Proof.
  unfold update.
  intros [H | [H | H]].
  - rewrite H. reflexivity.
  - rewrite H. destruct (dirty d); reflexivity.
  - rewrite H. destruct (dirty d), (isEnabled d); reflexivity.
Qed.


(** C5. The render pass runs exactly when the update flag is raised, the
    display is enabled and the overlay object exists. When it runs, the
    texture is resized, the buffer is drawn and committed, the dimensions
    are set and the flag is lowered, whatever the text; when one of the
    three conditions fails the tick changes nothing, so a raised flag
    stays raised for a later tick. *)
Theorem update_trigger (d : Display) :
  (forall o,
      dirty d = true -> isEnabled d = true -> overlay_ d = Some o ->
      dirty (tick d) = false
      /\ exists o',
           overlay_ (tick d) = Some o'
           /\ OverlayObject.buffer o'
              = Some (composed (config d)
                        (OverlayObject.updateTextureSize granted
                           (texture_width_ (config d))
                           (texture_height_ (config d)) o))
           /\ OverlayObject.calls o'
              = OverlayObject.SetDimensions
                  (OverlayObject.textureWidth o') (OverlayObject.textureHeight o')
                  :: OverlayObject.GetBuffer
                  :: OverlayObject.UpdateTextureSize
                       (texture_width_ (config d)) (texture_height_ (config d))
                  :: OverlayObject.calls o)
  /\ (dirty d = false \/ isEnabled d = false \/ overlay_ d = None ->
      tick d = d /\ dirty (tick d) = dirty d).
Proof.
  split.
  - intros o Hd He Ho. rewrite (update_render d o Hd He Ho).
    split; [reflexivity|]. eexists. split; [reflexivity|].
    split; reflexivity.
  - intros H. rewrite (update_skip d H). split; reflexivity.
Qed.

(** C8. With an empty text the image the compositor leaves in the buffer
    is the background fill alone: it carries the background colour and
    not a single stroke. *)
Theorem empty_text_pure_fill (d : Display) (o : OverlayObject.t) :
  text_ (config d) = EmptyString ->
  dirty d = true -> isEnabled d = true -> overlay_ d = Some o ->
  exists o',
    overlay_ (tick d) = Some o'
    /\ OverlayObject.buffer o'
       = Some {| image_width := OverlayObject.textureWidth o';
                 image_height := OverlayObject.textureHeight o';
                 background := bg_color_ (config d);
                 strokes := [] |}.
Proof.
  intros Ht Hd He Ho. rewrite (update_render d o Hd He Ho).
  eexists. split; [reflexivity|].
  cbn. unfold compose, paint. rewrite Ht. reflexivity.
Qed.


End UpdateFacts.

(** * Properties of the property slots *)
Section SlotFacts.

#[local] Arguments Float.scale255 : simpl never.
#[local] Arguments Z.ltb : simpl never.
#[local] Arguments Z.of_nat : simpl never.
#[local] Arguments Z.to_nat : simpl never.
#[local] Arguments nth_error : simpl never.
#[local] Arguments List.length : simpl never.

(** The value of every option the constructor registers names the entry
    of the list it was registered for; none is negative. *)
Lemma addOptions_range (families : list string) (i : Z) (f : string) (v : Z) :
  In (f, v) (addOptions families i) ->
  i <= v < i + Z.of_nat (List.length families)
  /\ nth_error families (Z.to_nat (v - i)) = Some f.
Proof.
  revert i. induction families as [|g rest IH]; intros i Hin; [destruct Hin|].
  destruct Hin as [E | Hin].
  - injection E as -> ->. split.
    + change (List.length (f :: rest)) with (S (List.length rest)). lia.
    + rewrite Z.sub_diag. reflexivity.
  - destruct (IH (i + 1) Hin) as [R N]. split.
    + change (List.length (g :: rest)) with (S (List.length rest)). lia.
    + replace (Z.to_nat (v - i)) with (S (Z.to_nat (v - (i + 1)))) by lia.
      exact N.
Qed.

Lemma font_options_range (families : list string) (f : string) (v : Z) :
  In (f, v) (font_options families) ->
  0 <= v < Z.of_nat (List.length families)
  /\ nth_error families (Z.to_nat v) = Some f.
Proof.
  intros Hin. destruct (addOptions_range families 0 f v Hin) as [R N].
  rewrite Z.sub_0_r in N. split; [lia | exact N].
Qed.

(** C6. A font index at or above the number of installed families is
    reported on the error stream and nothing else happens: the slot
    returns normally, the stored font family and the rest of the
    rendering configuration, the update flag included, stay as they
    were. *)
Theorem font_index_out_of_range (index : Z) (d : Display) :
  Z.of_nat (List.length (font_families_ d)) <= index ->
  exists d',
    apply_edit (EditFont index) d = Some d'
    /\ error_log d' = index :: error_log d
    /\ font_ (config d') = font_ (config d)
    /\ config d' = config d.
Proof.
  intros Hi. unfold apply_edit, slot, updateFont. cbn.
  apply Z.ltb_ge in Hi. rewrite Hi.
  eexists. split; [reflexivity|]. repeat split.
Qed.

Lemma dirty_if_config (flag : bool) (d : Display) :
  config (dirty_if flag d)
  = if flag then set_require_update_texture_ true (config d) else config d.
Proof. destruct flag; reflexivity. Qed.

(** What a repeated edit finds: the property already holds the value. *)
Lemma store_edit_twice (e : PropertyEdit) (p : Properties) :
  store_edit e (store_edit e p) = store_edit e p.
Proof. destruct e; reflexivity. Qed.


Ltac settle :=
  match goal with
  | H : Some _ = Some _ |- _ => injection H as <-
  end;
  cbn;
  (split; [eexists; split; [reflexivity|]; split; reflexivity | reflexivity]).

Ltac settle_switch v c :=
  destruct c; cbn in *;
  match goal with
  | H : context [Bool.eqb ?x v] |- _ => destruct x, v
  end;
  settle.

Ltac settle_alpha v :=
  match goal with
  | H : match Float.scale255 v with _ => _ end = Some _ |- _ =>
      destruct (Float.scale255 v) as [a|] eqn:E; [|discriminate];
      injection H as <-; cbn; rewrite !E; cbn
  end;
  (split; [eexists; split; [reflexivity|]; split; reflexivity | reflexivity]).

(** The slots only ever raise the update flag: after an edit it is up
    when it was up before or when the slot raised it. *)
Lemma edit_flag (e : PropertyEdit) (d d' : Display) :
  apply_edit e d = Some d' ->
  dirty d' = dirty d || raises_dirty e d.
Proof.
  intros H.
  destruct d as [c opos ofg obg fams props en ov cnt errs].
  destruct c as [tw th ab ish bg fg ts lw tx fn hd vd ha va flag].
  unfold raises_dirty, apply_edit in *.
  destruct e; cbn [slot store_edit properties with_properties] in H |- *.
  - unfold updateAlignBottom in *. cbn in *. injection H as <-.
    destruct ab, v, flag; reflexivity.
  - unfold updateInvertShadow in *. cbn in *. injection H as <-.
    destruct ish, v, flag; reflexivity.
  - injection H as <-. destruct opos, flag; reflexivity.
  - injection H as <-. destruct opos, flag; reflexivity.
  - injection H as <-. destruct opos, flag; reflexivity.
  - injection H as <-. destruct opos, flag; reflexivity.
  - injection H as <-. destruct opos, flag; reflexivity.
  - injection H as <-. destruct ofg, flag; reflexivity.
  - injection H as <-. destruct ofg, flag; reflexivity.
  - unfold updateFGAlpha in *. cbn in *.
    destruct (Float.scale255 v); [|discriminate].
    injection H as <-. destruct ofg, flag; reflexivity.
  - injection H as <-. destruct obg, flag; reflexivity.
  - unfold updateBGAlpha in *. cbn in *.
    destruct (Float.scale255 v); [|discriminate].
    injection H as <-. destruct obg, flag; reflexivity.
  - unfold updateFont in *. cbn in *.
    destruct (index <? Z.of_nat (List.length fams)).
    + destruct (index <? 0); [discriminate|].
      destruct (nth_error fams (Z.to_nat index)); [|discriminate].
      injection H as <-. destruct ofg, flag; reflexivity.
    + injection H as <-. cbn. rewrite orb_false_r. reflexivity.
Qed.

(** C2, as the slots have it. Applying the same edit a second time in a
    row leaves the rendering configuration, update flag included, and the
    property values as the first application left them. The second
    application itself raises the update flag exactly when the edited
    property belongs to a group whose overtake flag is on (and, for the
    font, the index is inside the list), although no value changes; for
    [align_bottom_], [invert_shadow_] and the properties of a group whose
    overtake flag is off it does not raise it. *)
Theorem repeated_edit (e : PropertyEdit) (d d1 : Display) :
  apply_edit e d = Some d1 ->
  (exists d2,
      apply_edit e d1 = Some d2
      /\ config d2 = config d1
      /\ properties d2 = properties d1)
  /\ raises_dirty e d1
     = match group_overtaken e d1 with
       | None => false
       | Some flag => flag && reaches_flag e d1
       end.
Proof.
  intros H.
  destruct d as [c opos ofg obg fams props en ov cnt errs].
  unfold raises_dirty, apply_edit in *.
  destruct e; cbn [slot store_edit properties with_properties] in H |- *.
  - unfold updateAlignBottom in *. destruct opos, ofg, obg; settle_switch v c.
  - unfold updateInvertShadow in *. destruct opos, ofg, obg; settle_switch v c.
  - unfold updateTop in *. destruct opos, ofg, obg; cbn in H; settle.
  - unfold updateLeft in *. destruct opos, ofg, obg; cbn in H; settle.
  - unfold updateWidth in *. destruct opos, ofg, obg; cbn in H; settle.
  - unfold updateHeight in *. destruct opos, ofg, obg; cbn in H; settle.
  - unfold updateTextSize in *. destruct opos, ofg, obg; cbn in H; settle.
  - unfold updateLineWidth in *. destruct opos, ofg, obg; cbn in H; settle.
  - unfold updateFGColor in *. destruct opos, ofg, obg; cbn in H; settle.
  - unfold updateFGAlpha in *. destruct opos, ofg, obg; cbn in H; settle_alpha v.
  - unfold updateBGColor in *. destruct opos, ofg, obg; cbn in H; settle.
  - unfold updateBGAlpha in *. destruct opos, ofg, obg; cbn in H; settle_alpha v.
  - unfold updateFont in *. cbn in H.
    destruct (index <? Z.of_nat (List.length fams)) eqn:E1.
    + destruct (index <? 0) eqn:E2; [discriminate|].
      destruct (nth_error fams (Z.to_nat index)) as [f|] eqn:E3; [|discriminate].
      injection H as <-.
      destruct ofg; cbn; rewrite !E1, !E2, !E3; cbn;
        (split; [eexists; split; [reflexivity|]; split; reflexivity | reflexivity]).
    + injection H as <-. cbn. rewrite !E1. cbn.
      split; [eexists; split; [reflexivity|]; split; reflexivity |].
      rewrite andb_false_r. reflexivity.
Qed.

End SlotFacts.

(** * Worked cases *)
Section WorkedCases.

Import Sample.

(** The sample displays arise from the callback, the tick and an edit. *)
Example settled_arises :
  option_map tick (processMessage tags hello (fresh true false false))
  = Some settled.
Proof. vm_compute. reflexivity. Qed.

Example shown_arises :
  option_map tick (processMessage tags hello (fresh false false false))
  = Some shown.
Proof. vm_compute. reflexivity. Qed.

Example silent_arises :
  processMessage tags remove (fresh false false false) = Some silent.
Proof. vm_compute. reflexivity. Qed.

Example redrawn_arises :
  option_map tick (apply_edit (EditTop 5) settled) = Some redrawn.
Proof. vm_compute. reflexivity. Qed.

(** The ADD message of the scenario with no group overtaken: the texture
    is 200 by 100, the foreground opaque white, and the background alpha
    0.5 is stored as 127. *)
Example hello_stored :
  texture_width_ (config shown) = 200
  /\ texture_height_ (config shown) = 100
  /\ fg_color_ (config shown) = QColor.make 255 255 255 255
  /\ bg_color_ (config shown) = QColor.make 0 0 0 127
  /\ OverlayObject.visible (overlay_of shown) = true
  /\ OverlayObject.dimensions (overlay_of shown) = Some (200, 100).
Proof. repeat split. Qed.

(** The text that is measured for the bottom alignment is the text of the
    message again once the colour annotation is removed, and the shadow
    loses a colour declaration of its own. *)
Example measured_text :
  remove_markup (only_wrapped_text (config shown)) = hello_world.
Proof. reflexivity. Qed.

Example shadow_loses_color :
  remove_color_tags "a color: red; b"%string = "a  b"%string.
Proof. reflexivity. Qed.

Lemma one_in_unit_interval : Float.in_unit_interval Float.one.
Proof. repeat split; try reflexivity; vm_compute; discriminate. Qed.

Lemma half_in_unit_interval : Float.in_unit_interval Float.half.
Proof. repeat split; try reflexivity; vm_compute; discriminate. Qed.

Lemma zero_in_unit_interval : Float.in_unit_interval Float.zero.
Proof. repeat split; try reflexivity; vm_compute; discriminate. Qed.



(** C2 fails as stated: with the position group overtaken, setting the
    top property to 5 a second time raises the update flag again. The
    tick between the two edits has lowered the flag, the property and the
    stored distance already hold 5, and still the display is drawn once
    more. *)
Lemma repeated_edit_raises_flag :
  apply_edit (EditTop 5) settled = Some edited
  /\ raises_dirty (EditTop 5) edited = true
  /\ dirty redrawn = false
  /\ top_property_ (properties redrawn) = 5
  /\ vertical_dist_ (config redrawn) = 5
  /\ exists d3,
       apply_edit (EditTop 5) redrawn = Some d3
       /\ vertical_dist_ (config d3) = vertical_dist_ (config redrawn)
       /\ dirty d3 = true.
Proof.
  split; [vm_compute; reflexivity|]. split; [vm_compute; reflexivity|].
  split; [vm_compute; reflexivity|]. split; [vm_compute; reflexivity|].
  split; [vm_compute; reflexivity|].
  eexists. split; [vm_compute; reflexivity|].
  split; vm_compute; reflexivity.
Qed.

Lemma repeated_edit_witness :
  raises_dirty (EditTop 5) edited = true
  /\ raises_dirty (EditAlignBottom true)
       (updateAlignBottom
          (with_properties (put_align_bottom_property_ true (properties settled))
             settled))
     = false.
Proof.
  split.
  - destruct (repeated_edit (EditTop 5) settled edited eq_refl) as [_ R].
    exact R.
  - destruct (repeated_edit (EditAlignBottom true) settled _ eq_refl) as [_ R].
    exact R.
Defined.

Lemma processMessage_overtaken_groups_witness :
  exists d',
    processMessage tags hello (fresh true true true) = Some d'
    /\ texture_width_ (config d') = 0
    /\ line_width_ (config d') = 2
    /\ bg_color_ (config d') = QColor.make 0 0 0 0.
Proof.
  destruct (processMessage_overtaken_groups tags hello (fresh true true true)
              eq_refl eq_refl) as (d' & H & P & F & B).
  exists d'. split; [exact H|].
  split; [apply (P eq_refl)|]. split; [apply (F eq_refl) | apply (B eq_refl)].
Defined.

Lemma processMessage_disabled_witness :
  processMessage tags hello disabled = Some disabled.
Proof. apply processMessage_disabled. reflexivity. Defined.

Lemma update_trigger_witness :
  dirty (tick silent) = false /\ tick settled = settled.
Proof.
  split.
  - destruct (update_trigger ten at_least_one silent) as [R _].
    destruct (R (overlay_of silent) eq_refl eq_refl eq_refl) as [D _].
    exact D.
  - destruct (update_trigger ten at_least_one settled) as [_ S].
    apply S. left. reflexivity.
Defined.

Lemma font_index_out_of_range_witness :
  exists d',
    apply_edit (EditFont 3) settled = Some d'
    /\ error_log d' = [3]
    /\ font_ (config d') = "DejaVu Sans"%string.
Proof.
  destruct (font_index_out_of_range 3 settled) as (d' & H & L & F & _).
  - cbn. lia.
  - exists d'. split; [exact H|]. split; [exact L | exact F].
Defined.



Lemma empty_text_pure_fill_witness :
  exists o',
    overlay_ (tick silent) = Some o'
    /\ OverlayObject.buffer o'
       = Some {| image_width := 1; image_height := 1;
                 background := QColor.make 0 0 0 0; strokes := [] |}.
Proof.
  destruct (empty_text_pure_fill ten at_least_one silent
              (overlay_of silent) eq_refl eq_refl eq_refl eq_refl)
    as (o' & H & B).
  exists o'. split; [exact H|].
  rewrite B. injection H as <-. reflexivity.
Defined.




End WorkedCases.

(** * Further properties of the text pipeline *)
Section TextFacts.

Local Open Scope string_scope.

(** X1. The text that the bottom alignment measures, the colour-wrapped
    text read as a C string with its markup removed, is the text of the
    message up to its first zero byte, whatever the colour, when that part
    holds no opening angle bracket; for a text without a zero byte it is
    the text itself. *)
Theorem wrap_then_strip (t : string) (c : QColor.t) :
  occurs "<"%char (c_str t) = false ->
  remove_markup (c_str (color_wrap t c)) = c_str t
  /\ (occurs "000"%char t = false ->
      remove_markup (c_str (color_wrap t c)) = t).
Proof.
  intros H. split; [exact (measured_plain t c H)|].
  intros Z0. rewrite (measured_plain t c H). apply c_str_same, Z0.
Qed.

Lemma lazy_without_semicolon (s : string) (n : nat) :
  occurs ";"%char s = false -> lazy_until_semicolon s n = None.
Proof.
  revert n. induction s as [|c s IH]; intros n H; [reflexivity|].
  cbn [occurs] in H. apply orb_false_elim in H. destruct H as [E H].
  cbn [lazy_until_semicolon]. rewrite E.
  destruct (is_line_terminator c); [reflexivity | apply IH, H].
Qed.

Lemma strip_prefix_occurs (c : ascii) (p s r : string) :
  strip_prefix p s = Some r -> occurs c s = false -> occurs c r = false.
Proof.
  revert s. induction p as [|a p IH]; intros s E H.
  - destruct s; injection E as <-; exact H.
  - destruct s as [|b s]; [discriminate|]. cbn [strip_prefix] in E.
    destruct (Ascii.eqb a b); [|discriminate].
    cbn [occurs] in H. apply orb_false_elim in H. apply (IH s E), H.
Qed.

Lemma no_tag_without_semicolon (s : string) :
  occurs ";"%char s = false -> color_tag_length s = None.
Proof.
  intros H. unfold color_tag_length.
  destruct (strip_prefix "color:" s) as [[|c r]|] eqn:E; try reflexivity.
  pose proof (strip_prefix_occurs _ _ _ _ E H) as R.
  cbn [occurs] in R. apply orb_false_elim in R.
  destruct (is_line_terminator c); [reflexivity|].
  apply lazy_without_semicolon, R.
Qed.

(** X2. A text without a semicolon holds no colour declaration the
    pattern could match: the shadow fragment is built from the text as it
    is. *)
Theorem shadow_text_kept (t : string) :
  occurs ";"%char t = false -> remove_color_tags t = t.
Proof.
  unfold remove_color_tags.
  induction t as [|c t IH]; intros H; [reflexivity|].
  cbn [remove_color_tags_from].
  rewrite (no_tag_without_semicolon _ H).
  cbn [occurs] in H. apply orb_false_elim in H.
  rewrite (IH (proj2 H)). reflexivity.
Qed.

Lemma length_append (a b : string) :
  String.length (a ++ b) = (String.length a + String.length b)%nat.
Proof. induction a as [|x a IH]; cbn; [reflexivity | rewrite IH; reflexivity]. Qed.

Lemma skip_matched (p rest : string) :
  remove_color_tags_from (p ++ rest) (String.length p)
  = remove_color_tags_from rest 0.
Proof.
  induction p as [|c p IH]; cbn [append String.length].
  - destruct rest; reflexivity.
  - cbn [remove_color_tags_from]. exact IH.
Qed.

Lemma match_dropped (c : ascii) (s : string) (n : nat) :
  color_tag_length (String c s) = Some n ->
  remove_color_tags_from (String c s) 0 = remove_color_tags_from s (Nat.pred n).
Proof. intros H. cbn [remove_color_tags_from]. rewrite H. reflexivity. Qed.

Lemma lazy_finds_semicolon (b rest : string) (n : nat) :
  occurs ";"%char b = false ->
  occurs "010"%char b = false ->
  occurs "013"%char b = false ->
  lazy_until_semicolon (b ++ String ";"%char rest) n
  = Some (S (n + String.length b)).
Proof.
  revert n. induction b as [|c b IH]; intros n Hs Hn Hr.
  - cbn. rewrite Nat.add_0_r. reflexivity.
  - cbn [occurs] in Hs, Hn, Hr.
    apply orb_false_elim in Hs. destruct Hs as [Es Hs].
    apply orb_false_elim in Hn. destruct Hn as [En Hn].
    apply orb_false_elim in Hr. destruct Hr as [Er Hr].
    cbn [append lazy_until_semicolon String.length].
    unfold is_line_terminator. rewrite Es, En, Er. cbn [orb].
    rewrite (IH (S n) Hs Hn Hr). f_equal. lia.
Qed.

Lemma copied_before_declaration (a rest : string) :
  occurs "c"%char a = false ->
  remove_color_tags_from (a ++ rest) 0 = a ++ remove_color_tags_from rest 0.
Proof.
  induction a as [|x a IH]; intros H; [reflexivity|].
  cbn [occurs] in H. apply orb_false_elim in H. destruct H as [E H].
  cbn [append remove_color_tags_from].
  assert (N : color_tag_length (String x (a ++ rest)) = None).
  { unfold color_tag_length. cbn [strip_prefix].
    rewrite Ascii.eqb_sym, E. reflexivity. }
  rewrite N, (IH H). reflexivity.
Qed.

(** X3. A colour declaration is cut out of the shadow text together with
    its semicolon, and what stands before it is kept: the text before
    holds no letter c, the value of the declaration is at least one
    character long and runs to the first semicolon after that character
    on the same line. *)
Theorem shadow_drops_declaration (a b rest : string) (c : ascii) :
  occurs "c"%char a = false ->
  is_line_terminator c = false ->
  occurs ";"%char b = false ->
  occurs "010"%char b = false ->
  occurs "013"%char b = false ->
  remove_color_tags (a ++ "color:" ++ String c (b ++ String ";"%char rest))
  = a ++ remove_color_tags rest.
Proof.
  intros Ha Hc Hs Hn Hr. unfold remove_color_tags.
  rewrite (copied_before_declaration a _ Ha). f_equal.
  set (X := String c (b ++ String ";"%char rest)).
  change ("color:" ++ X) with (String "c" ("olor:" ++ X)).
  assert (L : color_tag_length (String "c" ("olor:" ++ X))
              = Some (S (7 + String.length b))).
  { subst X. unfold color_tag_length.
    cbn [strip_prefix append Ascii.eqb Bool.eqb].
    rewrite Hc. apply lazy_finds_semicolon; assumption. }
  rewrite (match_dropped _ _ _ L). cbn [Nat.pred].
  replace ("olor:" ++ X) with (("olor:" ++ String c (b ++ ";")) ++ rest)
    by (subst X; cbn [append]; rewrite append_assoc; reflexivity).
  replace (7 + String.length b)%nat
    with (String.length ("olor:" ++ String c (b ++ ";")))
    by (cbn [append String.length]; rewrite length_append; cbn; lia).
  exact (skip_matched ("olor:" ++ String c (b ++ ";")) rest).
Qed.

End TextFacts.

(** * Further properties of the render tick *)
Section RenderFacts.

Variable boundingRect_height : option QFont -> Z -> Z -> string -> Z.
Variable granted : Z -> Z -> Z * Z.

Local Abbreviation tick := (update boundingRect_height granted).
Local Abbreviation rendered := (render boundingRect_height granted).
Local Abbreviation composed := (compose boundingRect_height).

Lemma strokes_cases (c : RenderConfig) (o : OverlayObject.t) (s : Stroke) :
  In s (strokes (composed c o)) ->
  exists x y t, s = draw x y t c
                /\ (t = static_shadow c (uint16 (OverlayObject.textureWidth o))
                    \/ t = static_text c (uint16 (OverlayObject.textureWidth o))).
Proof.
  unfold compose, paint. cbn [strokes drawn OverlayObject.getQImage app].
  destruct (0 <? Z.of_nat (String.length (text_ c))); [|intros []].
  destruct (negb (align_bottom_ c)); cbn [In];
    (intros [<- | [<- | []]];
     [ eexists _, _, _; split; [reflexivity | left; reflexivity]
     | eexists _, _, _; split; [reflexivity | right; reflexivity] ]).
Qed.

(** X4. Every fragment, the main text included, is drawn with the pen that
    was set for the shadow: its width is the stored line width raised to at
    least one pixel, its colour is white or black as [invert_shadow_] says,
    with the alpha of the foreground colour. *)
Theorem stroke_pens (c : RenderConfig) (o : OverlayObject.t) (s : Stroke) :
  In s (strokes (composed c o)) ->
  pen_width (stroke_pen s) = Z.max (line_width_ c) 1
  /\ 1 <= pen_width (stroke_pen s)
  /\ QColor.alpha (pen_color (stroke_pen s))
     = QColor.clamp (QColor.alpha (fg_color_ c))
  /\ (QColor.red (pen_color (stroke_pen s)),
      QColor.green (pen_color (stroke_pen s)),
      QColor.blue (pen_color (stroke_pen s)))
     = if invert_shadow_ c then (255, 255, 255) else (0, 0, 0).
Proof.
  intros Hin. destruct (strokes_cases c o s Hin) as (x & y & t & -> & _).
  cbn. repeat split; try lia.
  destruct (invert_shadow_ c); reflexivity.
Qed.

(** X5. No fragment handed to the painter holds a line feed: each one was
    replaced by the line-break marker before the fragment was cut at its
    first zero byte. *)
Theorem fragments_without_newline
    (c : RenderConfig) (o : OverlayObject.t) (s : Stroke) :
  In s (strokes (composed c o)) ->
  occurs newline (static_content (stroke_text s)) = false.
Proof.
  intros Hin. destruct (strokes_cases c o s Hin) as (x & y & t & -> & [-> | ->]);
    cbn [stroke_text draw static_content static_shadow static_text];
    apply c_str_occurs, replace_newlines_clean.
Qed.

(** X6. A second tick right after a tick does nothing: one raised flag
    gives one render. *)
Theorem tick_twice (d : Display) : tick (tick d) = tick d.
Proof.
  destruct (dirty d) eqn:Hd;
    [|rewrite (update_skip _ _ d) by (left; exact Hd);
      apply update_skip; left; exact Hd].
  destruct (isEnabled d) eqn:He;
    [|rewrite (update_skip _ _ d) by (right; left; exact He);
      apply update_skip; right; left; exact He].
  destruct (overlay_ d) as [o|] eqn:Ho;
    [|rewrite (update_skip _ _ d) by (right; right; exact Ho);
      apply update_skip; right; right; exact Ho].
  rewrite (update_render _ _ d o Hd He Ho).
  apply update_skip. left. reflexivity.
Qed.

(** What a tick leaves as it was. *)
Lemma update_leaves (d : Display) :
  set_require_update_texture_ true (config (tick d))
  = set_require_update_texture_ true (config d)
  /\ surroundings (tick d) = surroundings d
  /\ count (tick d) = count d
  /\ match overlay_ d, overlay_ (tick d) with
     | Some o, Some o' =>
         OverlayObject.name o' = OverlayObject.name o
         /\ OverlayObject.visible o' = OverlayObject.visible o
         /\ OverlayObject.position o' = OverlayObject.position o
     | None, None => True
     | _, _ => False
     end.
Proof.
  assert (Same : tick d = d ->
                 set_require_update_texture_ true (config (tick d))
                 = set_require_update_texture_ true (config d)
                 /\ surroundings (tick d) = surroundings d
                 /\ count (tick d) = count d
                 /\ match overlay_ d, overlay_ (tick d) with
                    | Some o, Some o' =>
                        OverlayObject.name o' = OverlayObject.name o
                        /\ OverlayObject.visible o' = OverlayObject.visible o
                        /\ OverlayObject.position o' = OverlayObject.position o
                    | None, None => True
                    | _, _ => False
                    end).
  { intros ->. repeat split. destruct (overlay_ d); repeat split. }
  destruct (dirty d) eqn:Hd;
    [|apply Same, update_skip; left; exact Hd].
  destruct (isEnabled d) eqn:He;
    [|apply Same, update_skip; right; left; exact He].
  destruct (overlay_ d) as [o|] eqn:Ho;
    [|apply Same, update_skip; right; right; exact Ho].
  clear Same. rewrite (update_render _ _ d o Hd He Ho).
  repeat split.
Qed.

(** X7. A tick leaves everything but the update flag and the texture of the
    overlay object alone: the stored configuration, the properties, the
    overtake flags, the counter of created objects, and of the overlay
    object its name, its visibility and its position. In particular it
    never shows, hides or moves the overlay object. *)
Theorem tick_frame (d : Display) :
  set_require_update_texture_ true (config (tick d))
  = set_require_update_texture_ true (config d)
  /\ surroundings (tick d) = surroundings d
  /\ count (tick d) = count d
  /\ match overlay_ d, overlay_ (tick d) with
     | Some o, Some o' =>
         OverlayObject.name o' = OverlayObject.name o
         /\ OverlayObject.visible o' = OverlayObject.visible o
         /\ OverlayObject.position o' = OverlayObject.position o
     | None, None => True
     | _, _ => False
     end.
Proof. exact (update_leaves d). Qed.

End RenderFacts.

(** * Further properties of the message callback *)
Section MessageOrder.

Variable K : OverlayText.Constants.

Lemma config_ext (c c' : RenderConfig) :
  texture_width_ c = texture_width_ c' ->
  texture_height_ c = texture_height_ c' ->
  align_bottom_ c = align_bottom_ c' ->
  invert_shadow_ c = invert_shadow_ c' ->
  bg_color_ c = bg_color_ c' ->
  fg_color_ c = fg_color_ c' ->
  text_size_ c = text_size_ c' ->
  line_width_ c = line_width_ c' ->
  text_ c = text_ c' ->
  font_ c = font_ c' ->
  horizontal_dist_ c = horizontal_dist_ c' ->
  vertical_dist_ c = vertical_dist_ c' ->
  horizontal_alignment_ c = horizontal_alignment_ c' ->
  vertical_alignment_ c = vertical_alignment_ c' ->
  require_update_texture_ c = require_update_texture_ c' ->
  c = c'.
Proof. destruct c, c'; cbn; intros; subst; reflexivity. Qed.

Lemma horizontal_again (m1 m2 : OverlayText.t) (c c1 : RenderConfig) :
  known_horizontal K (OverlayText.horizontal_alignment m2) = true
  \/ OverlayText.horizontal_alignment m2 = OverlayText.horizontal_alignment m1 ->
  horizontal_alignment_ c1
  = horizontal_alignment_ (store_horizontal_alignment K m1 c) ->
  horizontal_alignment_ (store_horizontal_alignment K m2 c1)
  = horizontal_alignment_ (store_horizontal_alignment K m2 c).
Proof.
  unfold known_horizontal, store_horizontal_alignment. intros Hk H1.
  destruct (OverlayText.horizontal_alignment m2 =? OverlayText.LEFT K) eqn:E1;
    [reflexivity|].
  destruct (OverlayText.horizontal_alignment m2 =? OverlayText.CENTER K) eqn:E2;
    [reflexivity|].
  destruct (OverlayText.horizontal_alignment m2 =? OverlayText.RIGHT K) eqn:E3;
    [reflexivity|].
  destruct Hk as [Hk | Hk]; [discriminate|].
  rewrite <- Hk, E1, E2, E3 in H1. exact H1.
Qed.

Lemma vertical_again (m1 m2 : OverlayText.t) (c c1 : RenderConfig) :
  known_vertical K (OverlayText.vertical_alignment m2) = true
  \/ OverlayText.vertical_alignment m2 = OverlayText.vertical_alignment m1 ->
  vertical_alignment_ c1
  = vertical_alignment_ (store_vertical_alignment K m1 c) ->
  vertical_alignment_ (store_vertical_alignment K m2 c1)
  = vertical_alignment_ (store_vertical_alignment K m2 c).
Proof.
  unfold known_vertical, store_vertical_alignment. intros Hk H1.
  destruct (OverlayText.vertical_alignment m2 =? OverlayText.BOTTOM K) eqn:E1;
    [reflexivity|].
  destruct (OverlayText.vertical_alignment m2 =? OverlayText.CENTER K) eqn:E2;
    [reflexivity|].
  destruct (OverlayText.vertical_alignment m2 =? OverlayText.TOP K) eqn:E3;
    [reflexivity|].
  destruct Hk as [Hk | Hk]; [discriminate|].
  rewrite <- Hk, E1, E2, E3 in H1. exact H1.
Qed.

Lemma surroundings_flags (d d' : Display) :
  surroundings d' = surroundings d ->
  overtake_position_properties_ d' = overtake_position_properties_ d
  /\ overtake_fg_color_properties_ d' = overtake_fg_color_properties_ d
  /\ overtake_bg_color_properties_ d' = overtake_bg_color_properties_ d
  /\ isEnabled d' = isEnabled d
  /\ properties d' = properties d
  /\ font_families_ d' = font_families_ d
  /\ error_log d' = error_log d.
Proof. unfold surroundings. intros H. injection H as -> -> -> -> -> -> ->. repeat split. Qed.

(** The configuration a message leaves when it follows another one. *)
Lemma stored_after_stored (m1 m2 : OverlayText.t) (bg1 fg1 bg fg : QColor.t)
    (d d1 : Display) :
  surroundings d1 = surroundings d ->
  config d1 = stored K m1 bg1 fg1 d ->
  known_horizontal K (OverlayText.horizontal_alignment m2) = true
  \/ OverlayText.horizontal_alignment m2 = OverlayText.horizontal_alignment m1 ->
  known_vertical K (OverlayText.vertical_alignment m2) = true
  \/ OverlayText.vertical_alignment m2 = OverlayText.vertical_alignment m1 ->
  stored K m2 bg fg d1 = stored K m2 bg fg d.
Proof.
  intros S C Hh Hv.
  destruct (surroundings_flags _ _ S) as (Fp & Ff & Fb & _).
  destruct (stored_switches K m2 bg fg d1) as [A1 A2].
  destruct (stored_switches K m2 bg fg d) as [B1 B2].
  destruct (stored_switches K m1 bg1 fg1 d) as [C1 C2].
  destruct (stored_alignment K m2 bg fg d1) as [H1 V1].
  destruct (stored_alignment K m2 bg fg d) as [H2 V2].
  destruct (stored_alignment K m1 bg1 fg1 d) as [H3 V3].
  assert (P : texture_width_ (stored K m2 bg fg d1) = texture_width_ (stored K m2 bg fg d)
              /\ texture_height_ (stored K m2 bg fg d1) = texture_height_ (stored K m2 bg fg d)
              /\ text_size_ (stored K m2 bg fg d1) = text_size_ (stored K m2 bg fg d)
              /\ horizontal_dist_ (stored K m2 bg fg d1) = horizontal_dist_ (stored K m2 bg fg d)
              /\ vertical_dist_ (stored K m2 bg fg d1) = vertical_dist_ (stored K m2 bg fg d)).
  { destruct (overtake_position_properties_ d) eqn:E.
    - destruct (stored_position_kept K m2 bg fg d1 Fp) as (a1 & a2 & a3 & a4 & a5).
      destruct (stored_position_kept K m2 bg fg d E) as (b1 & b2 & b3 & b4 & b5).
      destruct (stored_position_kept K m1 bg1 fg1 d E) as (c1 & c2 & c3 & c4 & c5).
      rewrite a1, a2, a3, a4, a5, b1, b2, b3, b4, b5, C, c1, c2, c3, c4, c5.
      repeat split.
    - destruct (stored_position_taken K m2 bg fg d1 Fp) as (a1 & a2 & a3 & a4 & a5).
      destruct (stored_position_taken K m2 bg fg d E) as (b1 & b2 & b3 & b4 & b5).
      rewrite a1, a2, a3, a4, a5, b1, b2, b3, b4, b5. repeat split. }
  assert (F : fg_color_ (stored K m2 bg fg d1) = fg_color_ (stored K m2 bg fg d)
              /\ font_ (stored K m2 bg fg d1) = font_ (stored K m2 bg fg d)
              /\ line_width_ (stored K m2 bg fg d1) = line_width_ (stored K m2 bg fg d)).
  { destruct (overtake_fg_color_properties_ d) eqn:E.
    - destruct (stored_foreground_kept K m2 bg fg d1 Ff) as (a1 & a2 & a3).
      destruct (stored_foreground_kept K m2 bg fg d E) as (b1 & b2 & b3).
      destruct (stored_foreground_kept K m1 bg1 fg1 d E) as (c1 & c2 & c3).
      rewrite a1, a2, a3, b1, b2, b3, C, c1, c2, c3. repeat split.
    - destruct (stored_foreground_taken K m2 bg fg d1 Ff) as (a1 & a2 & a3).
      destruct (stored_foreground_taken K m2 bg fg d E) as (b1 & b2 & b3).
      rewrite a1, a2, a3, b1, b2, b3. repeat split. }
  assert (B : bg_color_ (stored K m2 bg fg d1) = bg_color_ (stored K m2 bg fg d)).
  { destruct (overtake_bg_color_properties_ d) eqn:E.
    - rewrite (stored_background_kept K m2 bg fg d1 Fb),
        (stored_background_kept K m2 bg fg d E), C,
        (stored_background_kept K m1 bg1 fg1 d E). reflexivity.
    - rewrite (stored_background_taken K m2 bg fg d1 Fb),
        (stored_background_taken K m2 bg fg d E). reflexivity. }
  destruct P as (P1 & P2 & P3 & P4 & P5). destruct F as (F1 & F2 & F3).
  apply config_ext; try assumption.
  - rewrite A1, B1, C, C1. reflexivity.
  - rewrite A2, B2, C, C2. reflexivity.
  - rewrite !stored_text. reflexivity.
  - rewrite H1, H2. apply (horizontal_again m1 m2); [exact Hh|].
    rewrite C. exact H3.
  - rewrite V1, V2. apply (vertical_again m1 m2); [exact Hv|].
    rewrite C. exact V3.
  - reflexivity.
Qed.

Lemma defined_from_result (msg : OverlayText.t) (d d' : Display) :
  isEnabled d = true ->
  processMessage K msg d = Some d' ->
  conversions_defined msg d = true.
Proof.
  intros Hen H.
  destruct (processMessage_inv K msg d d' Hen H) as (_ & (bg & fg & Hb & Hf & _) & _).
  unfold conversions_defined.
  destruct (overtake_bg_color_properties_ d); cbn [orb andb];
    [|rewrite (Hb eq_refl)];
    (destruct (overtake_fg_color_properties_ d); cbn [orb andb];
     [|rewrite (Hf eq_refl)]; reflexivity).
Qed.

(** X8. What a message leaves in the configuration does not depend on the
    messages before it: taken after another message it leaves what it
    leaves when taken alone, provided each of its two alignment tags is one
    the callback knows, or is the tag the earlier message carried. With
    the same message twice, the second leaves the configuration as the
    first left it. *)
Theorem last_message_wins (m1 m2 : OverlayText.t) (d d1 d2 : Display) :
  isEnabled d = true ->
  processMessage K m1 d = Some d1 ->
  processMessage K m2 d1 = Some d2 ->
  known_horizontal K (OverlayText.horizontal_alignment m2) = true
  \/ OverlayText.horizontal_alignment m2 = OverlayText.horizontal_alignment m1 ->
  known_vertical K (OverlayText.vertical_alignment m2) = true
  \/ OverlayText.vertical_alignment m2 = OverlayText.vertical_alignment m1 ->
  exists d2',
    processMessage K m2 d = Some d2' /\ config d2 = config d2'.
Proof.
  intros Hen H1 H2 Hh Hv.
  destruct (processMessage_inv K m1 d d1 Hen H1) as (S1 & (bg1 & fg1 & _ & _ & C1) & _).
  destruct (surroundings_flags _ _ S1) as (Fp & Ff & Fb & Fe & _).
  assert (Hen1 : isEnabled d1 = true) by congruence.
  destruct (processMessage_inv K m2 d1 d2 Hen1 H2) as (_ & (bg & fg & Hb & Hf & C2) & _).
  pose proof (defined_from_result m2 d1 d2 Hen1 H2) as D.
  assert (D' : conversions_defined m2 d = true).
  { unfold conversions_defined in *. rewrite <- Ff, <- Fb. exact D. }
  destruct (processMessage_defined K m2 d Hen D') as [d2' H2'].
  exists d2'. split; [exact H2'|].
  destruct (processMessage_inv K m2 d d2' Hen H2') as (_ & (bg' & fg' & Hb' & Hf' & C2') & _).
  rewrite C2, C2', (stored_after_stored m1 m2 bg1 fg1 bg fg d d1 S1 C1 Hh Hv).
  apply stored_ext; intros E.
  - rewrite <- Fb in E. specialize (Hb E). rewrite Fb in E.
    specialize (Hb' E). congruence.
  - rewrite <- Ff in E. specialize (Hf E). rewrite Ff in E.
    specialize (Hf' E). congruence.
Qed.

End MessageOrder.

(** * What the callbacks leave alone *)
Section Frames.

#[local] Arguments Float.scale255 : simpl never.
#[local] Arguments Z.ltb : simpl never.
#[local] Arguments Z.of_nat : simpl never.
#[local] Arguments Z.to_nat : simpl never.
#[local] Arguments nth_error : simpl never.
#[local] Arguments List.length : simpl never.

Variable K : OverlayText.Constants.

(** An edit touches neither the overlay object nor the counter, the
    overtake flags, the font list or what [isEnabled] returns. *)
Lemma apply_edit_shell (e : PropertyEdit) (d d' : Display) :
  apply_edit e d = Some d' ->
  overlay_ d' = overlay_ d
  /\ count d' = count d
  /\ overtake_position_properties_ d' = overtake_position_properties_ d
  /\ overtake_fg_color_properties_ d' = overtake_fg_color_properties_ d
  /\ overtake_bg_color_properties_ d' = overtake_bg_color_properties_ d
  /\ isEnabled d' = isEnabled d
  /\ font_families_ d' = font_families_ d
  /\ properties d' = store_edit e (properties d).
Proof.
  intros H.
  destruct d as [c opos ofg obg fams props en ov cnt errs].
  unfold apply_edit in H.
  destruct e; cbn [slot store_edit properties with_properties] in H |- *.
  - injection H as <-. unfold updateAlignBottom. cbn.
    destruct (Bool.eqb (align_bottom_ c) v); repeat split.
  - injection H as <-. unfold updateInvertShadow. cbn.
    destruct (Bool.eqb (invert_shadow_ c) v); repeat split.
  - injection H as <-. destruct opos; repeat split.
  - injection H as <-. destruct opos; repeat split.
  - injection H as <-. destruct opos; repeat split.
  - injection H as <-. destruct opos; repeat split.
  - injection H as <-. destruct opos; repeat split.
  - injection H as <-. destruct ofg; repeat split.
  - injection H as <-. destruct ofg; repeat split.
  - unfold updateFGAlpha in H. cbn in H.
    destruct (Float.scale255 v); [|discriminate].
    injection H as <-. destruct ofg; repeat split.
  - injection H as <-. destruct obg; repeat split.
  - unfold updateBGAlpha in H. cbn in H.
    destruct (Float.scale255 v); [|discriminate].
    injection H as <-. destruct obg; repeat split.
  - unfold updateFont in H. cbn in H.
    destruct (index <? Z.of_nat (List.length fams)).
    + destruct (index <? 0); [discriminate|].
      destruct (nth_error fams (Z.to_nat index)); [|discriminate].
      injection H as <-. destruct ofg; repeat split.
    + injection H as <-. repeat split.
Qed.

Lemma take_background_count (msg : OverlayText.t) (d d' : Display) :
  take_background msg d = Some d' -> count d' = count d.
Proof.
  unfold take_background.
  destruct (negb (overtake_bg_color_properties_ d)); [|intros [= <-]; reflexivity].
  destruct (color_of_msg (OverlayText.bg_color msg)); [|discriminate].
  intros [= <-]. reflexivity.
Qed.

Lemma take_foreground_count (msg : OverlayText.t) (d d' : Display) :
  take_foreground msg d = Some d' -> count d' = count d.
Proof.
  unfold take_foreground.
  destruct (negb (overtake_fg_color_properties_ d)); [|intros [= <-]; reflexivity].
  destruct (color_of_msg (OverlayText.fg_color msg)); [|discriminate].
  intros [= <-]. reflexivity.
Qed.

Lemma processMessage_count (msg : OverlayText.t) (d d' : Display) :
  isEnabled d = true ->
  processMessage K msg d = Some d' ->
  count d' = count (ensure_overlay d).
Proof.
  intros Hen H. unfold processMessage in H. rewrite Hen in H. cbn [negb] in H.
  set (d3 := modify _ (modify _ (modify _ (act K msg (ensure_overlay d))))) in H.
  assert (C3 : count d3 = count (ensure_overlay d)).
  { subst d3. cbn [count modify with_config]. unfold act.
    destruct (overlay_ (ensure_overlay d)); reflexivity. }
  clearbody d3.
  assert (C4 : count (take_position msg d3) = count d3).
  { unfold take_position. destruct (negb (overtake_position_properties_ d3)); reflexivity. }
  set (d4 := take_position msg d3) in *. clearbody d4.
  destruct (take_background msg d4) as [d5|] eqn:E5; [|discriminate].
  destruct (take_foreground msg d5) as [d6|] eqn:E6; [|discriminate].
  injection H as <-.
  apply take_background_count in E5. apply take_foreground_count in E6.
  unfold mark_dirty. cbn [count modify with_config]. unfold reposition.
  destruct (overlay_ d6); cbn [count with_overlay_]; congruence.
Qed.

(** What a message leaves as it was. *)
Lemma processMessage_leaves (msg : OverlayText.t) (d d' : Display) :
  isEnabled d = true ->
  processMessage K msg d = Some d' ->
  properties d' = properties d
  /\ overtake_position_properties_ d' = overtake_position_properties_ d
  /\ overtake_fg_color_properties_ d' = overtake_fg_color_properties_ d
  /\ overtake_bg_color_properties_ d' = overtake_bg_color_properties_ d
  /\ font_families_ d' = font_families_ d
  /\ error_log d' = error_log d
  /\ align_bottom_ (config d') = align_bottom_ (config d)
  /\ invert_shadow_ (config d') = invert_shadow_ (config d)
  /\ exists o',
       overlay_ d' = Some o'
       /\ match overlay_ d with
          | Some o =>
              OverlayObject.name o' = OverlayObject.name o
              /\ count d' = count d
          | None =>
              OverlayObject.name o'
              = ("OverlayTextDisplayObject" ++ decimal (count d))%string
              /\ count d' = count d + 1
          end.
Proof.
  intros Hen H.
  destruct (processMessage_inv K msg d d' Hen H) as (S & (bg & fg & _ & _ & C) & O).
  destruct (surroundings_flags _ _ S) as (Fp & Ff & Fb & _ & Pr & Fm & El).
  pose proof (processMessage_count msg d d' Hen H) as Cn.
  destruct (stored_switches K msg bg fg d) as [A1 A2].
  repeat (split; [assumption || (rewrite C; assumption) |]).
  eexists. split; [exact O|].
  unfold ensured, ensure_overlay in *. unfold apply_action.
  destruct (overlay_ d) as [o|].
  - split; [|exact Cn].
    destruct (OverlayText.action msg =? OverlayText.DELETE K); [reflexivity|].
    destruct (OverlayText.action msg =? OverlayText.ADD K); reflexivity.
  - split; [|exact Cn].
    destruct (OverlayText.action msg =? OverlayText.DELETE K); [reflexivity|].
    destruct (OverlayText.action msg =? OverlayText.ADD K); reflexivity.
Qed.

(** X9. A message taken by an enabled display changes no property value,
    no overtake flag, not the font list, the error log, [align_bottom_] or
    [invert_shadow_]. Afterwards the overlay object exists: an object that
    existed keeps its name and the counter stays; otherwise the object is
    named after the counter, which goes up by one. *)
Theorem message_frame (msg : OverlayText.t) (d d' : Display) :
  isEnabled d = true ->
  processMessage K msg d = Some d' ->
  properties d' = properties d
  /\ overtake_position_properties_ d' = overtake_position_properties_ d
  /\ overtake_fg_color_properties_ d' = overtake_fg_color_properties_ d
  /\ overtake_bg_color_properties_ d' = overtake_bg_color_properties_ d
  /\ font_families_ d' = font_families_ d
  /\ error_log d' = error_log d
  /\ align_bottom_ (config d') = align_bottom_ (config d)
  /\ invert_shadow_ (config d') = invert_shadow_ (config d)
  /\ exists o',
       overlay_ d' = Some o'
       /\ match overlay_ d with
          | Some o =>
              OverlayObject.name o' = OverlayObject.name o
              /\ count d' = count d
          | None =>
              OverlayObject.name o'
              = ("OverlayTextDisplayObject" ++ decimal (count d))%string
              /\ count d' = count d + 1
          end.
Proof. exact (processMessage_leaves msg d d'). Qed.

End Frames.

(** * The overtake switches *)
Section Switches.

#[local] Arguments Float.scale255 : simpl never.
#[local] Arguments Float.floor255 : simpl never.
#[local] Arguments Z.ltb : simpl never.
#[local] Arguments Z.of_nat : simpl never.
#[local] Arguments Z.to_nat : simpl never.
#[local] Arguments nth_error : simpl never.
#[local] Arguments List.length : simpl never.
#[local] Arguments QColor.clamp : simpl never.
#[local] Arguments Host.shown : simpl never.
#[local] Arguments set_visible : simpl never.

Lemma shown_position (want : bool) (calls : list Host.call) (e : Entry.t) :
  In e position_entries ->
  Host.shown (set_visible want position_entries calls) e = Some want.
Proof.
  cbn [position_entries In]. intros H.
  repeat (destruct H as [<- | H]; [destruct want; reflexivity|]).
  destruct H.
Qed.

Lemma shown_fg (want : bool) (calls : list Host.call) (e : Entry.t) :
  In e fg_entries ->
  Host.shown (set_visible want fg_entries calls) e = Some want.
Proof.
  cbn [fg_entries In]. intros H.
  repeat (destruct H as [<- | H]; [destruct want; reflexivity|]).
  destruct H.
Qed.

Lemma shown_bg (want : bool) (calls : list Host.call) (e : Entry.t) :
  In e bg_entries ->
  Host.shown (set_visible want bg_entries calls) e = Some want.
Proof.
  cbn [bg_entries In]. intros H.
  repeat (destruct H as [<- | H]; [destruct want; reflexivity|]).
  destruct H.
Qed.

(** X10. Switching the position group from off to on takes the five
    position values from the properties at once, raises the update flag,
    sets the flag of the group and shows the five entries; the text, the
    colours, the font, the line width and the overlay object stay. *)
Theorem overtake_position_on (p : Plugin) :
  overtake_position_properties_ (display p) = false ->
  overtake_position_properties_property_ (properties (display p)) = true ->
  let p' := updateOvertakePositionProperties p in
  overtake_position_properties_ (display p') = true
  /\ position_from_properties (display p')
  /\ dirty (display p') = true
  /\ (forall e, In e position_entries ->
                Host.shown (host_calls p') e = Some true)
  /\ text_ (config (display p')) = text_ (config (display p))
  /\ fg_color_ (config (display p')) = fg_color_ (config (display p))
  /\ bg_color_ (config (display p')) = bg_color_ (config (display p))
  /\ font_ (config (display p')) = font_ (config (display p))
  /\ line_width_ (config (display p')) = line_width_ (config (display p))
  /\ overlay_ (display p') = overlay_ (display p)
  /\ properties (display p') = properties (display p).
Proof.
  destruct p as [d calls].
  destruct d as [c opos ofg obg fams props en ov cnt errs].
  cbn [display properties overtake_position_properties_]. intros -> Hw.
  unfold updateOvertakePositionProperties.
  cbn [display properties overtake_position_properties_ host_calls].
  rewrite Hw. cbn [negb andb].
  split; [reflexivity|]. split; [repeat split|]. split; [reflexivity|].
  split; [intros e He; apply shown_position, He|].
  repeat split.
Qed.

(** X11. Any other call of the position switch (the group was on already,
    or the property is off) leaves the whole configuration as it is, the
    update flag included: switching a group off does not bring back what
    the last message carried. The flag of the group and the five entries
    follow the property. *)
Theorem overtake_position_else (p : Plugin) :
  overtake_position_properties_ (display p) = true
  \/ overtake_position_properties_property_ (properties (display p)) = false ->
  let p' := updateOvertakePositionProperties p in
  config (display p') = config (display p)
  /\ overtake_position_properties_ (display p')
     = overtake_position_properties_property_ (properties (display p))
  /\ (forall e, In e position_entries ->
                Host.shown (host_calls p') e
                = Some (overtake_position_properties_property_
                          (properties (display p))))
  /\ overlay_ (display p') = overlay_ (display p)
  /\ properties (display p') = properties (display p).
Proof.
  destruct p as [d calls]. cbn [display]. intros H.
  unfold updateOvertakePositionProperties. cbn [display host_calls].
  assert (E : negb (overtake_position_properties_ d)
              && overtake_position_properties_property_ (properties d) = false).
  { destruct H as [-> | ->]; [reflexivity | apply andb_false_r]. }
  rewrite E. split; [reflexivity|]. split; [reflexivity|].
  split; [intros e He; apply shown_position, He|]. split; reflexivity.
Qed.


Lemma unit_alpha (a : spec_float) :
  Float.in_unit_interval a ->
  Float.scale255 a = Some (Float.floor255 a)
  /\ QColor.clamp (Float.floor255 a) = Float.floor255 a.
Proof.
  intros H. destruct (unit_channel_scaled a H) as [E R].
  split; [exact E|]. unfold QColor.in_range in R.
  apply andb_prop in R. destruct R as [R1 R2].
  apply Z.leb_le in R1, R2. unfold QColor.clamp. lia.
Qed.

Lemma font_lookup (fams : list string) (index : Z) :
  0 <= index ->
  (index <? 0) = false
  /\ match nth_error fams (Z.to_nat index) with
     | Some _ => (index <? Z.of_nat (List.length fams)) = true
     | None => (index <? Z.of_nat (List.length fams)) = false
     end.
Proof.
  intros H. split; [apply Z.ltb_ge; exact H|].
  destruct (nth_error fams (Z.to_nat index)) eqn:E.
  - apply Z.ltb_lt.
    assert (L : (Z.to_nat index < List.length fams)%nat).
    { apply nth_error_Some. congruence. }
    lia.
  - apply Z.ltb_ge. apply nth_error_None in E. lia.
Qed.

(** X12. Switching the foreground group from off to on takes colour, alpha
    and line width from the properties, raises the update flag, sets the
    flag of the group and shows the four entries. The font is taken too
    when its index names a family; with an index at or above the size of
    the list the stored font stays what the last message made it, and the
    index is reported. *)
Theorem overtake_foreground_on (p : Plugin) :
  overtake_fg_color_properties_ (display p) = false ->
  overtake_fg_color_properties_property_ (properties (display p)) = true ->
  Float.in_unit_interval (fg_alpha_property_ (properties (display p))) ->
  0 <= font_property_ (properties (display p)) ->
  exists p',
    updateOvertakeFGColorProperties p = Some p'
    /\ overtake_fg_color_properties_ (display p') = true
    /\ dirty (display p') = true
    /\ fg_color_ (config (display p'))
       = property_color (fg_color_property_ (properties (display p)))
           (fg_alpha_property_ (properties (display p)))
    /\ line_width_ (config (display p'))
       = line_width_property_ (properties (display p))
    /\ match nth_error (font_families_ (display p))
               (Z.to_nat (font_property_ (properties (display p)))) with
       | Some f =>
           font_ (config (display p')) = f
           /\ error_log (display p') = error_log (display p)
       | None =>
           font_ (config (display p')) = font_ (config (display p))
           /\ error_log (display p')
              = font_property_ (properties (display p))
                  :: error_log (display p)
       end
    /\ (forall e, In e fg_entries -> Host.shown (host_calls p') e = Some true)
    /\ text_ (config (display p')) = text_ (config (display p))
    /\ bg_color_ (config (display p')) = bg_color_ (config (display p))
    /\ overlay_ (display p') = overlay_ (display p)
    /\ properties (display p') = properties (display p).
Proof.
  destruct p as [d calls].
  destruct d as [c opos ofg obg fams props en ov cnt errs].
  cbn [display properties overtake_fg_color_properties_ font_families_
         config error_log overlay_].
  intros -> Hw Ha Hi.
  destruct (unit_alpha _ Ha) as [Ea Ca].
  destruct (font_lookup fams _ Hi) as [E0 El].
  unfold updateOvertakeFGColorProperties, pull_foreground, updateFGAlpha,
    updateFGColor, updateFont, updateLineWidth.
  cbn. rewrite Hw. cbn. rewrite Ea. cbn. rewrite E0.
  destruct (nth_error fams (Z.to_nat (font_property_ props))) as [f|] eqn:En;
    rewrite El; cbn.
  - eexists. split; [reflexivity|]. cbn.
    split; [reflexivity|]. split; [reflexivity|].
    split; [unfold property_color, QColor.setAlpha, copy_rgb; cbn;
            rewrite Ca; reflexivity|].
    split; [reflexivity|]. split; [split; reflexivity|].
    split; [intros e He; apply shown_fg, He|]. repeat split.
  - eexists. split; [reflexivity|]. cbn.
    split; [reflexivity|]. split; [reflexivity|].
    split; [unfold property_color, QColor.setAlpha, copy_rgb; cbn;
            rewrite Ca; reflexivity|].
    split; [reflexivity|]. split; [split; reflexivity|].
    split; [intros e He; apply shown_fg, He|]. repeat split.
Qed.

(** X13. Switching the background group from off to on takes colour and
    alpha from the properties, raises the update flag, sets the flag of
    the group and shows the two entries; nothing else of the configuration
    changes. *)
Theorem overtake_background_on (p : Plugin) :
  overtake_bg_color_properties_ (display p) = false ->
  overtake_bg_color_properties_property_ (properties (display p)) = true ->
  Float.in_unit_interval (bg_alpha_property_ (properties (display p))) ->
  exists p',
    updateOvertakeBGColorProperties p = Some p'
    /\ overtake_bg_color_properties_ (display p') = true
    /\ dirty (display p') = true
    /\ bg_color_ (config (display p'))
       = property_color (bg_color_property_ (properties (display p)))
           (bg_alpha_property_ (properties (display p)))
    /\ (forall e, In e bg_entries -> Host.shown (host_calls p') e = Some true)
    /\ set_bg_color_ (bg_color_ (config (display p)))
         (set_require_update_texture_
            (require_update_texture_ (config (display p)))
            (config (display p')))
       = config (display p)
    /\ overlay_ (display p') = overlay_ (display p)
    /\ properties (display p') = properties (display p).
Proof.
  destruct p as [d calls].
  destruct d as [c opos ofg obg fams props en ov cnt errs].
  cbn [display properties overtake_bg_color_properties_ config overlay_].
  intros -> Hw Ha.
  destruct (unit_alpha _ Ha) as [Ea Ca].
  unfold updateOvertakeBGColorProperties, pull_background, updateBGAlpha,
    updateBGColor.
  cbn. rewrite Hw. cbn. rewrite Ea. cbn.
  eexists. split; [reflexivity|]. cbn.
  split; [reflexivity|]. split; [reflexivity|].
  split; [unfold property_color, QColor.setAlpha, copy_rgb; cbn;
          rewrite Ca; reflexivity|].
  split; [intros e He; apply shown_bg, He|].
  split; [destruct c; reflexivity|]. split; reflexivity.
Qed.


(** X14. An alpha between 0 and 1, the range the constructor gives the two
    alpha properties, is always taken: the slot stores the floor of the
    alpha times 255 in the alpha channel, keeps the three colour channels,
    and raises the update flag exactly when the group is overtaken. This
    holds for the foreground and for the background alpha. *)
Theorem alpha_edit_on_range (a : spec_float) (d : Display) :
  Float.in_unit_interval a ->
  (exists d',
      apply_edit (EditFGAlpha a) d = Some d'
      /\ QColor.alpha (fg_color_ (config d')) = Float.floor255 a
      /\ QColor.red (fg_color_ (config d')) = QColor.red (fg_color_ (config d))
      /\ QColor.green (fg_color_ (config d')) = QColor.green (fg_color_ (config d))
      /\ QColor.blue (fg_color_ (config d')) = QColor.blue (fg_color_ (config d))
      /\ dirty d' = dirty d || overtake_fg_color_properties_ d)
  /\ (exists d',
         apply_edit (EditBGAlpha a) d = Some d'
         /\ QColor.alpha (bg_color_ (config d')) = Float.floor255 a
         /\ QColor.red (bg_color_ (config d')) = QColor.red (bg_color_ (config d))
         /\ QColor.green (bg_color_ (config d')) = QColor.green (bg_color_ (config d))
         /\ QColor.blue (bg_color_ (config d')) = QColor.blue (bg_color_ (config d))
         /\ dirty d' = dirty d || overtake_bg_color_properties_ d).
Proof.
  intros Ha. destruct (unit_alpha _ Ha) as [Ea Ca].
  destruct d as [c opos ofg obg fams props en ov cnt errs].
  destruct c as [tw th ab ish bg fg ts lw tx fn hd vd ha va flag].
  unfold apply_edit, updateFGAlpha, updateBGAlpha.
  cbn [slot store_edit properties with_properties]. split.
  - unfold updateFGAlpha. cbn. rewrite Ea.
    eexists. split; [reflexivity|].
    destruct ofg; cbn; rewrite Ca; repeat split;
      destruct flag; reflexivity.
  - unfold updateBGAlpha. cbn. rewrite Ea.
    eexists. split; [reflexivity|].
    destruct obg; cbn; rewrite Ca; repeat split;
      destruct flag; reflexivity.
Qed.

(** X15. Every option the constructor registers for the font property
    selects the family it was registered for: the slot stores that family,
    reports nothing, and raises the update flag exactly when the
    foreground group is overtaken. *)
Theorem registered_font_selected (f : string) (index : Z) (d : Display) :
  In (f, index) (font_options (font_families_ d)) ->
  exists d',
    apply_edit (EditFont index) d = Some d'
    /\ font_ (config d') = f
    /\ error_log d' = error_log d
    /\ dirty d' = dirty d || overtake_fg_color_properties_ d.
Proof.
  intros Hin. destruct (font_options_range _ _ _ Hin) as [[H0 Hl] Hn].
  destruct d as [c opos ofg obg fams props en ov cnt errs].
  destruct c as [tw th ab ish bg fg ts lw tx fn hd vd ha va flag].
  cbn [font_families_] in *.
  unfold apply_edit.
  cbn [slot store_edit properties with_properties]. unfold updateFont. cbn.
  apply Z.ltb_lt in Hl. apply Z.ltb_ge in H0. rewrite Hl, H0, Hn.
  eexists. split; [reflexivity|].
  destruct ofg, flag; repeat split.
Qed.


Lemma shown_all (wp wf wb : bool) (calls : list Host.call) (e : Entry.t) :
  Host.shown
    (set_visible wb bg_entries
       (set_visible wf fg_entries (set_visible wp position_entries calls))) e
  = Some (match e with
          | Entry.top | Entry.left | Entry.width | Entry.height
          | Entry.text_size => wp
          | Entry.fg_color | Entry.fg_alpha | Entry.line_width
          | Entry.font => wf
          | Entry.bg_color | Entry.bg_alpha => wb
          end).
Proof. destruct e, wp, wf, wb; reflexivity. Qed.

Lemma untouched_trans (d1 d2 d3 : Display) :
  untouched d1 d2 -> untouched d2 d3 -> untouched d1 d3.
Proof.
  intros (P1 & F1 & T1 & H1 & V1 & N1) (P2 & F2 & T2 & H2 & V2 & N2).
  repeat split; try congruence.
  intros E. rewrite N2, N1; [reflexivity | exact E |].
  rewrite P1, F1. exact E.
Qed.

Lemma position_switch_untouched (p : Plugin) :
  untouched (display p) (display (updateOvertakePositionProperties p))
  /\ overtake_position_properties_ (display (updateOvertakePositionProperties p))
     = overtake_position_properties_property_ (properties (display p))
  /\ host_calls (updateOvertakePositionProperties p)
     = set_visible (overtake_position_properties_property_ (properties (display p)))
         position_entries (host_calls p).
Proof.
  destruct p as [d calls].
  destruct d as [c opos ofg obg fams props en ov cnt errs].
  unfold updateOvertakePositionProperties, untouched. cbn.
  destruct opos, (overtake_position_properties_property_ props); cbn;
    repeat split.
Qed.

Lemma foreground_switch_untouched (p : Plugin) :
  Float.in_unit_interval (fg_alpha_property_ (properties (display p))) ->
  0 <= font_property_ (properties (display p)) ->
  exists p',
    updateOvertakeFGColorProperties p = Some p'
    /\ untouched (display p) (display p')
    /\ overtake_position_properties_ (display p')
       = overtake_position_properties_ (display p)
    /\ overtake_fg_color_properties_ (display p')
       = overtake_fg_color_properties_property_ (properties (display p))
    /\ host_calls p'
       = set_visible (overtake_fg_color_properties_property_ (properties (display p)))
           fg_entries (host_calls p).
Proof.
  destruct p as [d calls].
  destruct d as [c opos ofg obg fams props en ov cnt errs].
  cbn [display properties]. intros Ha Hi.
  destruct (unit_alpha _ Ha) as [Ea Ca].
  destruct (font_lookup fams _ Hi) as [E0 El].
  unfold updateOvertakeFGColorProperties, pull_foreground, updateFGAlpha,
    updateFont, untouched.
  cbn.
  destruct (nth_error fams (Z.to_nat (font_property_ props))) as [f|] eqn:En;
    destruct ofg, (overtake_fg_color_properties_property_ props);
    repeat (cbn; rewrite ?Ea, ?E0, ?El, ?En);
    (eexists; split; [reflexivity|]); cbn; rewrite ?En;
    repeat split; try discriminate.
Qed.

Lemma background_switch_untouched (p : Plugin) :
  Float.in_unit_interval (bg_alpha_property_ (properties (display p))) ->
  exists p',
    updateOvertakeBGColorProperties p = Some p'
    /\ untouched (display p) (display p')
    /\ overtake_position_properties_ (display p')
       = overtake_position_properties_ (display p)
    /\ overtake_fg_color_properties_ (display p')
       = overtake_fg_color_properties_ (display p)
    /\ overtake_bg_color_properties_ (display p')
       = overtake_bg_color_properties_property_ (properties (display p))
    /\ host_calls p'
       = set_visible (overtake_bg_color_properties_property_ (properties (display p)))
           bg_entries (host_calls p).
Proof.
  destruct p as [d calls].
  destruct d as [c opos ofg obg fams props en ov cnt errs].
  cbn [display properties]. intros Ha.
  destruct (unit_alpha _ Ha) as [Ea Ca].
  unfold updateOvertakeBGColorProperties, pull_background, updateBGAlpha,
    untouched.
  cbn.
  destruct obg, (overtake_bg_color_properties_property_ props);
    repeat (cbn; rewrite ?Ea);
    (eexists; split; [reflexivity|]); cbn; repeat split.
Qed.

(** The slots on a display written out field by field. *)
Ltac slot_equation :=
  intros;
  unfold updateAlignBottom, updateInvertShadow, updateTop, updateLeft,
    updateWidth, updateHeight, updateTextSize, updateFGColor, updateBGColor,
    updateFGAlpha, updateBGAlpha, updateFont, updateLineWidth, dirty_if,
    mark_dirty;
  cbn;
  repeat match goal with
         | H : _ = _ |- _ => rewrite H; cbn
         end;
  repeat match goal with
         | |- context [if ?b then _ else _] => destruct b; cbn
         end;
  reflexivity.

Lemma updateAlignBottom_fields
    (tw th : Z) (ab ish : bool) (bg fg : QColor.t) (ts lw : Z)
    (tx fn : string) (hd vd : Z) (ha : HorizontalAlignment.t)
    (va : VerticalAlignment.t) (flag opos ofg obg : bool)
    (fams : list string) (props : Properties) (en : bool)
    (ov : option OverlayObject.t) (cnt : Z) (errs : list Z) :
  updateAlignBottom
    (Build_Display
       (Build_RenderConfig tw th ab ish bg fg ts lw tx fn hd vd ha va flag)
       opos ofg obg fams props en ov cnt errs)
  = (Build_Display
       (Build_RenderConfig tw th (align_bottom_property_ props) ish bg fg ts lw tx fn hd vd ha va (if Bool.eqb ab (align_bottom_property_ props) then flag else true))
       opos ofg obg fams props en ov cnt errs).
Proof. slot_equation. Qed.

Lemma updateInvertShadow_fields
    (tw th : Z) (ab ish : bool) (bg fg : QColor.t) (ts lw : Z)
    (tx fn : string) (hd vd : Z) (ha : HorizontalAlignment.t)
    (va : VerticalAlignment.t) (flag opos ofg obg : bool)
    (fams : list string) (props : Properties) (en : bool)
    (ov : option OverlayObject.t) (cnt : Z) (errs : list Z) :
  updateInvertShadow
    (Build_Display
       (Build_RenderConfig tw th ab ish bg fg ts lw tx fn hd vd ha va flag)
       opos ofg obg fams props en ov cnt errs)
  = (Build_Display
       (Build_RenderConfig tw th ab (invert_shadow_property_ props) bg fg ts lw tx fn hd vd ha va (if Bool.eqb ish (invert_shadow_property_ props) then flag else true))
       opos ofg obg fams props en ov cnt errs).
Proof. slot_equation. Qed.

Lemma updateTop_fields
    (tw th : Z) (ab ish : bool) (bg fg : QColor.t) (ts lw : Z)
    (tx fn : string) (hd vd : Z) (ha : HorizontalAlignment.t)
    (va : VerticalAlignment.t) (flag opos ofg obg : bool)
    (fams : list string) (props : Properties) (en : bool)
    (ov : option OverlayObject.t) (cnt : Z) (errs : list Z) :
  updateTop
    (Build_Display
       (Build_RenderConfig tw th ab ish bg fg ts lw tx fn hd vd ha va flag)
       opos ofg obg fams props en ov cnt errs)
  = (Build_Display
       (Build_RenderConfig tw th ab ish bg fg ts lw tx fn hd (top_property_ props) ha va (opos || flag))
       opos ofg obg fams props en ov cnt errs).
Proof. slot_equation. Qed.

Lemma updateLeft_fields
    (tw th : Z) (ab ish : bool) (bg fg : QColor.t) (ts lw : Z)
    (tx fn : string) (hd vd : Z) (ha : HorizontalAlignment.t)
    (va : VerticalAlignment.t) (flag opos ofg obg : bool)
    (fams : list string) (props : Properties) (en : bool)
    (ov : option OverlayObject.t) (cnt : Z) (errs : list Z) :
  updateLeft
    (Build_Display
       (Build_RenderConfig tw th ab ish bg fg ts lw tx fn hd vd ha va flag)
       opos ofg obg fams props en ov cnt errs)
  = (Build_Display
       (Build_RenderConfig tw th ab ish bg fg ts lw tx fn (left_property_ props) vd ha va (opos || flag))
       opos ofg obg fams props en ov cnt errs).
Proof. slot_equation. Qed.

Lemma updateWidth_fields
    (tw th : Z) (ab ish : bool) (bg fg : QColor.t) (ts lw : Z)
    (tx fn : string) (hd vd : Z) (ha : HorizontalAlignment.t)
    (va : VerticalAlignment.t) (flag opos ofg obg : bool)
    (fams : list string) (props : Properties) (en : bool)
    (ov : option OverlayObject.t) (cnt : Z) (errs : list Z) :
  updateWidth
    (Build_Display
       (Build_RenderConfig tw th ab ish bg fg ts lw tx fn hd vd ha va flag)
       opos ofg obg fams props en ov cnt errs)
  = (Build_Display
       (Build_RenderConfig (width_property_ props) th ab ish bg fg ts lw tx fn hd vd ha va (opos || flag))
       opos ofg obg fams props en ov cnt errs).
Proof. slot_equation. Qed.

Lemma updateHeight_fields
    (tw th : Z) (ab ish : bool) (bg fg : QColor.t) (ts lw : Z)
    (tx fn : string) (hd vd : Z) (ha : HorizontalAlignment.t)
    (va : VerticalAlignment.t) (flag opos ofg obg : bool)
    (fams : list string) (props : Properties) (en : bool)
    (ov : option OverlayObject.t) (cnt : Z) (errs : list Z) :
  updateHeight
    (Build_Display
       (Build_RenderConfig tw th ab ish bg fg ts lw tx fn hd vd ha va flag)
       opos ofg obg fams props en ov cnt errs)
  = (Build_Display
       (Build_RenderConfig tw (height_property_ props) ab ish bg fg ts lw tx fn hd vd ha va (opos || flag))
       opos ofg obg fams props en ov cnt errs).
Proof. slot_equation. Qed.

Lemma updateTextSize_fields
    (tw th : Z) (ab ish : bool) (bg fg : QColor.t) (ts lw : Z)
    (tx fn : string) (hd vd : Z) (ha : HorizontalAlignment.t)
    (va : VerticalAlignment.t) (flag opos ofg obg : bool)
    (fams : list string) (props : Properties) (en : bool)
    (ov : option OverlayObject.t) (cnt : Z) (errs : list Z) :
  updateTextSize
    (Build_Display
       (Build_RenderConfig tw th ab ish bg fg ts lw tx fn hd vd ha va flag)
       opos ofg obg fams props en ov cnt errs)
  = (Build_Display
       (Build_RenderConfig tw th ab ish bg fg (text_size_property_ props) lw tx fn hd vd ha va (opos || flag))
       opos ofg obg fams props en ov cnt errs).
Proof. slot_equation. Qed.

Lemma updateLineWidth_fields
    (tw th : Z) (ab ish : bool) (bg fg : QColor.t) (ts lw : Z)
    (tx fn : string) (hd vd : Z) (ha : HorizontalAlignment.t)
    (va : VerticalAlignment.t) (flag opos ofg obg : bool)
    (fams : list string) (props : Properties) (en : bool)
    (ov : option OverlayObject.t) (cnt : Z) (errs : list Z) :
  updateLineWidth
    (Build_Display
       (Build_RenderConfig tw th ab ish bg fg ts lw tx fn hd vd ha va flag)
       opos ofg obg fams props en ov cnt errs)
  = (Build_Display
       (Build_RenderConfig tw th ab ish bg fg ts (line_width_property_ props) tx fn hd vd ha va (ofg || flag))
       opos ofg obg fams props en ov cnt errs).
Proof. slot_equation. Qed.

Lemma updateFGColor_fields
    (tw th : Z) (ab ish : bool) (bg fg : QColor.t) (ts lw : Z)
    (tx fn : string) (hd vd : Z) (ha : HorizontalAlignment.t)
    (va : VerticalAlignment.t) (flag opos ofg obg : bool)
    (fams : list string) (props : Properties) (en : bool)
    (ov : option OverlayObject.t) (cnt : Z) (errs : list Z) :
  updateFGColor
    (Build_Display
       (Build_RenderConfig tw th ab ish bg fg ts lw tx fn hd vd ha va flag)
       opos ofg obg fams props en ov cnt errs)
  = (Build_Display
       (Build_RenderConfig tw th ab ish bg (copy_rgb (fg_color_property_ props) fg) ts lw tx fn hd vd ha va (ofg || flag))
       opos ofg obg fams props en ov cnt errs).
Proof. slot_equation. Qed.

Lemma updateBGColor_fields
    (tw th : Z) (ab ish : bool) (bg fg : QColor.t) (ts lw : Z)
    (tx fn : string) (hd vd : Z) (ha : HorizontalAlignment.t)
    (va : VerticalAlignment.t) (flag opos ofg obg : bool)
    (fams : list string) (props : Properties) (en : bool)
    (ov : option OverlayObject.t) (cnt : Z) (errs : list Z) :
  updateBGColor
    (Build_Display
       (Build_RenderConfig tw th ab ish bg fg ts lw tx fn hd vd ha va flag)
       opos ofg obg fams props en ov cnt errs)
  = (Build_Display
       (Build_RenderConfig tw th ab ish (copy_rgb (bg_color_property_ props) bg) fg ts lw tx fn hd vd ha va (obg || flag))
       opos ofg obg fams props en ov cnt errs).
Proof. slot_equation. Qed.

Lemma updateFGAlpha_fields
    (tw th : Z) (ab ish : bool) (bg fg : QColor.t) (ts lw : Z)
    (tx fn : string) (hd vd : Z) (ha : HorizontalAlignment.t)
    (va : VerticalAlignment.t) (flag opos ofg obg : bool)
    (fams : list string) (props : Properties) (en : bool)
    (ov : option OverlayObject.t) (cnt : Z) (errs : list Z) (a : Z) :
  Float.scale255 (fg_alpha_property_ props) = Some a ->
  updateFGAlpha
    (Build_Display
       (Build_RenderConfig tw th ab ish bg fg ts lw tx fn hd vd ha va flag)
       opos ofg obg fams props en ov cnt errs)
  = Some
    (Build_Display
       (Build_RenderConfig tw th ab ish bg (QColor.setAlpha a fg) ts lw tx fn hd vd ha va (ofg || flag))
       opos ofg obg fams props en ov cnt errs).
Proof. slot_equation. Qed.

Lemma updateBGAlpha_fields
    (tw th : Z) (ab ish : bool) (bg fg : QColor.t) (ts lw : Z)
    (tx fn : string) (hd vd : Z) (ha : HorizontalAlignment.t)
    (va : VerticalAlignment.t) (flag opos ofg obg : bool)
    (fams : list string) (props : Properties) (en : bool)
    (ov : option OverlayObject.t) (cnt : Z) (errs : list Z) (a : Z) :
  Float.scale255 (bg_alpha_property_ props) = Some a ->
  updateBGAlpha
    (Build_Display
       (Build_RenderConfig tw th ab ish bg fg ts lw tx fn hd vd ha va flag)
       opos ofg obg fams props en ov cnt errs)
  = Some
    (Build_Display
       (Build_RenderConfig tw th ab ish (QColor.setAlpha a bg) fg ts lw tx fn hd vd ha va (obg || flag))
       opos ofg obg fams props en ov cnt errs).
Proof. slot_equation. Qed.

Lemma updateFont_found
    (tw th : Z) (ab ish : bool) (bg fg : QColor.t) (ts lw : Z)
    (tx fn : string) (hd vd : Z) (ha : HorizontalAlignment.t)
    (va : VerticalAlignment.t) (flag opos ofg obg : bool)
    (fams : list string) (props : Properties) (en : bool)
    (ov : option OverlayObject.t) (cnt : Z) (errs : list Z) (f : string) :
  (font_property_ props <? 0) = false ->
  (font_property_ props <? Z.of_nat (List.length fams)) = true ->
  nth_error fams (Z.to_nat (font_property_ props)) = Some f ->
  updateFont
    (Build_Display
       (Build_RenderConfig tw th ab ish bg fg ts lw tx fn hd vd ha va flag)
       opos ofg obg fams props en ov cnt errs)
  = Some
    (Build_Display
       (Build_RenderConfig tw th ab ish bg fg ts lw tx (f) hd vd ha va (ofg || flag))
       opos ofg obg fams props en ov cnt errs).
Proof. slot_equation. Qed.

Lemma updateFont_missing
    (tw th : Z) (ab ish : bool) (bg fg : QColor.t) (ts lw : Z)
    (tx fn : string) (hd vd : Z) (ha : HorizontalAlignment.t)
    (va : VerticalAlignment.t) (flag opos ofg obg : bool)
    (fams : list string) (props : Properties) (en : bool)
    (ov : option OverlayObject.t) (cnt : Z) (errs : list Z) :
  (font_property_ props <? Z.of_nat (List.length fams)) = false ->
  updateFont
    (Build_Display
       (Build_RenderConfig tw th ab ish bg fg ts lw tx fn hd vd ha va flag)
       opos ofg obg fams props en ov cnt errs)
  = Some
    (Build_Display
       (Build_RenderConfig tw th ab ish bg fg ts lw tx fn hd vd ha va flag)
       opos ofg obg fams props en ov cnt (font_property_ props :: errs)).
Proof. slot_equation. Qed.

Lemma initial_slots_take (d : Display) :
  Float.in_unit_interval (fg_alpha_property_ (properties d)) ->
  Float.in_unit_interval (bg_alpha_property_ (properties d)) ->
  0 <= font_property_ (properties d) ->
  exists d',
    initial_slots d = Some d'
    /\ untouched d d'
    /\ dirty d' = true
    /\ position_from_properties d'
    /\ align_bottom_ (config d') = align_bottom_property_ (properties d)
    /\ invert_shadow_ (config d') = invert_shadow_property_ (properties d)
    /\ line_width_ (config d') = line_width_property_ (properties d)
    /\ fg_color_ (config d')
       = property_color (fg_color_property_ (properties d))
           (fg_alpha_property_ (properties d))
    /\ bg_color_ (config d')
       = property_color (bg_color_property_ (properties d))
           (bg_alpha_property_ (properties d))
    /\ overtake_position_properties_ d' = overtake_position_properties_ d
    /\ overtake_fg_color_properties_ d' = overtake_fg_color_properties_ d
    /\ overtake_bg_color_properties_ d' = overtake_bg_color_properties_ d
    /\ (forall f,
           nth_error (font_families_ d) (Z.to_nat (font_property_ (properties d)))
           = Some f -> font_ (config d') = f).
Proof.
  destruct d as [c opos ofg obg fams props en ov cnt errs].
  destruct c as [tw th ab ish bg fg ts lw tx fn hd vd ha va flag].
  cbn [properties]. intros Ha Hb Hi.
  destruct (unit_alpha _ Ha) as [Ea Ca].
  destruct (unit_alpha _ Hb) as [Eb Cb].
  destruct (font_lookup fams _ Hi) as [E0 El].
  unfold initial_slots. cbv zeta.
  rewrite updateAlignBottom_fields, updateInvertShadow_fields, updateTop_fields,
    updateLeft_fields, updateWidth_fields, updateHeight_fields,
    updateTextSize_fields, updateFGColor_fields.
  rewrite updateFGAlpha_fields
    with (a := Float.floor255 (fg_alpha_property_ props)) by exact Ea.
  rewrite updateBGColor_fields.
  rewrite updateBGAlpha_fields
    with (a := Float.floor255 (bg_alpha_property_ props)) by exact Eb.
  destruct (nth_error fams (Z.to_nat (font_property_ props))) as [f|] eqn:En.
  - rewrite updateFont_found with (f := f) by assumption.
    rewrite updateLineWidth_fields.
    eexists. split; [reflexivity|].
    unfold untouched, position_from_properties, property_color, dirty, copy_rgb.
    cbn. rewrite ?En.
    repeat split; try discriminate; try (intros ? [= <-]; reflexivity);
      unfold QColor.setAlpha, QColor.setBlue, QColor.setGreen, QColor.setRed;
      cbn; rewrite ?Ca, ?Cb; reflexivity.
  - rewrite updateFont_missing by assumption.
    rewrite updateLineWidth_fields.
    eexists. split; [reflexivity|].
    unfold untouched, position_from_properties, property_color, dirty, copy_rgb.
    cbn. rewrite ?En.
    repeat split; try discriminate;
      unfold QColor.setAlpha, QColor.setBlue, QColor.setGreen, QColor.setRed;
      cbn; rewrite ?Ca, ?Cb; reflexivity.
Qed.

(** X16. Whatever the member variables held before, among them the ones
    the constructor does not set, [onInitialize] leaves the values of the
    properties in them: the five position values, the two colours with
    their alphas, the line width, [align_bottom_], [invert_shadow_] and
    the three overtake flags, with the update flag raised and every entry
    of the property tree shown or hidden as the overtake property of its
    group says. The text and the two alignments are not set, and the font
    is set when its index names a family. *)
Theorem onInitialize_takes_properties (p : Plugin) :
  Float.in_unit_interval (fg_alpha_property_ (properties (display p))) ->
  Float.in_unit_interval (bg_alpha_property_ (properties (display p))) ->
  0 <= font_property_ (properties (display p)) ->
  exists p',
    onInitialize p = Some p'
    /\ properties (display p') = properties (display p)
    /\ dirty (display p') = true
    /\ position_from_properties (display p')
    /\ align_bottom_ (config (display p'))
       = align_bottom_property_ (properties (display p))
    /\ invert_shadow_ (config (display p'))
       = invert_shadow_property_ (properties (display p))
    /\ line_width_ (config (display p'))
       = line_width_property_ (properties (display p))
    /\ fg_color_ (config (display p'))
       = property_color (fg_color_property_ (properties (display p)))
           (fg_alpha_property_ (properties (display p)))
    /\ bg_color_ (config (display p'))
       = property_color (bg_color_property_ (properties (display p)))
           (bg_alpha_property_ (properties (display p)))
    /\ overtake_position_properties_ (display p')
       = overtake_position_properties_property_ (properties (display p))
    /\ overtake_fg_color_properties_ (display p')
       = overtake_fg_color_properties_property_ (properties (display p))
    /\ overtake_bg_color_properties_ (display p')
       = overtake_bg_color_properties_property_ (properties (display p))
    /\ text_ (config (display p')) = text_ (config (display p))
    /\ horizontal_alignment_ (config (display p'))
       = horizontal_alignment_ (config (display p))
    /\ vertical_alignment_ (config (display p'))
       = vertical_alignment_ (config (display p))
    /\ match nth_error (font_families_ (display p))
               (Z.to_nat (font_property_ (properties (display p)))) with
       | Some f => font_ (config (display p')) = f
       | None => font_ (config (display p')) = font_ (config (display p))
       end
    /\ (forall e,
           Host.shown (host_calls p') e
           = Some (entry_wanted (properties (display p)) e)).
Proof.
  intros Ha Hb Hi. unfold onInitialize.
  set (p0 := called Host.UpdateTopic
               (onEnable (called Host.PrepareOverlays
                            (called Host.BaseOnInitialize p)))).
  assert (U0 : untouched (display p) (display p0)).
  { subst p0. destruct p as [d calls]. cbn. unfold on_overlay, untouched.
    destruct (overlay_ d); cbn; repeat split. }
  destruct U0 as (P0 & F0 & T0 & H0 & V0 & N0).
  assert (U0 : untouched (display p) (display p0)) by (repeat split; assumption).
  clearbody p0.
  destruct (position_switch_untouched p0) as (U1 & G1 & C1).
  set (p1 := updateOvertakePositionProperties p0) in *. clearbody p1.
  destruct U1 as (P1 & F1 & T1 & H1 & V1 & N1).
  assert (U1 : untouched (display p0) (display p1)) by (repeat split; assumption).
  destruct (foreground_switch_untouched p1) as (p2 & E2 & U2 & G2p & G2 & C2);
    [rewrite P1, P0; exact Ha | rewrite P1, P0; exact Hi |].
  rewrite E2.
  destruct U2 as (P2 & F2 & T2 & H2 & V2 & N2).
  assert (U2 : untouched (display p1) (display p2)) by (repeat split; assumption).
  destruct (background_switch_untouched p2) as (p3 & E3 & U3 & G3p & G3f & G3 & C3);
    [rewrite P2, P1, P0; exact Hb |].
  rewrite E3.
  destruct U3 as (P3 & F3 & T3 & H3 & V3 & N3).
  assert (U3 : untouched (display p2) (display p3)) by (repeat split; assumption).
  assert (PP : properties (display p3) = properties (display p)) by congruence.
  destruct (initial_slots_take (display p3))
    as (d4 & E4 & U4 & D4 & Pos4 & A4 & I4 & L4 & Fg4 & Bg4 & Gp & Gf & Gb & Fn4);
    [rewrite PP; exact Ha | rewrite PP; exact Hb | rewrite PP; exact Hi |].
  rewrite E4.
  pose proof (untouched_trans _ _ _ U0
                (untouched_trans _ _ _ U1
                   (untouched_trans _ _ _ U2 (untouched_trans _ _ _ U3 U4))))
    as (Pf & Ff & Tf & Hf & Vf & Nf).
  eexists. split; [reflexivity|]. cbn [display host_calls].
  split; [exact Pf|]. split; [exact D4|].
  split; [exact Pos4|].
  rewrite PP in A4, I4, L4, Fg4, Bg4.
  do 5 (split; [assumption|]).
  split; [congruence|]. split; [congruence|]. split; [congruence|].
  do 3 (split; [assumption|]).
  split.
  - destruct (nth_error (font_families_ (display p))
                (Z.to_nat (font_property_ (properties (display p))))) as [f|] eqn:En.
    + apply Fn4. rewrite PP. replace (font_families_ (display p3))
        with (font_families_ (display p)) by congruence. exact En.
    + apply Nf. reflexivity.
  - intros e. rewrite C3, C2, C1, P2, P1, P0. rewrite shown_all.
    destruct e; reflexivity.
Qed.

End Switches.

(** * Runs of callbacks *)
Section Runs.

#[local] Arguments Float.scale255 : simpl never.
#[local] Arguments Z.ltb : simpl never.
#[local] Arguments Z.of_nat : simpl never.
#[local] Arguments Z.to_nat : simpl never.
#[local] Arguments nth_error : simpl never.
#[local] Arguments List.length : simpl never.
#[local] Arguments set_visible : simpl never.
#[local] Arguments decimal : simpl never.
#[local] Arguments String.append : simpl never.

Variable K : OverlayText.Constants.
Variable boundingRect_height : option QFont -> Z -> Z -> string -> Z.
Variable granted : Z -> Z -> Z * Z.

Local Abbreviation tick := (update boundingRect_height granted).

Lemma same_object_refl (d : Display) : same_object d d.
Proof. unfold same_object. destruct (overlay_ d); auto. Qed.

Lemma same_object_trans (d1 d2 d3 : Display) :
  same_object d1 d2 -> same_object d2 d3 -> same_object d1 d3.
Proof.
  unfold same_object.
  destruct (overlay_ d1), (overlay_ d2), (overlay_ d3); try tauto.
  - intros [N1 C1] [N2 C2]. split; congruence.
  - intros [N1 C1] [N2 C2]. split; congruence.
  - intros C1 [N2 C2]. rewrite C1 in *. split; assumption.
  - intros C1 C2. congruence.
Qed.

Lemma same_object_shell (d d' : Display) :
  overlay_ d' = overlay_ d -> count d' = count d -> same_object d d'.
Proof.
  intros O C. unfold same_object. rewrite O.
  destruct (overlay_ d); auto.
Qed.

Lemma processMessage_off (msg : OverlayText.t) (d : Display) :
  isEnabled d = false -> processMessage K msg d = Some d.
Proof. intros E. unfold processMessage. rewrite E. reflexivity. Qed.

Lemma message_kept (msg : OverlayText.t) (d d' : Display) :
  processMessage K msg d = Some d' -> kept d d'.
Proof.
  intros H. destruct (isEnabled d) eqn:Hen.
  - destruct (processMessage_leaves K msg d d' Hen H)
      as (_ & _ & _ & _ & _ & _ & _ & _ & o' & O & M).
    destruct (processMessage_inv K msg d d' Hen H) as (_ & (bg & fg & _ & _ & C) & _).
    split.
    + unfold same_object. rewrite O. destruct (overlay_ d); exact M.
    + intros _. unfold dirty. rewrite C. reflexivity.
  - rewrite (processMessage_off msg d Hen) in H. injection H as <-.
    split; [apply same_object_refl | auto].
Qed.

Lemma edit_kept (e : PropertyEdit) (d d' : Display) :
  apply_edit e d = Some d' -> kept d d'.
Proof.
  intros H. split.
  - destruct (apply_edit_shell e d d' H) as (O & C & _).
    apply same_object_shell; assumption.
  - revert H.
    destruct d as [c opos ofg obg fams props en ov cnt errs].
    destruct c as [tw th ab ish bg fg ts lw tx fn hd vd ha va flag].
    unfold dirty. cbn [config require_update_texture_]. intros H ->.
    unfold apply_edit in H.
    destruct e; cbn [slot store_edit properties with_properties] in H.
    + injection H as <-. unfold updateAlignBottom. cbn.
      destruct (Bool.eqb ab v); reflexivity.
    + injection H as <-. unfold updateInvertShadow. cbn.
      destruct (Bool.eqb ish v); reflexivity.
    + injection H as <-. destruct opos; reflexivity.
    + injection H as <-. destruct opos; reflexivity.
    + injection H as <-. destruct opos; reflexivity.
    + injection H as <-. destruct opos; reflexivity.
    + injection H as <-. destruct opos; reflexivity.
    + injection H as <-. destruct ofg; reflexivity.
    + injection H as <-. destruct ofg; reflexivity.
    + unfold updateFGAlpha in H. cbn in H.
      destruct (Float.scale255 v); [|discriminate].
      injection H as <-. destruct ofg; reflexivity.
    + injection H as <-. destruct obg; reflexivity.
    + unfold updateBGAlpha in H. cbn in H.
      destruct (Float.scale255 v); [|discriminate].
      injection H as <-. destruct obg; reflexivity.
    + unfold updateFont in H. cbn in H.
      destruct (index <? Z.of_nat (List.length fams)).
      * destruct (index <? 0); [discriminate|].
        destruct (nth_error fams (Z.to_nat index)); [|discriminate].
        injection H as <-. destruct ofg; reflexivity.
      * injection H as <-. reflexivity.
Qed.

Lemma position_switch_kept (v : bool) (p : Plugin) :
  kept (display p)
    (display (updateOvertakePositionProperties
                (on_display
                   (fun d => with_properties
                               (put_overtake_position_properties_property_ v
                                  (properties d)) d) p))).
Proof.
  destruct p as [d calls].
  destruct d as [c opos ofg obg fams props en ov cnt errs].
  destruct c as [tw th ab ish bg fg ts lw tx fn hd vd ha va flag].
  unfold updateOvertakePositionProperties, on_display, kept, same_object, dirty.
  destruct opos, v, ov; cbn; auto.
Qed.

Lemma foreground_switch_kept (v : bool) (p p' : Plugin) :
  updateOvertakeFGColorProperties
    (on_display
       (fun d => with_properties
                   (put_overtake_fg_color_properties_property_ v
                      (properties d)) d) p) = Some p' ->
  kept (display p) (display p').
Proof.
  destruct p as [d calls].
  destruct d as [c opos ofg obg fams props en ov cnt errs].
  destruct c as [tw th ab ish bg fg ts lw tx fn hd vd ha va flag].
  unfold updateOvertakeFGColorProperties, on_display, pull_foreground,
    updateFGAlpha, updateFGColor, updateFont, updateLineWidth, dirty_if,
    kept, same_object, dirty.
  destruct ofg, v; cbn; try (intros [= <-]; destruct ov; cbn; auto).
  destruct (Float.scale255 _); [|discriminate]. cbn.
  destruct (_ <? Z.of_nat _); cbn.
  - destruct (_ <? 0); [discriminate|].
    destruct (nth_error _ _); [|discriminate]. cbn.
    intros [= <-]; destruct ov; cbn; auto.
  - intros [= <-]; destruct ov; cbn; auto.
Qed.

Lemma background_switch_kept (v : bool) (p p' : Plugin) :
  updateOvertakeBGColorProperties
    (on_display
       (fun d => with_properties
                   (put_overtake_bg_color_properties_property_ v
                      (properties d)) d) p) = Some p' ->
  kept (display p) (display p').
Proof.
  destruct p as [d calls].
  destruct d as [c opos ofg obg fams props en ov cnt errs].
  destruct c as [tw th ab ish bg fg ts lw tx fn hd vd ha va flag].
  unfold updateOvertakeBGColorProperties, on_display, pull_background,
    updateBGAlpha, updateBGColor, dirty_if, kept, same_object, dirty.
  destruct obg, v; cbn; try (intros [= <-]; destruct ov; cbn; auto).
  destruct (Float.scale255 _); [|discriminate]. cbn.
  intros [= <-]; destruct ov; cbn; auto.
Qed.

Lemma on_overlay_kept (f : OverlayObject.t -> OverlayObject.t) (d : Display) :
  (forall o, OverlayObject.name (f o) = OverlayObject.name o) ->
  kept d (on_overlay f d).
Proof.
  intros N. unfold kept, same_object, on_overlay, dirty.
  destruct (overlay_ d) as [o|] eqn:O; cbn; rewrite ?O; auto.
Qed.

Lemma tick_same_object (d : Display) : same_object d (tick d).
Proof.
  destruct (update_leaves boundingRect_height granted d) as (_ & _ & C & O).
  unfold same_object.
  destruct (overlay_ d), (overlay_ (tick d)); try tauto.
Qed.

Lemma handle_kept (ev : Event) (p p' : Plugin) :
  handle K boundingRect_height granted ev p = Some p' ->
  same_object (display p) (display p')
  /\ (ev <> Tick -> dirty (display p) = true -> dirty (display p') = true).
Proof.
  destruct ev; unfold handle, lift; intros H.
  - destruct (processMessage K msg (display p)) as [d'|] eqn:E; [|discriminate].
    injection H as <-. destruct (message_kept _ _ _ E). split; auto.
  - injection H as <-. split; [apply tick_same_object | congruence].
  - destruct (apply_edit e (display p)) as [d'|] eqn:E; [|discriminate].
    injection H as <-. destruct (edit_kept _ _ _ E). split; auto.
  - injection H as <-. destruct (position_switch_kept v p). split; auto.
  - destruct (foreground_switch_kept v p p' H). split; auto.
  - destruct (background_switch_kept v p p' H). split; auto.
  - injection H as <-.
    destruct (on_overlay_kept OverlayObject.show (display p)); [reflexivity|].
    split; auto.
  - injection H as <-.
    destruct (on_overlay_kept OverlayObject.hide (display p)); [reflexivity|].
    split; auto.
  - injection H as <-.
    destruct (on_overlay_kept OverlayObject.hide (display p)); [reflexivity|].
    split; auto.
  - injection H as <-. split; [|auto].
    apply same_object_shell; reflexivity.
  - injection H as <-. split; [|auto].
    apply same_object_shell; reflexivity.
Qed.

(** X17. Whatever callbacks run in whatever order, a display holds at most
    one overlay object for good: an object that exists is never released,
    replaced or renamed and the counter stands still; a display without
    one ends without one, or with one named after the value the counter
    had, and the counter one higher. *)
Theorem one_overlay_object (events : list Event) (p p' : Plugin) :
  run K boundingRect_height granted events p = Some p' ->
  same_object (display p) (display p').
Proof.
  revert p. induction events as [|ev rest IH]; intros p H; cbn [run] in H.
  - injection H as <-. apply same_object_refl.
  - destruct (handle K boundingRect_height granted ev p) as [q|] eqn:E;
      [|discriminate].
    apply (same_object_trans _ (display q)).
    + apply (handle_kept ev p q E).
    + apply IH. exact H.
Qed.

(** X18. A raised update flag is lowered by nothing but a render that took
    place: the callback was [update], the display was enabled and it had
    its overlay object. *)
Theorem flag_lowered_by_render (ev : Event) (p p' : Plugin) :
  handle K boundingRect_height granted ev p = Some p' ->
  dirty (display p) = true ->
  dirty (display p') = false ->
  ev = Tick
  /\ isEnabled (display p) = true
  /\ exists o, overlay_ (display p) = Some o
               /\ overlay_ (display p')
                  = Some (render boundingRect_height granted
                            (config (display p)) o).
Proof.
  intros H Hd Hd'.
  destruct (handle_kept ev p p' H) as [_ M].
  assert (T : ev = Tick).
  { destruct ev; try reflexivity;
      (rewrite M in Hd'; [discriminate | discriminate | exact Hd]). }
  subst ev. cbn [handle] in H. injection H as <-.
  cbn [display on_display] in Hd' |- *.
  split; [reflexivity|].
  destruct (isEnabled (display p)) eqn:He.
  - split; [reflexivity|].
    destruct (overlay_ (display p)) as [o|] eqn:Ho.
    + exists o. split; [reflexivity|].
      rewrite (update_render _ _ (display p) o Hd He Ho). reflexivity.
    + rewrite (update_skip _ _ (display p)) in Hd' by (right; right; exact Ho).
      congruence.
  - rewrite (update_skip _ _ (display p)) in Hd' by (right; left; exact He).
    congruence.
Qed.

Lemma position_shell (d d' : Display) :
  overtake_position_properties_ d' = overtake_position_properties_ d ->
  properties d' = properties d ->
  vertical_dist_ (config d') = vertical_dist_ (config d) ->
  horizontal_dist_ (config d') = horizontal_dist_ (config d) ->
  texture_width_ (config d') = texture_width_ (config d) ->
  texture_height_ (config d') = texture_height_ (config d) ->
  text_size_ (config d') = text_size_ (config d) ->
  position_follows d -> position_follows d'.
Proof.
  unfold position_follows, position_from_properties.
  intros -> -> -> -> -> -> ->. auto.
Qed.

Lemma message_position (msg : OverlayText.t) (d d' : Display) :
  processMessage K msg d = Some d' ->
  position_follows d -> position_follows d'.
Proof.
  intros H I. destruct (isEnabled d) eqn:Hen.
  - destruct (processMessage_inv K msg d d' Hen H) as (S & (bg & fg & _ & _ & C) & _).
    destruct (surroundings_flags _ _ S) as (Fp & _ & _ & _ & Pr & _).
    unfold position_follows. rewrite Fp. intros Hp.
    destruct (stored_position_kept K msg bg fg d Hp) as (W & Hh & T & Hd & Vd).
    unfold position_from_properties. rewrite C, Pr, W, Hh, T, Hd, Vd.
    exact (I Hp).
  - rewrite (processMessage_off msg d Hen) in H. injection H as <-. exact I.
Qed.

Lemma tick_position (d : Display) :
  position_follows d -> position_follows (tick d).
Proof.
  destruct (update_leaves boundingRect_height granted d) as (C & S & _).
  destruct (surroundings_flags _ _ S) as (Fp & _ & _ & _ & Pr & _).
  apply position_shell; try assumption.
  - exact (f_equal vertical_dist_ C).
  - exact (f_equal horizontal_dist_ C).
  - exact (f_equal texture_width_ C).
  - exact (f_equal texture_height_ C).
  - exact (f_equal text_size_ C).
Qed.

Lemma edit_position (e : PropertyEdit) (d d' : Display) :
  apply_edit e d = Some d' ->
  position_follows d -> position_follows d'.
Proof.
  destruct d as [c opos ofg obg fams props en ov cnt errs].
  destruct c as [tw th ab ish bg fg ts lw tx fn hd vd ha va flag].
  destruct props as [wp wf wb pab pis ptop pleft pw ph pts plw pfg pfa pbg pba pfi].
  unfold position_follows, position_from_properties, apply_edit.
  cbn [config properties overtake_position_properties_ vertical_dist_
       horizontal_dist_ texture_width_ texture_height_ text_size_
       top_property_ left_property_ width_property_ height_property_
       text_size_property_].
  intros H I.
  destruct e; cbn [slot store_edit properties with_properties] in H.
  - injection H as <-. unfold updateAlignBottom. cbn.
    destruct (Bool.eqb ab v); exact I.
  - injection H as <-. unfold updateInvertShadow. cbn.
    destruct (Bool.eqb ish v); exact I.
  - injection H as <-. destruct opos; cbn; intros Hp;
      [destruct (I Hp) as (A & B & C & D & E); repeat split; assumption
      | discriminate].
  - injection H as <-. destruct opos; cbn; intros Hp;
      [destruct (I Hp) as (A & B & C & D & E); repeat split; assumption
      | discriminate].
  - injection H as <-. destruct opos; cbn; intros Hp;
      [destruct (I Hp) as (A & B & C & D & E); repeat split; assumption
      | discriminate].
  - injection H as <-. destruct opos; cbn; intros Hp;
      [destruct (I Hp) as (A & B & C & D & E); repeat split; assumption
      | discriminate].
  - injection H as <-. destruct opos; cbn; intros Hp;
      [destruct (I Hp) as (A & B & C & D & E); repeat split; assumption
      | discriminate].
  - injection H as <-. destruct ofg; exact I.
  - injection H as <-. destruct ofg; exact I.
  - unfold updateFGAlpha in H. cbn in H.
    destruct (Float.scale255 v); [|discriminate].
    injection H as <-. destruct ofg; exact I.
  - injection H as <-. destruct obg; exact I.
  - unfold updateBGAlpha in H. cbn in H.
    destruct (Float.scale255 v); [|discriminate].
    injection H as <-. destruct obg; exact I.
  - unfold updateFont in H. cbn in H.
    destruct (index <? Z.of_nat (List.length fams)).
    + destruct (index <? 0); [discriminate|].
      destruct (nth_error fams (Z.to_nat index)); [|discriminate].
      injection H as <-. destruct ofg; exact I.
    + injection H as <-. exact I.
Qed.

Lemma position_switch_position (v : bool) (p : Plugin) :
  position_follows (display p) ->
  position_follows
    (display (updateOvertakePositionProperties
                (on_display
                   (fun d => with_properties
                               (put_overtake_position_properties_property_ v
                                  (properties d)) d) p))).
Proof.
  destruct p as [d calls].
  destruct d as [c opos ofg obg fams props en ov cnt errs].
  destruct c as [tw th ab ish bg fg ts lw tx fn hd vd ha va flag].
  unfold updateOvertakePositionProperties, on_display, position_follows,
    position_from_properties.
  destruct opos, v; cbn; intros I Hp; try discriminate.
  - exact (I eq_refl).
  - repeat split.
Qed.

Lemma foreground_switch_position (v : bool) (p p' : Plugin) :
  updateOvertakeFGColorProperties
    (on_display
       (fun d => with_properties
                   (put_overtake_fg_color_properties_property_ v
                      (properties d)) d) p) = Some p' ->
  position_follows (display p) -> position_follows (display p').
Proof.
  destruct p as [d calls].
  destruct d as [c opos ofg obg fams props en ov cnt errs].
  destruct c as [tw th ab ish bg fg ts lw tx fn hd vd ha va flag].
  unfold updateOvertakeFGColorProperties, on_display, pull_foreground,
    updateFGAlpha, updateFGColor, updateFont, updateLineWidth, dirty_if,
    position_follows, position_from_properties.
  destruct ofg, v; cbn; try (intros [= <-]; cbn; auto).
  destruct (Float.scale255 _); [|discriminate]. cbn.
  destruct (_ <? Z.of_nat _); cbn.
  - destruct (_ <? 0); [discriminate|].
    destruct (nth_error _ _); [|discriminate]. cbn.
    intros [= <-]; cbn; auto.
  - intros [= <-]; cbn; auto.
Qed.

Lemma background_switch_position (v : bool) (p p' : Plugin) :
  updateOvertakeBGColorProperties
    (on_display
       (fun d => with_properties
                   (put_overtake_bg_color_properties_property_ v
                      (properties d)) d) p) = Some p' ->
  position_follows (display p) -> position_follows (display p').
Proof.
  destruct p as [d calls].
  destruct d as [c opos ofg obg fams props en ov cnt errs].
  destruct c as [tw th ab ish bg fg ts lw tx fn hd vd ha va flag].
  unfold updateOvertakeBGColorProperties, on_display, pull_background,
    updateBGAlpha, updateBGColor, dirty_if, position_follows,
    position_from_properties.
  destruct obg, v; cbn; try (intros [= <-]; cbn; auto).
  destruct (Float.scale255 _); [|discriminate]. cbn.
  intros [= <-]; cbn; auto.
Qed.

Lemma on_overlay_position (f : OverlayObject.t -> OverlayObject.t) (d : Display) :
  position_follows d -> position_follows (on_overlay f d).
Proof.
  unfold on_overlay. destruct (overlay_ d); [|auto].
  apply position_shell; reflexivity.
Qed.

Lemma handle_position (ev : Event) (p p' : Plugin) :
  is_move ev = false ->
  handle K boundingRect_height granted ev p = Some p' ->
  position_follows (display p) -> position_follows (display p').
Proof.
  destruct ev; unfold handle, lift; intros Hm H; try discriminate Hm.
  - destruct (processMessage K msg (display p)) as [d'|] eqn:E; [|discriminate].
    injection H as <-. exact (message_position _ _ _ E).
  - injection H as <-. apply tick_position.
  - destruct (apply_edit e (display p)) as [d'|] eqn:E; [|discriminate].
    injection H as <-. exact (edit_position _ _ _ E).
  - injection H as <-. apply position_switch_position.
  - exact (foreground_switch_position v p p' H).
  - exact (background_switch_position v p p' H).
  - injection H as <-. apply on_overlay_position.
  - injection H as <-. apply on_overlay_position.
  - injection H as <-. apply on_overlay_position.
  - injection H as <-. apply position_shell; reflexivity.
Qed.

(** X19. While the position group is overtaken, the stored distances, size
    and text size are the ones the properties hold, and no run of
    callbacks breaks this, messages included, as long as [movePosition] is
    not among them. *)
Theorem position_follows_properties (events : list Event) (p p' : Plugin) :
  forallb (fun ev => negb (is_move ev)) events = true ->
  position_follows (display p) ->
  run K boundingRect_height granted events p = Some p' ->
  position_follows (display p').
Proof.
  revert p. induction events as [|ev rest IH]; intros p Hm I H; cbn [run] in H.
  - injection H as <-. exact I.
  - cbn [forallb] in Hm. apply andb_prop in Hm. destruct Hm as [Hm Hr].
    destruct (handle K boundingRect_height granted ev p) as [q|] eqn:E;
      [|discriminate].
    apply (IH q Hr); [|exact H].
    apply (handle_position ev p q); [|exact E|exact I].
    destruct (is_move ev); [discriminate | reflexivity].
Qed.

Lemma position_switch_overlay (v : bool) (p : Plugin) :
  overlay_ (display (updateOvertakePositionProperties
                       (on_display
                          (fun d => with_properties
                                      (put_overtake_position_properties_property_ v
                                         (properties d)) d) p)))
  = overlay_ (display p).
Proof.
  destruct p as [d calls].
  destruct d as [c opos ofg obg fams props en ov cnt errs].
  unfold updateOvertakePositionProperties, on_display.
  destruct opos, v; reflexivity.
Qed.

Lemma foreground_switch_overlay (v : bool) (p p' : Plugin) :
  updateOvertakeFGColorProperties
    (on_display
       (fun d => with_properties
                   (put_overtake_fg_color_properties_property_ v
                      (properties d)) d) p) = Some p' ->
  overlay_ (display p') = overlay_ (display p).
Proof.
  destruct p as [d calls].
  destruct d as [c opos ofg obg fams props en ov cnt errs].
  destruct c as [tw th ab ish bg fg ts lw tx fn hd vd ha va flag].
  unfold updateOvertakeFGColorProperties, on_display, pull_foreground,
    updateFGAlpha, updateFGColor, updateFont, updateLineWidth, dirty_if.
  destruct ofg, v; cbn; try (intros [= <-]; reflexivity).
  destruct (Float.scale255 _); [|discriminate]. cbn.
  destruct (_ <? Z.of_nat _); cbn.
  - destruct (_ <? 0); [discriminate|].
    destruct (nth_error _ _); [|discriminate]. cbn.
    intros [= <-]; reflexivity.
  - intros [= <-]; reflexivity.
Qed.

Lemma background_switch_overlay (v : bool) (p p' : Plugin) :
  updateOvertakeBGColorProperties
    (on_display
       (fun d => with_properties
                   (put_overtake_bg_color_properties_property_ v
                      (properties d)) d) p) = Some p' ->
  overlay_ (display p') = overlay_ (display p).
Proof.
  destruct p as [d calls].
  destruct d as [c opos ofg obg fams props en ov cnt errs].
  destruct c as [tw th ab ish bg fg ts lw tx fn hd vd ha va flag].
  unfold updateOvertakeBGColorProperties, on_display, pull_background,
    updateBGAlpha, updateBGColor, dirty_if.
  destruct obg, v; cbn; try (intros [= <-]; reflexivity).
  destruct (Float.scale255 _); [|discriminate]. cbn.
  intros [= <-]; reflexivity.
Qed.

(** X20. Who touches what of an overlay object that exists. An edit of a
    property, a switch of an overtake property, [movePosition] and a change
    of what [isEnabled] returns leave the object exactly as it is. Only a
    message changes its position; only a message, [onEnable], [onDisable]
    and [reset] change its visibility; only a tick changes its texture
    size, its buffer and its dimensions. *)
Theorem overlay_touched_by
    (ev : Event) (p p' : Plugin) (o o' : OverlayObject.t) :
  handle K boundingRect_height granted ev p = Some p' ->
  overlay_ (display p) = Some o ->
  overlay_ (display p') = Some o' ->
  (reaches_overlay ev = false -> o' = o)
  /\ (is_message ev = false ->
      OverlayObject.position o' = OverlayObject.position o)
  /\ (sets_visibility ev = false ->
      OverlayObject.visible o' = OverlayObject.visible o)
  /\ (is_tick ev = false ->
      OverlayObject.buffer o' = OverlayObject.buffer o
      /\ OverlayObject.dimensions o' = OverlayObject.dimensions o
      /\ OverlayObject.textureWidth o' = OverlayObject.textureWidth o
      /\ OverlayObject.textureHeight o' = OverlayObject.textureHeight o).
Proof.
  assert (Same : overlay_ (display p') = overlay_ (display p) ->
                 overlay_ (display p) = Some o ->
                 overlay_ (display p') = Some o' ->
                 o' = o) by (intros -> -> [= <-]; reflexivity).
  assert (All : o' = o ->
                (reaches_overlay ev = false -> o' = o)
                /\ (is_message ev = false ->
                    OverlayObject.position o' = OverlayObject.position o)
                /\ (sets_visibility ev = false ->
                    OverlayObject.visible o' = OverlayObject.visible o)
                /\ (is_tick ev = false ->
                    OverlayObject.buffer o' = OverlayObject.buffer o
                    /\ OverlayObject.dimensions o' = OverlayObject.dimensions o
                    /\ OverlayObject.textureWidth o' = OverlayObject.textureWidth o
                    /\ OverlayObject.textureHeight o'
                       = OverlayObject.textureHeight o))
    by (intros ->; repeat split).
  destruct ev; unfold handle, lift; intros H Ho Ho'.
  - destruct (processMessage K msg (display p)) as [d'|] eqn:E; [|discriminate].
    injection H as <-. cbn [display] in Ho', Same.
    destruct (isEnabled (display p)) eqn:Hen.
    + destruct (processMessage_inv K msg _ d' Hen E) as (_ & _ & O).
      rewrite O in Ho'. injection Ho' as <-.
      unfold ensured. rewrite Ho. unfold apply_action.
      split; [discriminate|]. split; [discriminate|]. split; [discriminate|].
      intros _.
      destruct (OverlayText.action msg =? OverlayText.DELETE K);
        [repeat split|].
      destruct (OverlayText.action msg =? OverlayText.ADD K); repeat split.
    + rewrite (processMessage_off msg _ Hen) in E. injection E as <-.
      apply All, Same; [reflexivity | assumption | assumption].
  - injection H as <-. cbn [display on_display] in Ho'.
    destruct (update_leaves boundingRect_height granted (display p))
      as (_ & _ & _ & T).
    rewrite Ho, Ho' in T. destruct T as (_ & V & P).
    split; [discriminate|]. split; [intros _; exact P|].
    split; [intros _; exact V | discriminate].
  - destruct (apply_edit e (display p)) as [d'|] eqn:E; [|discriminate].
    injection H as <-. destruct (apply_edit_shell e _ d' E) as (O & _).
    apply All, Same; assumption.
  - injection H as <-.
    apply All, Same; [apply position_switch_overlay | assumption | assumption].
  - apply All, Same;
      [exact (foreground_switch_overlay v p p' H) | assumption | assumption].
  - apply All, Same;
      [exact (background_switch_overlay v p p' H) | assumption | assumption].
  - injection H as <-. revert Ho'.
    unfold onEnable, called, on_display, on_overlay. cbn [display].
    rewrite Ho. intros [= <-].
    split; [discriminate|]. split; [reflexivity|]. split; [discriminate|].
    repeat split.
  - injection H as <-. revert Ho'.
    unfold onDisable, called, on_display, on_overlay. cbn [display].
    rewrite Ho. intros [= <-].
    split; [discriminate|]. split; [reflexivity|]. split; [discriminate|].
    repeat split.
  - injection H as <-. revert Ho'.
    unfold reset, called, on_display, on_overlay. cbn [display].
    rewrite Ho. intros [= <-].
    split; [discriminate|]. split; [reflexivity|]. split; [discriminate|].
    repeat split.
  - injection H as <-. apply All, Same; [reflexivity | assumption | assumption].
  - injection H as <-. apply All, Same; [reflexivity | assumption | assumption].
Qed.

End Runs.

(** * Callbacks one after the other *)
Section Sequences.

#[local] Arguments Float.scale255 : simpl never.
#[local] Arguments decimal : simpl never.
#[local] Arguments String.append : simpl never.

Variable K : OverlayText.Constants.
Variable boundingRect_height : option QFont -> Z -> Z -> string -> Z.
Variable granted : Z -> Z -> Z * Z.

Local Abbreviation tick := (update boundingRect_height granted).
Local Abbreviation rendered := (render boundingRect_height granted).
Local Abbreviation composed := (compose boundingRect_height).

(** The position a message hands to the overlay object. *)
Lemma message_position_handed (msg : OverlayText.t) (d d' : Display) :
  isEnabled d = true ->
  processMessage K msg d = Some d' ->
  exists o',
    overlay_ d' = Some o'
    /\ OverlayObject.position o'
       = Some (horizontal_dist_ (config d'), vertical_dist_ (config d'),
               horizontal_alignment_ (config d'),
               vertical_alignment_ (config d'))
    /\ OverlayObject.visible o'
       = OverlayObject.visible (apply_action K msg (ensured d)).
Proof.
  intros Hen H.
  destruct (processMessage_inv K msg d d' Hen H) as (_ & _ & O).
  eexists. split; [exact O|]. split; reflexivity.
Qed.

Lemma message_distances (msg : OverlayText.t) (d d' : Display) :
  isEnabled d = true ->
  processMessage K msg d = Some d' ->
  (horizontal_dist_ (config d'), vertical_dist_ (config d'))
  = if overtake_position_properties_ d
    then (horizontal_dist_ (config d), vertical_dist_ (config d))
    else (OverlayText.horizontal_distance msg,
          OverlayText.vertical_distance msg).
Proof.
  intros Hen H.
  destruct (processMessage_inv K msg d d' Hen H) as (_ & (bg & fg & _ & _ & C) & _).
  rewrite C. destruct (overtake_position_properties_ d) eqn:Hp.
  - destruct (stored_position_kept K msg bg fg d Hp) as (_ & _ & _ & -> & ->).
    reflexivity.
  - destruct (stored_position_taken K msg bg fg d Hp) as (_ & _ & _ & -> & ->).
    reflexivity.
Qed.

(** X21. No message taken by an enabled display is left undrawn, a DELETE
    message included: the next tick renders. It asks for a texture of the
    stored size, commits the buffer composed from the configuration the
    message left, passes the granted size on as dimensions, lowers the
    flag, and leaves the visibility as the message set it. *)
Theorem message_drawn_on_next_tick (msg : OverlayText.t) (d : Display) :
  isEnabled d = true ->
  conversions_defined msg d = true ->
  exists d1 o1 o2,
    processMessage K msg d = Some d1
    /\ overlay_ d1 = Some o1
    /\ overlay_ (tick d1) = Some o2
    /\ dirty (tick d1) = false
    /\ text_ (config d1) = OverlayText.text msg
    /\ OverlayObject.buffer o2
       = Some (composed (config d1)
                 (OverlayObject.updateTextureSize granted
                    (texture_width_ (config d1)) (texture_height_ (config d1))
                    o1))
    /\ OverlayObject.dimensions o2
       = Some (granted (texture_width_ (config d1))
                 (texture_height_ (config d1)))
    /\ OverlayObject.visible o2 = OverlayObject.visible o1.
Proof.
  intros Hen Hdef.
  destruct (processMessage_defined K msg d Hen Hdef) as [d1 E].
  destruct (processMessage_inv K msg d d1 Hen E) as (S & (bg & fg & _ & _ & C) & O).
  destruct (surroundings_flags _ _ S) as (_ & _ & _ & En1 & _).
  assert (Hd : dirty d1 = true) by (unfold dirty; rewrite C; reflexivity).
  rewrite Hen in En1.
  eexists d1, _, _. split; [exact E|]. split; [exact O|].
  rewrite (update_render _ _ d1 _ Hd En1 O).
  split; [reflexivity|]. split; [reflexivity|].
  split; [rewrite C; apply stored_text|].
  split; [reflexivity|].
  split; [|reflexivity].
  cbn. destruct (granted _ _); reflexivity.
Qed.

(** X22. With the position overtaken, a new value of the top property is
    stored and redrawn at once, but the overlay object is not moved: the
    tick after the edit leaves its position alone. It is the next message
    that hands the new distance on. *)
Theorem position_edit_waits_for_message
    (v : Z) (msg : OverlayText.t) (d : Display) (o : OverlayObject.t) :
  overtake_position_properties_ d = true ->
  isEnabled d = true ->
  overlay_ d = Some o ->
  exists d1 o1,
    apply_edit (EditTop v) d = Some d1
    /\ overlay_ (tick d1) = Some o1
    /\ dirty (tick d1) = false
    /\ OverlayObject.position o1 = OverlayObject.position o
    /\ forall d2,
         processMessage K msg (tick d1) = Some d2 ->
         exists o2,
           overlay_ d2 = Some o2
           /\ OverlayObject.position o2
              = Some (horizontal_dist_ (config d), v,
                      horizontal_alignment_ (config d2),
                      vertical_alignment_ (config d2)).
Proof.
  intros Hp Hen Ho.
  set (d1 := updateTop (with_properties (put_top_property_ v (properties d)) d)).
  assert (F : dirty d1 = true /\ isEnabled d1 = true /\ overlay_ d1 = Some o
              /\ overtake_position_properties_ d1 = true
              /\ horizontal_dist_ (config d1) = horizontal_dist_ (config d)
              /\ vertical_dist_ (config d1) = v).
  { subst d1. destruct d as [c opos ofg obg fams props en ov cnt errs].
    cbn in Hp, Hen, Ho. subst opos en ov. repeat split. }
  destruct F as (Hd1 & He1 & Ho1 & Hp1 & Hh1 & Hv1).
  pose proof (update_render boundingRect_height granted d1 o Hd1 He1 Ho1) as T.
  exists d1, (rendered (config d1) o).
  split; [reflexivity|].
  rewrite T.
  split; [reflexivity|]. split; [reflexivity|]. split; [reflexivity|].
  intros d2 E.
  assert (He2 : isEnabled (modify (set_require_update_texture_ false)
                             (with_overlay_ (Some (rendered (config d1) o)) d1))
                = true) by exact He1.
  destruct (message_position_handed msg _ d2 He2 E) as (o2 & O2 & P2 & _).
  pose proof (message_distances msg _ d2 He2 E) as D2.
  change (overtake_position_properties_
            (modify (set_require_update_texture_ false)
               (with_overlay_ (Some (rendered (config d1) o)) d1)))
    with (overtake_position_properties_ d1) in D2.
  rewrite Hp1 in D2.
  change (horizontal_dist_ (config (modify (set_require_update_texture_ false)
            (with_overlay_ (Some (rendered (config d1) o)) d1))))
    with (horizontal_dist_ (config d1)) in D2.
  change (vertical_dist_ (config (modify (set_require_update_texture_ false)
            (with_overlay_ (Some (rendered (config d1) o)) d1))))
    with (vertical_dist_ (config d1)) in D2.
  rewrite Hh1, Hv1 in D2. injection D2 as Dh Dv.
  exists o2. split; [exact O2|]. rewrite P2, Dh, Dv. reflexivity.
Qed.

(** X23. [movePosition] stores the two distances and nothing else: it
    raises no flag and does not touch the overlay object. The next message
    hands them to the overlay object when the position is overtaken, and
    overwrites them with its own otherwise. *)
Theorem move_waits_for_message
    (x y : Z) (msg : OverlayText.t) (d d' : Display) :
  isEnabled d = true ->
  processMessage K msg (movePosition x y d) = Some d' ->
  dirty (movePosition x y d) = dirty d
  /\ overlay_ (movePosition x y d) = overlay_ d
  /\ exists o',
       overlay_ d' = Some o'
       /\ OverlayObject.position o'
          = Some (if overtake_position_properties_ d then x
                  else OverlayText.horizontal_distance msg,
                  if overtake_position_properties_ d then y
                  else OverlayText.vertical_distance msg,
                  horizontal_alignment_ (config d'),
                  vertical_alignment_ (config d')).
Proof.
  intros Hen E.
  split; [reflexivity|]. split; [reflexivity|].
  assert (He : isEnabled (movePosition x y d) = true) by exact Hen.
  destruct (message_position_handed msg _ d' He E) as (o' & O & P & _).
  pose proof (message_distances msg _ d' He E) as D.
  change (overtake_position_properties_ (movePosition x y d))
    with (overtake_position_properties_ d) in D.
  exists o'. split; [exact O|]. rewrite P.
  destruct (overtake_position_properties_ d); cbn in D;
    injection D as -> ->; reflexivity.
Qed.

(** X24. After [reset] an overlay object that exists is hidden. A tick does
    not bring it back, and of the messages only one whose action is ADD
    does: a message with any other action leaves its text with a hidden
    overlay object. *)
Theorem hidden_until_add
    (msg : OverlayText.t) (p : Plugin) (o : OverlayObject.t) (d' : Display) :
  isEnabled (display p) = true ->
  overlay_ (display p) = Some o ->
  processMessage K msg (tick (display (reset p))) = Some d' ->
  (exists o1, overlay_ (tick (display (reset p))) = Some o1
              /\ OverlayObject.visible o1 = false)
  /\ exists o',
       overlay_ d' = Some o'
       /\ OverlayObject.visible o'
          = negb (OverlayText.action msg =? OverlayText.DELETE K)
            && (OverlayText.action msg =? OverlayText.ADD K).
Proof.
  intros Hen Ho E.
  set (d0 := display (reset p)) in *.
  assert (F : isEnabled d0 = true
              /\ overlay_ d0 = Some (OverlayObject.hide o)).
  { subst d0. unfold reset, on_display, on_overlay, called. cbn.
    rewrite Ho. split; [exact Hen | reflexivity]. }
  destruct F as [He0 Ho0].
  destruct (update_leaves boundingRect_height granted d0) as (_ & S & _ & T).
  destruct (surroundings_flags _ _ S) as (_ & _ & _ & He1 & _).
  rewrite He0 in He1. rewrite Ho0 in T.
  destruct (overlay_ (tick d0)) as [o1|] eqn:Ho1; [|contradiction].
  destruct T as (_ & V1 & _). cbn in V1.
  split; [exists o1; split; [reflexivity | exact V1]|].
  destruct (message_position_handed msg _ d' He1 E) as (o' & O & _ & V).
  exists o'. split; [exact O|]. rewrite V.
  unfold ensured. rewrite Ho1. unfold apply_action.
  destruct (OverlayText.action msg =? OverlayText.DELETE K); [reflexivity|].
  destruct (OverlayText.action msg =? OverlayText.ADD K); [reflexivity|].
  exact V1.
Qed.

(** X25. With the position not overtaken a new width is stored without
    the update flag: the tick that follows draws nothing. The width is not
    dropped, though. The next redraw, whatever raises the flag for it (here
    a change of [invert_shadow_]), asks for a texture of that width. *)
Theorem unovertaken_edit_deferred
    (w : Z) (d : Display) (o : OverlayObject.t) :
  overtake_position_properties_ d = false ->
  isEnabled d = true ->
  overlay_ d = Some o ->
  dirty d = false ->
  exists d1 d2 o2,
    apply_edit (EditWidth w) d = Some d1
    /\ texture_width_ (config d1) = w
    /\ tick d1 = d1
    /\ overlay_ d1 = Some o
    /\ apply_edit (EditInvertShadow (negb (invert_shadow_ (config d)))) d1
       = Some d2
    /\ overlay_ (tick d2) = Some o2
    /\ OverlayObject.dimensions o2
       = Some (granted w (texture_height_ (config d))).
Proof.
  intros Hp Hen Ho Hd.
  destruct d as [c opos ofg obg fams props en ov cnt errs].
  destruct c as [tw th ab ish bg fg ts lw tx fn hd vd ha va flag].
  cbn in Hp, Hen, Ho, Hd. subst opos en ov flag.
  destruct ish;
    (eexists _, _, _;
     split; [reflexivity|]; split; [reflexivity|];
     split; [apply update_skip; left; reflexivity|];
     split; [reflexivity|];
     split; [reflexivity|];
     unfold updateInvertShadow, updateWidth, dirty_if; cbn;
     split; [reflexivity|]; cbn; destruct (granted w th); reflexivity).
Qed.

End Sequences.

(** * Further worked cases *)
Section FurtherCases.

Import Sample.
Import Scenario.

(** The sample values arise from the callbacks. *)
Example initialized_arises : onInitialize created = Some initialized.
Proof. vm_compute. reflexivity. Qed.

Example evening_arises :
  run tags ten at_least_one day initialized = Some evening.
Proof. vm_compute. reflexivity. Qed.

(** The main text of [shown] anchored at the bottom is painted with the
    black pen of the shadow, three pixels wide. *)
Lemma stroke_pens_witness :
  In main_stroke (strokes (compose ten bottom_aligned (overlay_of shown)))
  /\ pen_width (stroke_pen main_stroke) = 3
  /\ (QColor.red (pen_color (stroke_pen main_stroke)),
      QColor.green (pen_color (stroke_pen main_stroke)),
      QColor.blue (pen_color (stroke_pen main_stroke))) = (0, 0, 0).
Proof.
  assert (Hin : In main_stroke
                  (strokes (compose ten bottom_aligned (overlay_of shown))))
    by (right; left; reflexivity).
  destruct (stroke_pens ten bottom_aligned (overlay_of shown) main_stroke Hin)
    as (W & _ & _ & C).
  split; [exact Hin|]. split; [exact W | exact C].
Defined.

Lemma fragments_without_newline_witness :
  occurs newline (text_ bottom_aligned) = true
  /\ occurs newline (static_content (stroke_text main_stroke)) = false.
Proof.
  split; [reflexivity|].
  apply (fragments_without_newline ten bottom_aligned (overlay_of shown)).
  right. left. reflexivity.
Defined.

Lemma wrap_then_strip_witness :
  remove_markup (c_str (color_wrap hello_world (QColor.make 255 255 255 255)))
  = hello_world
  /\ remove_markup (c_str (color_wrap ab_cd (QColor.make 255 255 255 255)))
     = "ab"%string.
Proof.
  split.
  - apply (wrap_then_strip hello_world (QColor.make 255 255 255 255) eq_refl).
    reflexivity.
  - exact (proj1 (wrap_then_strip ab_cd (QColor.make 255 255 255 255) eq_refl)).
Defined.

Lemma shadow_text_kept_witness :
  remove_color_tags "color: red"%string = "color: red"%string.
Proof. apply shadow_text_kept. reflexivity. Defined.

Lemma shadow_drops_declaration_witness :
  remove_color_tags "<b style='color: red;'>hi</b>"%string
  = "<b style=''>hi</b>"%string.
Proof.
  exact (shadow_drops_declaration "<b style='"%string "red"%string
           "'>hi</b>"%string " "%char eq_refl eq_refl eq_refl eq_refl eq_refl).
Defined.

(** [goodbye] after [hello] leaves the configuration it leaves alone. *)
Lemma last_message_wins_witness :
  exists d2',
    processMessage tags goodbye (fresh false false false) = Some d2'
    /\ config after_goodbye = config d2'.
Proof.
  apply (last_message_wins tags hello goodbye (fresh false false false)
           after_hello after_goodbye);
    [reflexivity | reflexivity | reflexivity
    | left; reflexivity | left; reflexivity].
Defined.

Lemma message_frame_witness :
  properties after_hello = defaults
  /\ exists o',
       overlay_ after_hello = Some o'
       /\ OverlayObject.name o' = "OverlayTextDisplayObject0"%string
       /\ count after_hello = 1.
Proof.
  destruct (message_frame tags hello (fresh false false false) after_hello
              eq_refl eq_refl)
    as (P & _ & _ & _ & _ & _ & _ & _ & o' & O & N & C).
  split; [exact P|]. exists o'. split; [exact O|]. split; [exact N | exact C].
Defined.

Lemma overtake_position_on_witness :
  overtake_position_properties_
    (display (updateOvertakePositionProperties position_asked)) = true
  /\ texture_width_
       (config (display (updateOvertakePositionProperties position_asked)))
     = 128
  /\ Host.shown (host_calls (updateOvertakePositionProperties position_asked))
       Entry.width = Some true.
Proof.
  destruct (overtake_position_on position_asked eq_refl eq_refl)
    as (F & (_ & _ & W & _) & _ & S & _).
  split; [exact F|]. split; [exact W|].
  apply S. right. right. left. reflexivity.
Defined.

Lemma overtake_position_else_witness :
  config (display (updateOvertakePositionProperties (plugin shown)))
  = config shown
  /\ Host.shown (host_calls (updateOvertakePositionProperties (plugin shown)))
       Entry.top = Some false.
Proof.
  destruct (overtake_position_else (plugin shown)) as (C & _ & S & _).
  - right. reflexivity.
  - split; [exact C|]. apply S. left. reflexivity.
Defined.

(** The foreground switch with the font index 5 of three families: colour
    and line width are taken, the font of the message stays and the index
    is reported. *)
Lemma overtake_foreground_on_witness :
  exists p',
    updateOvertakeFGColorProperties foreground_asked = Some p'
    /\ line_width_ (config (display p')) = 2
    /\ font_ (config (display p')) = "DejaVu Sans"%string
    /\ error_log (display p') = [5].
Proof.
  destruct (overtake_foreground_on foreground_asked eq_refl eq_refl)
    as (p' & E & _ & _ & _ & L & F & _).
  - repeat split; try reflexivity; vm_compute; discriminate.
  - cbn. lia.
  - exists p'. split; [exact E|]. split; [exact L|]. exact F.
Defined.

Lemma overtake_background_on_witness :
  exists p',
    updateOvertakeBGColorProperties background_asked = Some p'
    /\ dirty (display p') = true
    /\ bg_color_ (config (display p'))
       = property_color (QColor.make 0 0 0 255) Float.point8.
Proof.
  destruct (overtake_background_on background_asked eq_refl eq_refl)
    as (p' & E & _ & D & C & _).
  - repeat split; try reflexivity; vm_compute; discriminate.
  - exists p'. split; [exact E|]. split; [exact D | exact C].
Defined.

Lemma alpha_edit_on_range_witness :
  exists d',
    apply_edit (EditBGAlpha Float.half) shown = Some d'
    /\ QColor.alpha (bg_color_ (config d')) = Float.floor255 Float.half.
Proof.
  destruct (alpha_edit_on_range Float.half shown) as [_ (d' & E & A & _)].
  - repeat split; try reflexivity; vm_compute; discriminate.
  - exists d'. split; [exact E | exact A].
Defined.

Lemma registered_font_selected_witness :
  exists d',
    apply_edit (EditFont 1) shown = Some d'
    /\ font_ (config d') = "DejaVu Sans Mono"%string.
Proof.
  destruct (registered_font_selected "DejaVu Sans Mono"%string 1 shown)
    as (d' & E & F & _).
  - right. left. reflexivity.
  - exists d'. split; [exact E | exact F].
Defined.

Lemma onInitialize_takes_properties_witness :
  exists p',
    onInitialize created = Some p'
    /\ vertical_dist_ (config (display p')) = 30
    /\ overtake_fg_color_properties_ (display p') = true
    /\ font_ (config (display p')) = "DejaVu Sans Mono"%string
    /\ Host.shown (host_calls p') Entry.bg_alpha = Some false.
Proof.
  destruct (onInitialize_takes_properties created)
    as (p' & E & P & _ & (V & _) & _ & _ & _ & _ & _ & _ & G & _ & _ & _ & _
        & F & S).
  - repeat split; try reflexivity; vm_compute; discriminate.
  - repeat split; try reflexivity; vm_compute; discriminate.
  - cbn. lia.
  - exists p'. split; [exact E|].
    split; [rewrite V, P; reflexivity|]. split; [exact G|].
    split; [exact F | exact (S Entry.bg_alpha)].
Defined.

(** Over the day the display gets its object from the first message and
    keeps it. *)
Lemma one_overlay_object_witness :
  same_object (display initialized) (display evening).
Proof.
  apply (one_overlay_object tags ten at_least_one day). reflexivity.
Defined.

Lemma flag_lowered_by_render_witness :
  Tick = Tick
  /\ isEnabled silent = true
  /\ exists o, overlay_ silent = Some o
               /\ overlay_ (display silent_drawn)
                  = Some (render ten at_least_one (config silent) o).
Proof.
  apply (flag_lowered_by_render tags ten at_least_one Tick (plugin silent)
           silent_drawn); reflexivity.
Defined.

(** The tick that draws [silent] neither moves nor shows or hides its
    overlay object. *)
Lemma overlay_touched_by_witness :
  OverlayObject.position (overlay_of (display silent_drawn))
  = OverlayObject.position (overlay_of silent)
  /\ OverlayObject.visible (overlay_of (display silent_drawn))
     = OverlayObject.visible (overlay_of silent).
Proof.
  destruct (overlay_touched_by tags ten at_least_one Tick (plugin silent)
              silent_drawn (overlay_of silent)
              (overlay_of (display silent_drawn)) eq_refl eq_refl eq_refl)
    as (_ & P & V & _).
  split; [exact (P eq_refl) | exact (V eq_refl)].
Defined.

Lemma position_follows_properties_witness :
  position_follows (display evening).
Proof.
  apply (position_follows_properties tags ten at_least_one day initialized).
  - reflexivity.
  - intros _. repeat split.
  - reflexivity.
Defined.

(** [goodbye], a DELETE message, is drawn on the next tick. *)
Lemma message_drawn_on_next_tick_witness :
  exists d1 o2,
    processMessage tags goodbye (fresh false false false) = Some d1
    /\ overlay_ (tick d1) = Some o2
    /\ OverlayObject.dimensions o2
       = Some (at_least_one (texture_width_ (config d1))
                 (texture_height_ (config d1)))
    /\ dirty (tick d1) = false.
Proof.
  destruct (message_drawn_on_next_tick tags ten at_least_one goodbye
              (fresh false false false) eq_refl eq_refl)
    as (d1 & o1 & o2 & E & _ & O & D & _ & _ & M & _).
  exists d1, o2. split; [exact E|]. split; [exact O|]. split; [exact M | exact D].
Defined.

Lemma position_edit_waits_for_message_witness :
  exists d1 o1,
    apply_edit (EditTop 5) settled = Some d1
    /\ overlay_ (tick d1) = Some o1
    /\ dirty (tick d1) = false
    /\ OverlayObject.position o1 = OverlayObject.position (overlay_of settled)
    /\ forall d2,
         processMessage tags hello (tick d1) = Some d2 ->
         exists o2,
           overlay_ d2 = Some o2
           /\ OverlayObject.position o2
              = Some (horizontal_dist_ (config settled), 5,
                      horizontal_alignment_ (config d2),
                      vertical_alignment_ (config d2)).
Proof.
  exact (position_edit_waits_for_message tags ten at_least_one 5 hello settled
           (overlay_of settled) eq_refl eq_refl eq_refl).
Defined.

Lemma move_waits_for_message_witness :
  exists o',
    overlay_ moved = Some o'
    /\ OverlayObject.position o'
       = Some (7, 9, HorizontalAlignment.LEFT, VerticalAlignment.TOP).
Proof.
  destruct (move_waits_for_message tags 7 9 hello settled moved eq_refl eq_refl)
    as (_ & _ & o' & O & P).
  exists o'. split; [exact O | exact P].
Defined.

Lemma hidden_until_add_witness :
  exists o',
    overlay_ after_reset = Some o' /\ OverlayObject.visible o' = false.
Proof.
  destruct (hidden_until_add tags ten at_least_one unknown_action (plugin shown)
              (overlay_of shown) after_reset eq_refl eq_refl eq_refl)
    as (_ & o' & O & V).
  exists o'. split; [exact O | exact V].
Defined.

(** [shown] takes its width from the message; the width 64 set in the
    property reaches the overlay object with the redraw that the change of
    [invert_shadow_] causes. *)
Lemma unovertaken_edit_deferred_witness :
  exists d1 d2 o2,
    apply_edit (EditWidth 64) shown = Some d1
    /\ texture_width_ (config d1) = 64
    /\ tick d1 = d1
    /\ overlay_ d1 = Some (overlay_of shown)
    /\ apply_edit (EditInvertShadow (negb (invert_shadow_ (config shown)))) d1
       = Some d2
    /\ overlay_ (tick d2) = Some o2
    /\ OverlayObject.dimensions o2
       = Some (at_least_one 64 (texture_height_ (config shown))).
Proof.
  exact (unovertaken_edit_deferred ten at_least_one 64 shown (overlay_of shown)
           eq_refl eq_refl eq_refl eq_refl).
Defined.

End FurtherCases.
